(** * qc-v2: the log-ingestion core

    A shallow embedding of [src/parse_logs.h] (session parser, file
    enumerator, backfill driver) and of the Linux back end of
    [src/file_watcher.c], with the properties of the specification that
    concern them.

    Conventions of the embedding:
    - [std::chrono::system_clock::time_point] and [duration] are tick counts,
      modelled as [Z]; the concrete timestamp reader below counts seconds.
      Signed overflow of the tick counter is outside the model.
    - [std::map<uuid_t, ...>] and [std::unordered_map<std::string, ...>] are
      stdpp [gmap]s; [operator[]] is a lookup with the value-initialised
      default followed by an insert.
    - [std::istringstream] is a record holding the unread characters and the
      [eofbit] / [failbit] flags; every extraction follows the sentry rules of
      the standard library.
    - [std::cout] / [std::cerr] output is a list of [message]s.
    - the two [std::chrono::from_stream] calls are library code; the parser
      is parametrised by them ([chrono_io]) and a concrete reader for
      [[HH:MM:SS]] and [YYYY-MM-DD] is supplied for the worked scenarios. *)

From Stdlib Require Import ZArith NArith Ascii String List Lia Bool.
From stdpp Require Import gmap strings list fin_maps.

Local Open Scope Z_scope.

(** ** Characters and the input stream *)

Module IStream.

(** [std::isspace] in the classic locale. *)
Definition is_space (c : ascii) : bool :=
  match c with
  | " " | "009" | "010" | "011" | "012" | "013" => true
  | _ => false
  end%char.

Definition is_digit (c : ascii) : bool :=
  ((48 <=? N_of_ascii c) && (N_of_ascii c <=? 57))%N.

Record t := mk { buf : string; eofbit : bool; failbit : bool }.

Definition of_string (s : string) : t :=
  {| buf := s; eofbit := false; failbit := false |}.

Definition good (ss : t) : bool := negb (eofbit ss) && negb (failbit ss).

(** [!ss] *)
Definition fail (ss : t) : bool := failbit ss.

Definition set_fail (ss : t) : t :=
  {| buf := buf ss; eofbit := eofbit ss; failbit := true |}.

Fixpoint skipws (s : string) : string :=
  match s with
  | String c s' => if is_space c then skipws s' else s
  | EmptyString => EmptyString
  end.

(** The characters a formatted string extraction takes: up to the first
    white space. *)
Fixpoint word (s : string) : string :=
  match s with
  | String c s' => if is_space c then EmptyString else String c (word s')
  | EmptyString => EmptyString
  end.

Fixpoint after_word (s : string) : string :=
  match s with
  | String c s' => if is_space c then s else after_word s'
  | EmptyString => EmptyString
  end.

(** [ss >> str]: [old] is the value [str] held before; it is kept when the
    sentry fails. *)
Definition get_string (ss : t) (old : string) : t * string :=
  if good ss then
    match skipws (buf ss) with
    | EmptyString => ({| buf := ""; eofbit := true; failbit := true |}, old)
    | String c r =>
        let rest := after_word (String c r) in
        ({| buf := rest;
            eofbit := match rest with EmptyString => true | _ => false end;
            failbit := false |},
         word (String c r))
    end
  else (set_fail ss, old).

(** [ss >> c] with [skipws] set. *)
Definition get_char (ss : t) (old : ascii) : t * ascii :=
  if good ss then
    match skipws (buf ss) with
    | EmptyString => ({| buf := ""; eofbit := true; failbit := true |}, old)
    | String c r => ({| buf := r; eofbit := false; failbit := false |}, c)
    end
  else (set_fail ss, old).

(** [ss >> std::noskipws >> c >> std::skipws] *)
Definition get_char_noskipws (ss : t) (old : ascii) : t * ascii :=
  if good ss then
    match buf ss with
    | EmptyString => ({| buf := ""; eofbit := true; failbit := true |}, old)
    | String c r => ({| buf := r; eofbit := false; failbit := false |}, c)
    end
  else (set_fail ss, old).

Fixpoint drop_through (delim : ascii) (s : string) : option string :=
  match s with
  | String c s' => if Ascii.eqb c delim then Some s' else drop_through delim s'
  | EmptyString => None
  end.

(** [ss.ignore(max, delim)]: discards up to and including [delim]; reaching
    the end sets [eofbit] only. *)
Definition ignore (ss : t) (delim : ascii) : t :=
  if good ss then
    match drop_through delim (buf ss) with
    | Some r => {| buf := r; eofbit := false; failbit := false |}
    | None => {| buf := ""; eofbit := true; failbit := false |}
    end
  else set_fail ss.

End IStream.

(** [line.ends_with('\r')] loop of [parse_line]. *)
Fixpoint strip_cr (s : string) : string :=
  match s with
  | EmptyString => EmptyString
  | String c s' =>
      match strip_cr s' with
      | EmptyString => if Ascii.eqb c "013" then EmptyString else String c EmptyString
      | r => String c r
      end
  end.

(** ** Data model *)

(** [uuid_t]: two 64-bit halves. *)
Abbreviation uuid_t := (N * N)%type.
(** pair of join time and play time *)
Abbreviation play_session := (Z * Z)%type.
(** pair of play sessions and total play time *)
Abbreviation playtime_info := (list play_session * Z)%type.
Abbreviation log_entry := (list string * playtime_info)%type.
Abbreviation log_data_t := (gmap uuid_t log_entry).

Record single_player_info := mk_info {
  uuid : option uuid_t;
  join_time : option Z
}.

Abbreviation player_map := (gmap string single_player_info).

Record parse_ctx_t := mk_ctx {
  cur_filename : string;
  date_tp : Z;
  line : nat;
  player_info : player_map;
  server_stopped : bool
}.

Definition set_player_info (pi : player_map) (ctx : parse_ctx_t) : parse_ctx_t :=
  {| cur_filename := cur_filename ctx; date_tp := date_tp ctx; line := line ctx;
     player_info := pi; server_stopped := server_stopped ctx |}.

Definition set_server_stopped (b : bool) (ctx : parse_ctx_t) : parse_ctx_t :=
  {| cur_filename := cur_filename ctx; date_tp := date_tp ctx; line := line ctx;
     player_info := player_info ctx; server_stopped := b |}.

(** A default-constructed [parse_ctx_t]. *)
Definition empty_ctx : parse_ctx_t :=
  {| cur_filename := ""; date_tp := 0; line := 0%nat; player_info := ∅;
     server_stopped := false |}.

(** What the code prints, one constructor per message text. *)
Inductive message :=
| WarnNeverLeft (name file : string) (leave_time : Z)
| WarnUuidNotFound (name file : string) (line : nat)
| WarnJoinedTwice (name file : string) (line : nat)
| ErrUuidNotFound (name file : string) (line : nat)
| ErrJoinTimeNotFound (name file : string) (line : nat)
| ErrUuidParse (text name file : string) (line : nat)
| WarnFileName (file : string)
| ErrDecompress (file : string).

(** The parser's mutable surroundings: context, store and output. *)
Record world := mk_world {
  w_ctx : parse_ctx_t;
  w_data : log_data_t;
  w_out : list message
}.

Record line_parse_results := mk_res {
  read_valid_line : bool;
  player_join_left : bool
}.

(** ** UUID text *)

Definition two64 : N := (2 ^ 64)%N.

(** [hex_digit_to_uint64]: [-1] converts to [2^64 - 1]. *)
Definition hex_digit_to_uint64 (c : ascii) : N :=
  let n := N_of_ascii c in
  (if (48 <=? n) && (n <=? 57) then n - 48
   else if (97 <=? n) && (n <=? 102) then n - 97 + 10
   else if (65 <=? n) && (n <=? 70) then n - 65 + 10
   else two64 - 1)%N.

Definition char_at (s : string) (i : nat) : ascii :=
  match String.get i s with Some c => c | None => "000"%char end.

(** One of the two accumulation loops of [parse_uuid]: sixteen digits, digit
    [i] shifted left by [4 i] bits in 64-bit arithmetic. *)
Fixpoint parse_uuid_half (digits : list ascii) (i : N) (acc : N) : option N :=
  match digits with
  | [] => Some acc
  | c :: rest =>
      let val := (N.shiftl (hex_digit_to_uint64 c) (i * 4) mod two64)%N in
      if (val =? two64 - 1)%N then None
      else parse_uuid_half rest (i + 1) ((acc + val) mod two64)%N
  end.

(** [detail::parse_uuid] on a string of 36 characters. *)
Definition parse_uuid (str : string) : option uuid_t :=
  if forallb (fun i => Ascii.eqb (char_at str i) "-") [8; 13; 18; 23]%nat then
    let arr := list_ascii_of_string
                 (substring 0 8 str +:+ substring 9 4 str +:+ substring 14 4 str
                  +:+ substring 19 4 str +:+ substring 24 12 str) in
    match parse_uuid_half (firstn 16 arr) 0 0 with
    | None => None
    | Some first =>
        match parse_uuid_half (skipn 16 arr) 0 0 with
        | None => None
        | Some second => Some (first, second)
        end
    end
  else None.

(** ** Closing sessions *)

Definition empty_entry : log_entry := ([], ([], 0)).

Definition last_is (names : list string) (name : string) : bool :=
  match last names with
  | Some n => bool_decide (n = name)
  | None => false
  end.

(** The body shared by [clear_all_players] (lines 304-310) and [player_left]
    (lines 439-447): [data[uuid]] is created if absent, the name is appended
    unless it is the last one, the session [(join, leave - join)] is appended
    and its duration added to the total. *)
Definition close_session (data : log_data_t) (u : uuid_t) (name : string)
    (join leave : Z) : log_data_t :=
  let '(names, (play_sessions, total_playtime)) := default empty_entry (data !! u) in
  let names' := if last_is names name then names else names ++ [name] in
  let playtime := leave - join in
  <[u := (names', (play_sessions ++ [(join, playtime)], total_playtime + playtime))]> data.

(** One iteration of the loop of [clear_all_players]. *)
Definition clear_player (file_start_warn : bool) (file : string) (leave_time : Z)
    (st : player_map * log_data_t * list message * bool)
    (e : string * single_player_info) : player_map * log_data_t * list message * bool :=
  let '(pi, data, out, any) := st in
  match uuid e.2, join_time e.2 with
  | Some u, Some j =>
      (<[e.1 := {| uuid := Some u; join_time := None |}]> pi,
       close_session data u e.1 j leave_time,
       if file_start_warn then out ++ [WarnNeverLeft e.1 file leave_time] else out,
       true)
  | _, _ => st
  end.

(** [detail::clear_all_players<file_start_warn>]; the entries are visited in
    the order of [map_to_list] (the order of an [unordered_map] is
    unspecified). Returns whether someone left. *)
Definition clear_all_players (file_start_warn : bool) (w : world) (leave_time : Z)
    : bool * world :=
  let ctx := w_ctx w in
  let '(pi, data, out, any) :=
    foldl (clear_player file_start_warn (cur_filename ctx) leave_time)
          (player_info ctx, w_data w, w_out w, false)
          (map_to_list (player_info ctx)) in
  (any, {| w_ctx := set_player_info pi ctx; w_data := data; w_out := out |}).

(** ** The line parser *)

(** The two [std::chrono::from_stream] calls of the source.
    [from_stream_hms] stands for [from_stream(ss, "[%2H:%2M:%2S]", d)]: the
    duration read and the unread rest of the line, or [None] when the stream
    fails. [from_stream_ymd] stands for [from_stream(ss, "%4Y-%2m-%2d", tp)]
    followed by [to_sys] in UTC: the instant of that date's midnight. *)
Record chrono_io := mk_io {
  from_stream_hms : string → option (Z * string);
  from_stream_ymd : string → option Z
}.

Definition empty_info : single_player_info := {| uuid := None; join_time := None |}.

(** The lambda [player_joined] of [parse_line]. *)
Definition player_joined (cur_time : Z) (player_name : string) (w : world) : world :=
  let ctx := w_ctx w in
  let info := default empty_info (player_info ctx !! player_name) in
  let out1 := match uuid info with
              | None => [WarnUuidNotFound player_name (cur_filename ctx) (line ctx)]
              | Some _ => []
              end in
  let out2 := match join_time info with
              | Some _ => [WarnJoinedTwice player_name (cur_filename ctx) (line ctx)]
              | None => []
              end in
  {| w_ctx := set_player_info
                (<[player_name := {| uuid := uuid info; join_time := Some cur_time |}]>
                   (player_info ctx)) ctx;
     w_data := w_data w;
     w_out := w_out w ++ out1 ++ out2 |}.

(** The lambda [player_left] of [parse_line]; returns true on success.
    [ctx.player_info[player_name]] creates the entry when it is absent, on
    every path. *)
Definition player_left (cur_time : Z) (player_name : string) (w : world) : bool * world :=
  let ctx := w_ctx w in
  let info := default empty_info (player_info ctx !! player_name) in
  match uuid info with
  | None =>
      (false,
       {| w_ctx := set_player_info (<[player_name := info]> (player_info ctx)) ctx;
          w_data := w_data w;
          w_out := w_out w ++ [ErrUuidNotFound player_name (cur_filename ctx) (line ctx)] |})
  | Some u =>
      match join_time info with
      | None =>
          (false,
           {| w_ctx := set_player_info (<[player_name := info]> (player_info ctx)) ctx;
              w_data := w_data w;
              w_out := w_out w
                       ++ [ErrJoinTimeNotFound player_name (cur_filename ctx) (line ctx)] |})
      | Some j =>
          (true,
           {| w_ctx := set_player_info
                         (<[player_name := {| uuid := Some u; join_time := None |}]>
                            (player_info ctx)) ctx;
              w_data := close_session (w_data w) u player_name j cur_time;
              w_out := w_out w |})
      end
  end.

Definition stop_server (w : world) : world :=
  {| w_ctx := set_server_stopped true (w_ctx w); w_data := w_data w; w_out := w_out w |}.

Definition start_server (w : world) : world :=
  {| w_ctx := set_server_stopped false (w_ctx w); w_data := w_data w; w_out := w_out w |}.

(** [ctx.player_info[name].uuid = u] *)
Definition set_uuid (name : string) (u : uuid_t) (w : world) : world :=
  let ctx := w_ctx w in
  let info := default empty_info (player_info ctx !! name) in
  {| w_ctx := set_player_info
                (<[name := {| uuid := Some u; join_time := join_time info |}]>
                   (player_info ctx)) ctx;
     w_data := w_data w;
     w_out := w_out w |}.

Definition put (m : message) (w : world) : world :=
  {| w_ctx := w_ctx w; w_data := w_data w; w_out := w_out w ++ [m] |}.

(** Lines 367-496 of [parse_line]: the message after the source tag. [ss] is
    the stream just behind the colon, [players_changed] the result of the
    flush of lines 363-365. *)
Definition parse_message (ss : IStream.t) (cur_time : Z) (players_changed : bool)
    (w : world) : line_parse_results * world :=
  let '(ss, str1) := IStream.get_string ss "" in
  let '(ss, str2) := IStream.get_string ss "" in
  if IStream.fail ss then (mk_res true players_changed, w)
  else if IStream.eofbit ss && String.eqb str1 "Stopping" && String.eqb str2 "server" then
    let '(players_changed2, w) := clear_all_players false w cur_time in
    (mk_res true (players_changed || players_changed2), stop_server w)
  else
  let '(ss, str3) := IStream.get_string ss "" in
  if IStream.fail ss then (mk_res true players_changed, w)
  else if server_stopped (w_ctx w) then
    if String.eqb str1 "Starting" && String.eqb str2 "minecraft" && String.eqb str3 "server"
    then
      let '(ss, str1) := IStream.get_string ss str1 in
      let '(ss, str2) := IStream.get_string ss str2 in
      if IStream.eofbit ss && String.eqb str1 "version"
      then (mk_res true players_changed, start_server w)
      else (mk_res true players_changed, w)
    else (mk_res true players_changed, w)
  else if IStream.eofbit ss && String.eqb str1 "Stopping" && String.eqb str2 "the"
          && String.eqb str3 "server" then
    let '(players_changed2, w) := clear_all_players false w cur_time in
    (mk_res true (players_changed || players_changed2), stop_server w)
  else
  let '(ss, str4) := IStream.get_string ss "" in
  if IStream.fail ss then (mk_res true players_changed, w)
  else if String.eqb str1 "UUID" && String.eqb str2 "of" && String.eqb str3 "player" then
    let '(ss, str1) := IStream.get_string ss str1 in
    let '(ss, str2) := IStream.get_string ss str2 in
    if IStream.eofbit ss && String.eqb str1 "is" && (String.length str2 =? 36)%nat then
      match parse_uuid str2 with
      | None =>
          (mk_res true players_changed,
           put (ErrUuidParse str2 str4 (cur_filename (w_ctx w)) (line (w_ctx w))) w)
      | Some u => (mk_res true players_changed, set_uuid str4 u w)
      end
    else (mk_res true players_changed, w)
  else if IStream.eofbit ss && String.eqb str3 "the" && String.eqb str4 "game" then
    if String.eqb str2 "joined" then (mk_res true true, player_joined cur_time str1 w)
    else if String.eqb str2 "left" then
      let '(players_changed2, w) := player_left cur_time str1 w in
      (mk_res true (players_changed || players_changed2), w)
    else (mk_res true players_changed, w)
  else if String.eqb str2 "(formerly" && String.eqb str3 "known" && String.eqb str4 "as" then
    let '(ss, str2) := IStream.get_string ss str2 in
    let '(ss, str2) := IStream.get_string ss str2 in
    let '(ss, str3) := IStream.get_string ss str3 in
    let '(ss, str4) := IStream.get_string ss str4 in
    if IStream.eofbit ss && String.eqb str2 "joined" && String.eqb str3 "the"
       && String.eqb str4 "game"
    then (mk_res true true, player_joined cur_time str1 w)
    else (mk_res true players_changed, w)
  else (mk_res true players_changed, w).

(** Lines 354-365: the source tag [[...]:] and the flush asked for by
    [clear_before]. [rest] is what [from_stream] left unread. *)
Definition parse_tagged (rest : string) (cur_time : Z) (w : world) (clear_before : bool)
    : line_parse_results * world :=
  let ss := IStream.of_string rest in
  let '(ss, c) := IStream.get_char ss "000"%char in
  if negb (Ascii.eqb c "[") || negb (IStream.good ss) then (mk_res false false, w)
  else
  let ss := IStream.ignore ss "]" in
  let '(ss, c) := IStream.get_char_noskipws ss c in
  if negb (Ascii.eqb c ":") || negb (IStream.good ss) then (mk_res false false, w)
  else
  let '(players_changed, w) :=
    if clear_before then clear_all_players true w cur_time else (false, w) in
  parse_message ss cur_time players_changed w.

(** [parse_line<strip_ending_cr>(line, ctx, data, clear_before)] *)
Definition parse_line (io : chrono_io) (strip_ending_cr : bool) (line : string)
    (w : world) (clear_before : bool) : line_parse_results * world :=
  let line := if strip_ending_cr then strip_cr line else line in
  match from_stream_hms io line with
  | None => (mk_res false false, w)
  | Some (time_offset, rest) =>
      parse_tagged rest (date_tp (w_ctx w) + time_offset) w clear_before
  end.

(** The pieces [parse_lines] cuts its argument into: the text before the
    first newline, and the pieces of what follows it. The last piece runs to
    the end of the string. *)
Fixpoint split_newline (s : string) : string * list string :=
  match s with
  | EmptyString => (EmptyString, [])
  | String c s' =>
      let '(p, ps) := split_newline s' in
      if Ascii.eqb c "010" then (EmptyString, p :: ps) else (String c p, ps)
  end.

Definition pieces (s : string) : list string :=
  let '(p, ps) := split_newline s in p :: ps.

(** One turn of the loop of [parse_lines]. *)
Definition parse_lines_step (io : chrono_io) (acc : bool * world) (piece : string)
    : bool * world :=
  let '(r, w') := parse_line io true piece acc.2 false in
  (acc.1 || player_join_left r, w').

(** [parse_lines(lines, ctx, data)]: every piece goes through [parse_line]
    with the default template argument and [clear_before = false]; returns
    whether players have joined or left. *)
Definition parse_lines (io : chrono_io) (lines : string) (w : world) : bool * world :=
  foldl (parse_lines_step io) (false, w) (pieces lines).

(** ** A concrete reader for the two date formats *)

Module Chrono.

Definition digit_val (c : ascii) : Z := Z.of_N (N_of_ascii c) - 48.

(** Up to two decimal digits, at least one. *)
Definition read_2digits (s : string) : option (Z * string) :=
  match s with
  | String a (String b r) =>
      if IStream.is_digit a then
        if IStream.is_digit b then Some (10 * digit_val a + digit_val b, r)
        else Some (digit_val a, String b r)
      else None
  | String a EmptyString =>
      if IStream.is_digit a then Some (digit_val a, EmptyString) else None
  | EmptyString => None
  end.

Definition expect (c : ascii) (s : string) : option string :=
  match s with
  | String a r => if Ascii.eqb a c then Some r else None
  | EmptyString => None
  end.

(** [[%2H:%2M:%2S]] with whole seconds; the result counts seconds. *)
Definition hms (s : string) : option (Z * string) :=
  s ← expect "[" s;
  '(h, s) ← read_2digits s;
  s ← expect ":" s;
  '(m, s) ← read_2digits s;
  s ← expect ":" s;
  '(sec, s) ← read_2digits s;
  s ← expect "]" s;
  if (h <=? 23) && (m <=? 59) && (sec <=? 59)
  then Some (h * 3600 + m * 60 + sec, s) else None.

(** Days from 1970-01-01 of a civil date (proleptic Gregorian calendar). *)
Definition days_from_civil (y m d : Z) : Z :=
  let y := if m <=? 2 then y - 1 else y in
  let era := y / 400 in
  let yoe := y - era * 400 in
  let doy := (153 * (if 2 <? m then m - 3 else m + 9) + 2) / 5 + d - 1 in
  let doe := yoe * 365 + yoe / 4 - yoe / 100 + doy in
  era * 146097 + doe - 719468.

Definition read_4digits (s : string) : option (Z * string) :=
  match s with
  | String a (String b (String c (String d r))) =>
      if IStream.is_digit a && IStream.is_digit b && IStream.is_digit c
         && IStream.is_digit d
      then Some (1000 * digit_val a + 100 * digit_val b + 10 * digit_val c + digit_val d, r)
      else None
  | _ => None
  end.

(** [%4Y-%2m-%2d] at the head of a file name, as midnight UTC in seconds. *)
Definition ymd (s : string) : option Z :=
  '(y, s) ← read_4digits s;
  s ← expect "-" s;
  '(m, s) ← read_2digits s;
  s ← expect "-" s;
  '(d, s) ← read_2digits s;
  if (1 <=? m) && (m <=? 12) && (1 <=? d) && (d <=? 31)
  then Some (days_from_civil y m d * 86400) else None.

Definition io : chrono_io := {| from_stream_hms := hms; from_stream_ymd := ymd |}.

End Chrono.

(** ** The file enumerator (lines 528-568 of [parse_logs]) *)

Module Enumerator.

Record dir_entry := mk_entry { de_name : string; de_regular : bool }.

(** The suffix of [s] that starts at its rightmost period. *)
Fixpoint from_last_dot (s : string) : option string :=
  match s with
  | EmptyString => None
  | String c s' =>
      match from_last_dot s' with
      | Some e => Some e
      | None => if Ascii.eqb c "." then Some s else None
      end
  end.

(** [std::filesystem::path::extension] of a file name: from the rightmost
    period on; empty for [.], [..] and when the only period leads the
    name. *)
Definition extension (name : string) : string :=
  if String.eqb name "." || String.eqb name ".." then ""
  else match name with
       | String c s' =>
           if Ascii.eqb c "." then default "" (from_last_dot s')
           else default "" (from_last_dot name)
       | EmptyString => ""
       end.

Fixpoint skip_chars (n : nat) (s : string) : string :=
  match n, s with
  | S n', String _ s' => skip_chars n' s'
  | _, _ => s
  end.

(** [while (is_digit(p_str[ind])) ind++], as what is left behind [ind]. *)
Fixpoint drop_digits (s : string) : string :=
  match s with
  | String c s' => if IStream.is_digit c then drop_digits s' else s
  | EmptyString => EmptyString
  end.

(** The predicate handed to [std::erase_if]: true drops the path. Reading
    [p_str[i]] at [i = size] gives the terminator ['\0'], which is what
    [char_at] returns. *)
Definition bad_log_name (skip_latest_log : bool) (p : string * bool) : bool :=
  let '(p_str, is_gz) := p in
  if negb skip_latest_log && String.eqb p_str "latest.log" then false
  else if negb (forallb (fun i => IStream.is_digit (char_at p_str i))
                        [0; 1; 2; 3; 5; 6; 8; 9; 11]%nat) then true
  else if negb (forallb (fun i => Ascii.eqb (char_at p_str i) "-") [4; 7; 10]%nat) then true
  else negb (String.eqb (drop_digits (skip_chars 12 p_str))
                        (if is_gz then ".log.gz" else ".log")).

(** Lines 528-537: regular files whose extension is [.gz] or [.log], with
    the flag telling which. *)
Definition candidates (entries : list dir_entry) : list (string * bool) :=
  omap (fun e =>
          if de_regular e then
            let ext := extension (de_name e) in
            if String.eqb ext ".gz" || String.eqb ext ".log"
            then Some (de_name e, String.eqb ext ".gz")
            else None
          else None) entries.

(** The paths left in [read_ctx.paths] after [std::erase_if]. *)
Definition enumerate (skip_latest_log : bool) (entries : list dir_entry)
    : list (string * bool) :=
  filter (fun p => bad_log_name skip_latest_log p = false) (candidates entries).

End Enumerator.

(** ** The backfill driver (lines 612-661 of [parse_logs]) *)

Module Backfill.

(** A path of [read_ctx.paths] with what the file system gives for it:
    [lf_mdate] is [file_modification_date], [lf_body] the text of the file
    (after decompression for a [.gz]), [None] when libdeflate fails or the
    file cannot be opened. *)
Record log_file := mk_file {
  lf_name : string;
  lf_gz : bool;
  lf_mdate : Z;
  lf_body : option string
}.

(** What successive [std::getline] calls return before the stream fails. *)
Definition getlines (text : string) : list string :=
  let '(p, ps) := split_newline text in
  match last (p :: ps) with
  | Some EmptyString => removelast (p :: ps)
  | _ => p :: ps
  end.

Record file_read_ctx_t := mk_rc {
  fin : option (list string);   (* lines not yet read; [None]: null or failed *)
  paths : list log_file;
  path_ind : nat;
  rc_date_tp : Z;
  rc_line : nat
}.

(** The tail of [get_next_line]: [getline], count, skip empty lines. *)
Fixpoint next_nonempty (pending : list string) (n : nat) : option (string * list string) * nat :=
  match pending with
  | [] => (None, S n)
  | s :: rest =>
      match s with
      | EmptyString => next_nonempty rest (S n)
      | _ => (Some (s, rest), S n)
      end
  end.

(** The lines that [getline] can still return: those of the open stream and
    those of the files that are not opened yet. *)
Definition lines_in (f : log_file) : nat :=
  match lf_body f with
  | Some text => length (getlines text)
  | None => 0
  end.

Definition unread_files (files : list log_file) : nat :=
  foldr (fun f n => (lines_in f + n)%nat) 0%nat files.

Definition unread (rc : file_read_ctx_t) : nat :=
  (match fin rc with Some pending => length pending | None => 0 end
   + unread_files (drop (path_ind rc) (paths rc)))%nat.

Section WithIO.
Variable io : chrono_io.
Variable skip_latest_log : bool.

(** The head of [get_next_line] when the stream is null or failed: open
    the paths in turn. [rest] is [paths] from [path_ind] on. *)
Fixpoint open_next (rest : list log_file) (rc : file_read_ctx_t) (out : list message)
    : (string * bool) * file_read_ctx_t * list message :=
  match rest with
  | [] => (("", false), rc, out)
  | f :: rest' =>
      let rc := {| fin := None; paths := paths rc; path_ind := S (path_ind rc);
                   rc_date_tp := rc_date_tp rc; rc_line := 0 |} in
      let date :=
        if negb skip_latest_log && String.eqb (lf_name f) "latest.log"
        then Some (lf_mdate f)
        else from_stream_ymd io (lf_name f) in
      match date with
      | None => open_next rest' rc (out ++ [WarnFileName (lf_name f)])
      | Some d =>
          let rc := {| fin := None; paths := paths rc; path_ind := path_ind rc;
                       rc_date_tp := d; rc_line := 0 |} in
          match lf_body f with
          | None =>
              if lf_gz f then open_next rest' rc (out ++ [ErrDecompress (lf_name f)])
              else
                (* the stream failed to open: the nested call moves on *)
                let '((s, _), rc', out') := open_next rest' rc out in
                ((s, true), rc', out')
          | Some text =>
              match next_nonempty (getlines text) 0 with
              | (Some (s, pending'), n) =>
                  ((s, true),
                   {| fin := Some pending'; paths := paths rc; path_ind := path_ind rc;
                      rc_date_tp := d; rc_line := n |}, out)
              | (None, n) =>
                  let '((s, _), rc', out') :=
                    open_next rest'
                      {| fin := None; paths := paths rc; path_ind := path_ind rc;
                         rc_date_tp := d; rc_line := n |} out in
                  ((s, true), rc', out')
              end
          end
      end
  end.

(** [detail::get_next_line<skip_latest_log>] *)
Definition get_next_line (rc : file_read_ctx_t) (out : list message)
    : (string * bool) * file_read_ctx_t * list message :=
  match fin rc with
  | Some pending =>
      match next_nonempty pending (rc_line rc) with
      | (Some (s, pending'), n) =>
          ((s, false),
           {| fin := Some pending'; paths := paths rc; path_ind := path_ind rc;
              rc_date_tp := rc_date_tp rc; rc_line := n |}, out)
      | (None, n) =>
          open_next (drop (path_ind rc) (paths rc))
            {| fin := None; paths := paths rc; path_ind := path_ind rc;
               rc_date_tp := rc_date_tp rc; rc_line := n |} out
      end
  | None => open_next (drop (path_ind rc) (paths rc)) rc out
  end.

Definition path_at (rc : file_read_ctx_t) (i : nat) : list (string * bool) :=
  match paths rc !! i with
  | Some f => [(lf_name f, lf_gz f)]
  | None => []
  end.

Record loop_state := mk_loop {
  ls_rc : file_read_ctx_t;
  ls_world : world;
  ls_clear_before : bool;
  ls_last_tp : Z;
  ls_read_files : list (string * bool)   (* arguments of [read_file_cb] *)
}.

(** The [while (true)] loop of [parse_logs]; [None] when [fuel] runs out. *)
Fixpoint parse_logs_loop (fuel : nat) (st : loop_state) : option loop_state :=
  match fuel with
  | O => None
  | S fuel' =>
      let '((s, file_is_new), rc, out) :=
        get_next_line (ls_rc st) (w_out (ls_world st)) in
      match s with
      | EmptyString =>
          Some {| ls_rc := rc;
                  ls_world := {| w_ctx := w_ctx (ls_world st);
                                 w_data := w_data (ls_world st); w_out := out |};
                  ls_clear_before := ls_clear_before st;
                  ls_last_tp := ls_last_tp st;
                  ls_read_files :=
                    ls_read_files st ++
                    match paths rc with
                    | [] => []
                    | _ => path_at rc (path_ind rc - 1)
                    end |}
      | _ =>
          let ctx := w_ctx (ls_world st) in
          let ctx :=
            if file_is_new then
              {| cur_filename :=
                   match paths rc !! (path_ind rc - 1)%nat with
                   | Some f => lf_name f
                   | None => ""
                   end;
                 date_tp := rc_date_tp rc; line := line ctx;
                 player_info := player_info ctx;
                 server_stopped := server_stopped ctx |}
            else ctx in
          let clear_before :=
            if file_is_new && (date_tp ctx =? ls_last_tp st) then true
            else ls_clear_before st in
          let last_tp := if file_is_new then date_tp ctx else ls_last_tp st in
          let ctx := {| cur_filename := cur_filename ctx; date_tp := date_tp ctx;
                        line := rc_line rc; player_info := player_info ctx;
                        server_stopped := server_stopped ctx |} in
          let '(r, w) :=
            parse_line io true s
              {| w_ctx := ctx; w_data := w_data (ls_world st); w_out := out |}
              clear_before in
          parse_logs_loop fuel'
            {| ls_rc := rc; ls_world := w;
               ls_clear_before := if read_valid_line r then false else clear_before;
               ls_last_tp := last_tp;
               ls_read_files :=
                 ls_read_files st ++
                 if file_is_new && (1 <? path_ind rc)%nat
                 then path_at rc (path_ind rc - 2) else [] |}
      end
  end.

(** Every turn of the loop but the last reads one line of some file. *)
Definition loop_bound (files : list log_file) : nat := S (unread_files files).

(** [parse_logs<skip_latest_log, save_ctx>] from line 612 on, for the
    vector [files] that listing, filtering, sorting and duplicate removal
    left in [read_ctx.paths]. [now] is [system_clock::now()]. The result
    holds the store, the context (kept only when [save_ctx]) and the
    arguments the completion callback was called with. *)
Definition parse_logs (save_ctx : bool) (files : list log_file) (now : Z)
    : option (world * list (string * bool)) :=
  st ← parse_logs_loop (loop_bound files)
         {| ls_rc := {| fin := None; paths := files; path_ind := 0;
                        rc_date_tp := 0; rc_line := 0 |};
            ls_world := {| w_ctx := empty_ctx; w_data := ∅; w_out := [] |};
            ls_clear_before := false;
            ls_last_tp := 0;
            ls_read_files := [] |};
  if save_ctx then Some (ls_world st, ls_read_files st)
  else Some ((clear_all_players false (ls_world st) now).2, ls_read_files st).

End WithIO.

End Backfill.

(** ** The change watcher, Linux back end ([file_watcher.c]) *)

Module Watcher.

(** Event bits of [<sys/inotify.h>]. *)
Definition IN_MODIFY : N := 0x2.
Definition IN_MOVED_FROM : N := 0x40.
Definition IN_MOVED_TO : N := 0x80.
Definition IN_CREATE : N := 0x100.

(** [struct inotify_event]: [name] is the text of the name field up to its
    first NUL, [len] the size of that field with its padding. *)
Record inotify_event := mk_event {
  mask : N;
  cookie : N;
  len : nat;
  name : string
}.

(** [struct file_watcher_ctx]; [read_data] holds the events of the buffer
    that are not consumed yet, so that
    [read_data_consumed_size >= read_data_size] is [read_data = []]. The
    descriptors play no part in what [file_watcher_poll] computes. *)
Record file_watcher_ctx := mk_wctx {
  has_value : bool;
  pending_cookie : N;
  filename : string;
  filename_size : nat;
  read_data : list inotify_event
}.

Record file_watcher_result := mk_wres {
  state : Z;
  event_create : bool;
  event_create_moved : bool;
  event_modify : bool;
  moved_to : option string
}.

Definition only_state (s : Z) : file_watcher_result :=
  {| state := s; event_create := false; event_create_moved := false;
     event_modify := false; moved_to := None |}.

(** What [epoll_wait] and [read] give to [read_more_events]. *)
Inductive os_response :=
| OsError
| OsNothing
| OsEvents (e : inotify_event) (es : list inotify_event).

Definition has_bit (m bit : N) : bool := negb (N.land m bit =? 0)%N.

Definition set_cookie (c : N) (ctx : file_watcher_ctx) : file_watcher_ctx :=
  {| has_value := has_value ctx; pending_cookie := c; filename := filename ctx;
     filename_size := filename_size ctx; read_data := read_data ctx |}.

Definition set_read_data (d : list inotify_event) (ctx : file_watcher_ctx)
    : file_watcher_ctx :=
  {| has_value := has_value ctx; pending_cookie := pending_cookie ctx;
     filename := filename ctx; filename_size := filename_size ctx; read_data := d |}.

(** [event->len > ctx->filename_size &&
     strncmp(event->name, ctx->filename, ctx->filename_size) == 0] *)
Definition strs_eq (ctx : file_watcher_ctx) (event : inotify_event) : bool :=
  (filename_size ctx <? len event)%nat
  && String.eqb (substring 0 (filename_size ctx) (name event))
                (substring 0 (filename_size ctx) (filename ctx)).

(** Lines 141-186 of [file_watcher_poll]: the event taken from the buffer.
    [alloc_ok] tells whether [strndup] succeeds. *)
Definition handle_event (alloc_ok : bool) (ctx : file_watcher_ctx) (event : inotify_event)
    : file_watcher_ctx * file_watcher_result :=
  if has_bit (mask event) IN_MOVED_TO && negb (pending_cookie ctx =? 0)%N
     && (pending_cookie ctx =? cookie event)%N
  then
    let ctx := set_cookie 0 ctx in
    if alloc_ok then
      (ctx, {| state := 1; event_create := false; event_create_moved := false;
               event_modify := false; moved_to := Some (name event) |})
    else (ctx, only_state (-1))
  else if negb (strs_eq ctx event) then (ctx, only_state 2)
  else if has_bit (mask event) IN_MOVED_FROM then
    (set_cookie (cookie event) ctx, only_state 2)
  else
    let ctx := set_cookie 0 ctx in
    let created := has_bit (mask event) IN_CREATE in
    let created_moved := has_bit (mask event) IN_MOVED_TO in
    let modified := has_bit (mask event) IN_MODIFY in
    if negb created && negb created_moved && negb modified then (ctx, only_state 2)
    else (ctx, {| state := 1; event_create := created;
                  event_create_moved := created_moved; event_modify := modified;
                  moved_to := None |}).

(** [file_watcher_poll]; [os] is consulted only when the buffer is used
    up. *)
Definition file_watcher_poll (os : os_response) (alloc_ok : bool) (ctx : file_watcher_ctx)
    : file_watcher_ctx * file_watcher_result :=
  if negb (has_value ctx) then (ctx, only_state (-1))
  else
    match read_data ctx with
    | event :: rest => handle_event alloc_ok (set_read_data rest ctx) event
    | [] =>
        match os with
        | OsError => (ctx, only_state (-1))
        | OsNothing => (ctx, only_state 0)
        | OsEvents event rest => handle_event alloc_ok (set_read_data rest ctx) event
        end
    end.

(** [file_watcher_init] when every system call succeeds. *)
Definition file_watcher_init (file : string) : file_watcher_ctx :=
  {| has_value := true; pending_cookie := 0; filename := file;
     filename_size := String.length file; read_data := [] |}.

End Watcher.

(** ** Vocabulary of the specification *)

(** The sessions and the total recorded for an identity; an identity that is
    not in the store has none. *)
Definition sessions_of (data : log_data_t) (u : uuid_t) : list play_session :=
  (default empty_entry (data !! u)).2.1.

Definition sum_durations (l : list play_session) : Z :=
  foldr (fun s acc => s.2 + acc) 0 l.

(** [total == sum(sessions[i].duration)] for every identity of the store. *)
Definition store_ok (data : log_data_t) : Prop :=
  ∀ u e, data !! u = Some e → e.2.2 = sum_durations e.2.1.

(** What [clear_all_players] does to one entry of the online map. *)
Definition clear_info (info : single_player_info) : single_player_info :=
  match uuid info, join_time info with
  | Some u, Some _ => {| uuid := Some u; join_time := None |}
  | _, _ => info
  end.

(** A player name as the tokenizer reads it: not empty, no white space. *)
Fixpoint no_space (s : string) : bool :=
  match s with
  | EmptyString => true
  | String c s' => negb (IStream.is_space c) && no_space s'
  end.

Definition is_token (s : string) : bool :=
  match s with
  | EmptyString => false
  | _ => no_space s
  end.

Fixpoint no_char (c : ascii) (s : string) : bool :=
  match s with
  | EmptyString => true
  | String a s' => negb (Ascii.eqb a c) && no_char c s'
  end.

(** The text behind the timestamp of a log line: source tag, colon, message. *)
Definition tagged (tag msg : string) : string :=
  " [" +:+ tag +:+ "]: " +:+ msg.

(** The operations that reach the context and the store. *)
Inductive op :=
| OpParseLine (strip_ending_cr : bool) (text : string) (clear_before : bool)
| OpParseLines (text : string)
| OpClearAll (file_start_warn : bool) (leave_time : Z)
| OpSetFile (name : string) (date : Z) (line_no : nat).

Definition run_op (io : chrono_io) (w : world) (o : op) : world :=
  match o with
  | OpParseLine b text cb => (parse_line io b text w cb).2
  | OpParseLines text => (parse_lines io text w).2
  | OpClearAll warn t => (clear_all_players warn w t).2
  | OpSetFile name date n =>
      {| w_ctx := {| cur_filename := name; date_tp := date; line := n;
                     player_info := player_info (w_ctx w);
                     server_stopped := server_stopped (w_ctx w) |};
         w_data := w_data w; w_out := w_out w |}
  end.

Definition run (io : chrono_io) (ops : list op) (w : world) : world :=
  foldl (run_op io) w ops.

(** Batch feeding: one [parse_line] call per line. *)
Definition feed_lines (io : chrono_io) (ls : list string) (w : world) : world :=
  foldl (fun w l => (parse_line io true l w false).2) w ls.

(** Incremental feeding: one [parse_lines] call per chunk. *)
Definition feed_chunks (io : chrono_io) (chunks : list string) (w : world) : world :=
  foldl (fun w c => (parse_lines io c w).2) w chunks.

Definition newline : string := String "010"%char EmptyString.

(** The text of a group of whole lines, each with its newline. *)
Fixpoint chunk_of (group : list string) : string :=
  match group with
  | [] => EmptyString
  | l :: rest => l +:+ newline +:+ chunk_of rest
  end.

(** The store [data'] extends [data] by sessions closed at instant [t]: each
    new session starts at a join instant that the online map [pi] holds for
    that identity, and lasts [t] minus that instant. *)
Definition closed_at (t : Z) (pi : player_map) (s : play_session) (u : uuid_t) : Prop :=
  s.2 = t - s.1 ∧
  ∃ name info, pi !! name = Some info ∧ uuid info = Some u ∧ join_time info = Some s.1.

Definition appended_at (t : Z) (pi : player_map) (data data' : log_data_t) : Prop :=
  ∀ u, ∃ new, sessions_of data' u = sessions_of data u ++ new
              ∧ Forall (fun s => closed_at t pi s u) new.

(** The seven ways in which the message of a line acts on the world. *)
Inductive message_effect (t : Z) (w : world) : world → Prop :=
| eff_none : message_effect t w w
| eff_put m : message_effect t w (put m w)
| eff_stop : message_effect t w (stop_server (clear_all_players false w t).2)
| eff_start : message_effect t w (start_server w)
| eff_uuid name u : message_effect t w (set_uuid name u w)
| eff_joined name : message_effect t w (player_joined t name w)
| eff_left name : message_effect t w (player_left t name w).2.

(** The world in which the message of a line is interpreted. *)
Definition flushed_before (clear_before : bool) (w : world) (t : Z) : bool * world :=
  if clear_before then clear_all_players true w t else (false, w).

(** The name shapes of the enumerator, in the words of the specification. *)
Fixpoint all_digits (s : string) : bool :=
  match s with
  | EmptyString => true
  | String c s' => IStream.is_digit c && all_digits s'
  end.

(** [YYYY-MM-DD]: ten characters, digits around two dashes. *)
Definition date_shape (d : string) : bool :=
  match d with
  | String y1 (String y2 (String y3 (String y4 (String s1 (String m1 (String m2
      (String s2 (String d1 (String d2 EmptyString))))))))) =>
      IStream.is_digit y1 && IStream.is_digit y2 && IStream.is_digit y3
      && IStream.is_digit y4 && Ascii.eqb s1 "-" && IStream.is_digit m1
      && IStream.is_digit m2 && Ascii.eqb s2 "-" && IStream.is_digit d1
      && IStream.is_digit d2
  | _ => false
  end.

(** [YYYY-MM-DD-N.log] or [YYYY-MM-DD-N.log.gz], with a sequence number [N]
    of at least one digit. *)
Definition dated_name (name : string) : Prop :=
  ∃ date seq ext,
    name = date +:+ "-" +:+ seq +:+ ext
    ∧ date_shape date = true
    ∧ seq ≠ EmptyString ∧ all_digits seq = true
    ∧ (ext = ".log" ∨ ext = ".log.gz").

(** The event is the renamed-to half that matches the pending cookie. *)
Definition matches_pending (ctx : Watcher.file_watcher_ctx) (e : Watcher.inotify_event)
    : bool :=
  Watcher.has_bit (Watcher.mask e) Watcher.IN_MOVED_TO
  && negb (Watcher.pending_cookie ctx =? 0)%N
  && (Watcher.pending_cookie ctx =? Watcher.cookie e)%N.

(** The event that a call of [file_watcher_poll] handles, if any: the next
    one of the buffer, or the first one the system delivers when the buffer
    is used up. *)
Definition next_event (os : Watcher.os_response) (ctx : Watcher.file_watcher_ctx)
    : option Watcher.inotify_event :=
  if Watcher.has_value ctx then
    match Watcher.read_data ctx with
    | e :: _ => Some e
    | [] => match os with
            | Watcher.OsEvents e _ => Some e
            | _ => None
            end
    end
  else None.

(** ** Worked scenarios *)

Module Scenario.

Definition alice_uuid : uuid_t := (18364758544493064720%N, 18364758544493064720%N).

Definition uuid_line : string :=
  "[09:59:00] [User Authenticator #1/INFO]: UUID of player Alice is 01234567-89ab-cdef-0123-456789abcdef".
Definition join_line : string := "[10:00:00] [Server thread/INFO]: Alice joined the game".
Definition leave_line : string := "[11:00:00] [Server thread/INFO]: Alice left the game".
Definition stop_line : string := "[12:00:00] [Server thread/INFO]: Stopping server".
Definition start_line : string :=
  "[09:00:00] [Server thread/INFO]: Starting minecraft server version 1.20.1".

Definition ctx_with (pi : player_map) (stopped : bool) : parse_ctx_t :=
  {| cur_filename := "latest.log"; date_tp := 0; line := 0%nat; player_info := pi;
     server_stopped := stopped |}.

Definition world_with (pi : player_map) (stopped : bool) : world :=
  {| w_ctx := ctx_with pi stopped; w_data := ∅; w_out := [] |}.

(** Alice's identity is on file and she is offline. *)
Definition alice_known : player_map :=
  {[ "Alice" := {| uuid := Some alice_uuid; join_time := None |} ]}.

(** Bob joined without a UUID message: a join instant and no identity. *)
Definition bob_anonymous : player_map :=
  {[ "Bob" := {| uuid := None; join_time := Some 36000 |} ]}.

(** A join shortly before midnight and a leave shortly after it, in one
    file: both lines are read against the same day baseline. *)
Definition late_join_line : string :=
  "[23:59:00] [Server thread/INFO]: Alice joined the game".
Definition early_leave_line : string :=
  "[00:01:00] [Server thread/INFO]: Alice left the game".

(** The rotation of the specification: an open join at 10:00:00 in the
    first file of the day, a second file of the same day whose first line
    is stamped 09:00:00. *)
Definition first_file : Backfill.log_file :=
  {| Backfill.lf_name := "2024-01-01-1.log"; Backfill.lf_gz := false;
     Backfill.lf_mdate := 0;
     Backfill.lf_body := Some (chunk_of [uuid_line; join_line]) |}.
Definition second_file : Backfill.log_file :=
  {| Backfill.lf_name := "2024-01-01-2.log"; Backfill.lf_gz := false;
     Backfill.lf_mdate := 0;
     Backfill.lf_body := Some (chunk_of [start_line]) |}.

(** Midnight of 2024-01-01, UTC. *)
Definition day1 : Z := Chrono.days_from_civil 2024 1 1 * 86400.

(** A rename of the watched file whose two halves are separated by an
    event on another file. *)
Definition ev_moved_from : Watcher.inotify_event :=
  {| Watcher.mask := Watcher.IN_MOVED_FROM; Watcher.cookie := 7;
     Watcher.len := 16; Watcher.name := "latest.log" |}.
Definition ev_other_file : Watcher.inotify_event :=
  {| Watcher.mask := Watcher.IN_MODIFY; Watcher.cookie := 0;
     Watcher.len := 16; Watcher.name := "usercache.json" |}.
Definition ev_moved_to : Watcher.inotify_event :=
  {| Watcher.mask := Watcher.IN_MOVED_TO; Watcher.cookie := 7;
     Watcher.len := 32; Watcher.name := "2024-01-01-1.log" |}.

Definition poll_event (e : Watcher.inotify_event) (ctx : Watcher.file_watcher_ctx) :=
  Watcher.file_watcher_poll (Watcher.OsEvents e []) true ctx.

End Scenario.

(** * Further embedded code *)

(** ** Printing an identity ([std::formatter<uuid_t>::format]) *)

(** [hex_digits[n]] for [n < 16]. *)
Definition hex_digit (n : N) : ascii :=
  char_at "0123456789abcdef" (N.to_nat n).

(** [(x >> (i * 4)) & 0xF] *)
Definition nibble (x i : N) : N := N.land (N.shiftr x (i * 4)) 15.

(** The 36 characters that [format] writes: the digits of [first] from the
    lowest nibble up, then those of [second], dashes behind the digits 8,
    12, 16 and 20. *)
Definition format_uuid (u : uuid_t) : string :=
  string_of_list_ascii
    (map (fun i => hex_digit (nibble u.1 i)) [0; 1; 2; 3; 4; 5; 6; 7]%N
     ++ ["-"%char] ++ map (fun i => hex_digit (nibble u.1 i)) [8; 9; 10; 11]%N
     ++ ["-"%char] ++ map (fun i => hex_digit (nibble u.1 i)) [12; 13; 14; 15]%N
     ++ ["-"%char] ++ map (fun i => hex_digit (nibble u.2 i)) [0; 1; 2; 3]%N
     ++ ["-"%char]
     ++ map (fun i => hex_digit (nibble u.2 i)) [4; 5; 6; 7; 8; 9; 10; 11; 12; 13; 14; 15]%N).

(** The characters that [hex_digit_to_uint64] takes for a digit. *)
Definition is_hex (c : ascii) : bool :=
  let n := N_of_ascii c in
  ((48 <=? n) && (n <=? 57) || (97 <=? n) && (n <=? 102) || (65 <=? n) && (n <=? 70))%N.

(** [k] consecutive indices from [i] on. *)
Fixpoint index_run (i : N) (k : nat) : list N :=
  match k with
  | O => []
  | S k' => i :: index_run (i + 1) k'
  end.

(** The text [xxxxxxxx-xxxx-xxxx-xxxx-xxxxxxxxxxxx] of two runs of digits. *)
Definition uuid_layout (cs1 cs2 : list ascii) : string :=
  string_of_list_ascii
    (firstn 8 cs1 ++ ["-"%char] ++ firstn 4 (skipn 8 cs1) ++ ["-"%char] ++ skipn 12 cs1
     ++ ["-"%char] ++ firstn 4 cs2 ++ ["-"%char] ++ skipn 4 cs2).

(** ** The online count ([get_num_players] of [main.cpp]) *)

(** The loop of [get_num_players]: one more for every entry with a join
    instant. *)
Definition get_num_players (parse_ctx : parse_ctx_t) : nat :=
  map_fold (fun _ cur_info num_players =>
              match join_time cur_info with
              | Some _ => S num_players
              | None => num_players
              end) 0%nat (player_info parse_ctx).

(** The join instant on file for a name, if any. *)
Definition join_of (pi : player_map) (name : string) : option Z :=
  join_time (default empty_info (pi !! name)).

Definition uuid_of (pi : player_map) (name : string) : option uuid_t :=
  uuid (default empty_info (pi !! name)).

(** ** Shape of the store *)

Fixpoint no_adjacent_dup (l : list string) : bool :=
  match l with
  | a :: (b :: _) as rest => negb (String.eqb a b) && no_adjacent_dup rest
  | _ => true
  end.

(** An entry of the store holds at least one session and one name, no more
    names than sessions, and never the same name twice in a row. *)
Definition entry_wf (e : log_entry) : Prop :=
  e.1 ≠ [] ∧ no_adjacent_dup e.1 = true ∧ (0 < length e.1 <= length e.2.1)%nat.

Definition store_wf (data : log_data_t) : Prop :=
  ∀ u e, data !! u = Some e → entry_wf e.

(** The text of a message made of the given tokens, a blank before each. *)
Fixpoint join_tokens (tokens : list string) : string :=
  match tokens with
  | [] => EmptyString
  | t :: rest => String " " (t +:+ join_tokens rest)
  end.

(** ** Successive calls of [file_watcher_poll] *)

(** [n] calls in a row, as the loop of [main] makes them; [os] is what the
    system answers should a call ask it. The results come in the order of
    the calls. *)
Fixpoint poll_times (n : nat) (os : Watcher.os_response) (alloc_ok : bool)
    (ctx : Watcher.file_watcher_ctx)
    : Watcher.file_watcher_ctx * list Watcher.file_watcher_result :=
  match n with
  | O => (ctx, [])
  | S n =>
      let '(ctx, r) := Watcher.file_watcher_poll os alloc_ok ctx in
      let '(ctx, rs) := poll_times n os alloc_ok ctx in
      (ctx, r :: rs)
  end.

(** The result that reports a rename of the watched file to [new_name]. *)
Definition renamed_to (new_name : string) : Watcher.file_watcher_result :=
  {| Watcher.state := 1; Watcher.event_create := false;
     Watcher.event_create_moved := false; Watcher.event_modify := false;
     Watcher.moved_to := Some new_name |}.

(** The event names another file and is not the renamed-to half of
    cookie [c]. *)
Definition unrelated_to (ctx : Watcher.file_watcher_ctx) (c : N)
    (e : Watcher.inotify_event) : bool :=
  negb (Watcher.strs_eq ctx e)
  && negb (Watcher.has_bit (Watcher.mask e) Watcher.IN_MOVED_TO
           && (c =? Watcher.cookie e)%N).

(** ** The watcher of [file_watcher.cpp] (ReadDirectoryChangesW) *)

Module WinWatcher.

(** Values of [FILE_NOTIFY_INFORMATION::Action]. *)
Definition FILE_ACTION_ADDED : N := 1.
Definition FILE_ACTION_REMOVED : N := 2.
Definition FILE_ACTION_MODIFIED : N := 3.
Definition FILE_ACTION_RENAMED_OLD_NAME : N := 4.
Definition FILE_ACTION_RENAMED_NEW_NAME : N := 5.

(** [FILE_NOTIFY_INFORMATION]: [FileName] holds the [FileNameLength] bytes
    of the name; [NextEntryOffset] is the place of the entry in the list of
    the buffer. *)
Record notify_information := mk_info {
  Action : N;
  FileName : string
}.

(** [struct file_watcher_ctx]; [read_data] holds the entries of the buffer
    that are not read yet, so that [read_data_offset < read_data_size] is
    [read_data <> []]. The handle and the request play no part in what
    [file_watcher_poll] computes. *)
Record file_watcher_ctx := mk_wctx {
  has_value : bool;
  filename : string;
  notify_on_last_write : bool;
  has_cur_request : bool;
  moved : bool;
  read_data : list notify_information
}.

(** What [GetOverlappedResult] answers: the request is still pending
    ([ERROR_IO_INCOMPLETE]), it failed, or it has filled the buffer with at
    least one entry. *)
Inductive overlapped_result :=
| Incomplete
| Failed
| Transferred (info : notify_information) (rest : list notify_information).

(** The system at one call: whether [ReadDirectoryChangesW] succeeds, should
    it be called, and the answer of [GetOverlappedResult]. *)
Record os_response := mk_os {
  read_changes_ok : bool;
  overlapped : overlapped_result
}.

Definition set_moved (b : bool) (ctx : file_watcher_ctx) : file_watcher_ctx :=
  {| has_value := has_value ctx; filename := filename ctx;
     notify_on_last_write := notify_on_last_write ctx;
     has_cur_request := has_cur_request ctx; moved := b; read_data := read_data ctx |}.

Definition set_request (b : bool) (ctx : file_watcher_ctx) : file_watcher_ctx :=
  {| has_value := has_value ctx; filename := filename ctx;
     notify_on_last_write := notify_on_last_write ctx;
     has_cur_request := b; moved := moved ctx; read_data := read_data ctx |}.

Definition set_read_data (d : list notify_information) (ctx : file_watcher_ctx)
    : file_watcher_ctx :=
  {| has_value := has_value ctx; filename := filename ctx;
     notify_on_last_write := notify_on_last_write ctx;
     has_cur_request := has_cur_request ctx; moved := moved ctx; read_data := d |}.

(** [strs_eq = (old_sv != new_sv)]: true when the names differ. *)
Definition strs_eq (ctx : file_watcher_ctx) (info : notify_information) : bool :=
  negb (String.eqb (filename ctx) (FileName info)).

(** [file_watcher_read] on the entry taken from the buffer; [conv_ok] tells
    whether [WideCharToMultiByte] succeeds. *)
Definition file_watcher_read (conv_ok : bool) (ctx : file_watcher_ctx)
    (info : notify_information) : file_watcher_ctx * Watcher.file_watcher_result :=
  if (Action info =? FILE_ACTION_RENAMED_NEW_NAME)%N && moved ctx then
    if conv_ok then
      (ctx, {| Watcher.state := 1; Watcher.event_create := false;
               Watcher.event_create_moved := false; Watcher.event_modify := false;
               Watcher.moved_to := Some (FileName info) |})
    else (ctx, Watcher.only_state (-1))
  else
    let ctx := set_moved false ctx in
    if strs_eq ctx info then (ctx, Watcher.only_state 2)
    else if (Action info =? FILE_ACTION_RENAMED_OLD_NAME)%N then
      (set_moved true ctx, Watcher.only_state 2)
    else if (Action info =? FILE_ACTION_ADDED)%N then
      (ctx, {| Watcher.state := 1; Watcher.event_create := true;
               Watcher.event_create_moved := false; Watcher.event_modify := false;
               Watcher.moved_to := None |})
    else if (Action info =? FILE_ACTION_RENAMED_NEW_NAME)%N then
      (ctx, {| Watcher.state := 1; Watcher.event_create := false;
               Watcher.event_create_moved := true; Watcher.event_modify := false;
               Watcher.moved_to := None |})
    else if (Action info =? FILE_ACTION_MODIFIED)%N then
      (ctx, {| Watcher.state := 1; Watcher.event_create := false;
               Watcher.event_create_moved := false; Watcher.event_modify := true;
               Watcher.moved_to := None |})
    else (ctx, Watcher.only_state 2).

(** [file_watcher_poll]; the system is consulted only when the buffer is
    used up. *)
Definition file_watcher_poll (os : os_response) (conv_ok : bool) (ctx : file_watcher_ctx)
    : file_watcher_ctx * Watcher.file_watcher_result :=
  if negb (has_value ctx) then (ctx, Watcher.only_state (-1))
  else
    match read_data ctx with
    | info :: rest => file_watcher_read conv_ok (set_read_data rest ctx) info
    | [] =>
        if negb (has_cur_request ctx) && negb (read_changes_ok os)
        then (ctx, Watcher.only_state (-1))
        else
          let ctx := set_request true ctx in
          match overlapped os with
          | Incomplete => (ctx, Watcher.only_state 0)
          | Failed => (ctx, Watcher.only_state (-1))
          | Transferred info rest =>
              file_watcher_read conv_ok (set_read_data rest (set_request false ctx)) info
          end
    end.

(** [file_watcher_init] when every system call succeeds. *)
Definition file_watcher_init (file : string) (on_last_write : bool) : file_watcher_ctx :=
  {| has_value := true; filename := file; notify_on_last_write := on_last_write;
     has_cur_request := false; moved := false; read_data := [] |}.

(** [n] calls in a row; [os] is what the system answers should a call ask
    it. *)
Fixpoint poll_times (n : nat) (os : os_response) (conv_ok : bool) (ctx : file_watcher_ctx)
    : file_watcher_ctx * list Watcher.file_watcher_result :=
  match n with
  | O => (ctx, [])
  | S n =>
      let '(ctx, r) := file_watcher_poll os conv_ok ctx in
      let '(ctx, rs) := poll_times n os conv_ok ctx in
      (ctx, r :: rs)
  end.

End WinWatcher.

(** ** The order of the paths (the comparator handed to [std::ranges::sort]) *)

Module PathOrder.

(** [std::lexicographical_compare_three_way] on two ranges of characters. *)
Fixpoint lexicographical_compare_three_way (a b : list ascii) : comparison :=
  match a, b with
  | [], [] => Eq
  | [], _ :: _ => Lt
  | _ :: _, [] => Gt
  | x :: a', y :: b' =>
      match N.compare (N_of_ascii x) (N_of_ascii y) with
      | Eq => lexicographical_compare_three_way a' b'
      | c => c
      end
  end.

(** The digits that [s] starts with. *)
Fixpoint take_digits (s : string) : string :=
  match s with
  | String c s' => if IStream.is_digit c then String c (take_digits s') else EmptyString
  | EmptyString => EmptyString
  end.

(** The value of a string of decimal digits, read from the left. *)
Fixpoint decimal_from (acc : N) (s : string) : N :=
  match s with
  | String c s' => decimal_from (acc * 10 + (N_of_ascii c - 48)) s'
  | EmptyString => acc
  end.

Definition decimal (s : string) : N := decimal_from 0 s.

(** [std::from_chars] into an [unsigned int]: the digits the range starts
    with are read; without a digit, or with a value above [UINT_MAX], the
    variable is not written, and the comparator goes on with a variable that
    was never initialised: [None]. *)
Definition from_chars (range : string) : option N :=
  match take_digits range with
  | EmptyString => None
  | digits => if (decimal digits <? 2 ^ 32)%N then Some (decimal digits) else None
  end.

(** [lhs_num] of the comparator: [ind] starts at 12 and runs over the
    digits, the range read is [data() + 11, data() + ind). *)
Definition sequence_number (p_str : string) : option N :=
  let ind := (12 + String.length (take_digits (Enumerator.skip_chars 12 p_str)))%nat in
  from_chars (substring 11 (ind - 11) p_str).

(** The comparator of lines 570-599. The first ten characters are compared
    as they are; every path that the filter has kept has digits and dashes
    there. *)
Definition path_less (skip_latest_log : bool) (lhs_str rhs_str : string) : option bool :=
  if negb skip_latest_log && String.eqb lhs_str "latest.log" then Some false
  else if negb skip_latest_log && String.eqb rhs_str "latest.log" then Some true
  else
    match lexicographical_compare_three_way
            (list_ascii_of_string (substring 0 10 lhs_str))
            (list_ascii_of_string (substring 0 10 rhs_str)) with
    | Lt => Some true
    | Gt => Some false
    | Eq =>
        match sequence_number lhs_str, sequence_number rhs_str with
        | Some lhs_num, Some rhs_num => Some (lhs_num <? rhs_num)%N
        | _, _ => None
        end
    end.

(** [log_filename_no_ext]: the name without its last 4 or 7 characters. On
    a shorter name the size wraps around and [resize] throws: [None]. *)
Definition log_filename_no_ext (p : string * bool) : option string :=
  let n := if p.2 then 7%nat else 4%nat in
  if (n <=? String.length p.1)%nat
  then Some (substring 0 (String.length p.1 - n) p.1)
  else None.

(** [std::ranges::unique] with the projection [log_filename_no_ext], on
    paths that all have a base name: of every run of neighbours with the
    same base name the first one stays; one warning for every path that
    goes. *)
Fixpoint unique (paths : list (string * bool)) : list (string * bool) * list string :=
  match paths with
  | [] => ([], [])
  | p :: rest =>
      let '(kept, warned) := unique rest in
      match rest with
      | q :: _ =>
          if bool_decide (log_filename_no_ext p = log_filename_no_ext q)
          then (p :: tail kept, default EmptyString (log_filename_no_ext p) :: warned)
          else (p :: kept, warned)
      | [] => (p :: kept, warned)
      end
  end.

End PathOrder.

(** The day as a number, [yyyymmdd], of a date [YYYY-MM-DD]. *)
Definition day_number (date : string) : N :=
  (PathOrder.decimal (substring 0 4 date) * 10000
   + PathOrder.decimal (substring 5 2 date) * 100
   + PathOrder.decimal (substring 8 2 date))%N.

(** ** The files that the completion callback of [parse_logs] names *)

(** The file is opened and gives a line: its name yields a date (or it is
    [latest.log], dated by the file system), its text can be read, and it
    has a line that is not empty. *)
Definition gives_a_line (io : chrono_io) (skip_latest_log : bool) (f : Backfill.log_file)
    : bool :=
  match (if negb skip_latest_log && String.eqb (Backfill.lf_name f) "latest.log"
         then Some (Backfill.lf_mdate f)
         else from_stream_ymd io (Backfill.lf_name f)) with
  | None => false
  | Some _ =>
      match Backfill.lf_body f with
      | None => false
      | Some text =>
          match (Backfill.next_nonempty (Backfill.getlines text) 0).1 with
          | Some _ => true
          | None => false
          end
      end
  end.

(** The paths handed to the callback while the paths [rest] are gone
    through, [prev] being the path before them: the path before every file
    that gives a line, and at the end the last path of all. *)
Fixpoint reports_from (io : chrono_io) (skip_latest_log : bool)
    (prev : option Backfill.log_file) (rest : list Backfill.log_file)
    : list Backfill.log_file :=
  match rest with
  | [] => option_list prev
  | f :: rest' =>
      (if gives_a_line io skip_latest_log f then option_list prev else [])
      ++ reports_from io skip_latest_log (Some f) rest'
  end.

Definition path_of (f : Backfill.log_file) : string * bool :=
  (Backfill.lf_name f, Backfill.lf_gz f).

(** ** Following [latest.log] (the loop of [main]) *)

Module Tail.

(** What the file system shows of [latest.log] at one moment: the midnight
    of its modification date and its bytes. [None] stands for a file that
    does not exist. *)
Record latest_log := mk_latest { ll_mdate : Z; ll_bytes : string }.

(** The warnings of the loop. *)
Inductive notice :=
| WarnMovedTo
| WarnShrunk
| WarnExtension (moved_to : string).

(** The variables of [main] that the loop works on. [parse_data_ctx] comes
    with what the parser has printed; [presence] lists the player counts
    that [update_player_count] has shown. *)
Record main_state := mk_main {
  parse_data_ctx : world;
  persistent_data_ctx : log_data_t * parse_ctx_t;
  prev_size : nat;
  read_files : list string;
  last_player_count : nat;
  presence : list nat;
  notices : list notice
}.

Definition set_parse (w : world) (st : main_state) : main_state :=
  {| parse_data_ctx := w; persistent_data_ctx := persistent_data_ctx st;
     prev_size := prev_size st; read_files := read_files st;
     last_player_count := last_player_count st; presence := presence st;
     notices := notices st |}.

Definition set_prev_size (n : nat) (st : main_state) : main_state :=
  {| parse_data_ctx := parse_data_ctx st; persistent_data_ctx := persistent_data_ctx st;
     prev_size := n; read_files := read_files st;
     last_player_count := last_player_count st; presence := presence st;
     notices := notices st |}.

Definition add_notice (n : notice) (st : main_state) : main_state :=
  {| parse_data_ctx := parse_data_ctx st; persistent_data_ctx := persistent_data_ctx st;
     prev_size := prev_size st; read_files := read_files st;
     last_player_count := last_player_count st; presence := presence st;
     notices := notices st ++ [n] |}.

(** [std::filesystem::exists(latest_log) ? file_size(latest_log) : 0] *)
Definition size_of (latest : option latest_log) : nat :=
  match latest with
  | Some l => String.length (ll_bytes l)
  | None => 0%nat
  end.

Definition bytes_of (latest : option latest_log) : string :=
  match latest with
  | Some l => ll_bytes l
  | None => EmptyString
  end.

(** The lambda [update_date_tp]. *)
Definition update_date_tp (latest : option latest_log) (w : world) : world :=
  match latest with
  | Some l =>
      {| w_ctx := {| cur_filename := cur_filename (w_ctx w); date_tp := ll_mdate l;
                     line := line (w_ctx w); player_info := player_info (w_ctx w);
                     server_stopped := server_stopped (w_ctx w) |};
         w_data := w_data w; w_out := w_out w |}
  | None => w
  end.

(** [parse_data_ctx = persistent_data_ctx] *)
Definition restore (st : main_state) : main_state :=
  set_parse {| w_ctx := (persistent_data_ctx st).2; w_data := (persistent_data_ctx st).1;
               w_out := w_out (parse_data_ctx st) |} st.

(** [update_player_count] *)
Definition update_player_count (st : main_state) : main_state :=
  let new_player_count := get_num_players (w_ctx (parse_data_ctx st)) in
  if bool_decide (new_player_count = last_player_count st) then st
  else
    {| parse_data_ctx := parse_data_ctx st; persistent_data_ctx := persistent_data_ctx st;
       prev_size := prev_size st; read_files := read_files st;
       last_player_count := new_player_count;
       presence := presence st ++ [new_player_count];
       notices := notices st |}.

(** [moved_to.ends_with(suffix)] *)
Definition ends_with (suffix s : string) : bool :=
  (String.length suffix <=? String.length s)%nat
  && String.eqb (substring (String.length s - String.length suffix)
                   (String.length suffix) s) suffix.

Section WithIO.
Variable io : chrono_io.

(** Lines 415-419. *)
Definition on_create (latest : option latest_log) (st : main_state) : main_state :=
  set_prev_size 0 (set_parse (update_date_tp latest (parse_data_ctx st)) st).

(** Lines 421-443. *)
Definition on_create_moved (latest : option latest_log) (st : main_state) : main_state :=
  let size := size_of latest in
  let st := set_parse (update_date_tp latest (parse_data_ctx st)) st in
  let st :=
    if (0 <? size)%nat then
      let st := restore (add_notice WarnMovedTo st) in
      let st := set_parse (parse_lines io (bytes_of latest) (parse_data_ctx st)).2 st in
      update_player_count st
    else st in
  set_prev_size size st.

(** Lines 445-472. *)
Definition on_modify (latest : option latest_log) (st : main_state) : main_state :=
  let size := size_of latest in
  let '(st, do_update) :=
    if (size <? prev_size st)%nat
    then (restore (set_prev_size 0 (add_notice WarnShrunk st)), true)
    else (st, false) in
  let st :=
    if (0 <? size)%nat && (prev_size st <? size)%nat then
      let s := substring (prev_size st) (size - prev_size st) (bytes_of latest) in
      let '(changed, w) := parse_lines io s (parse_data_ctx st) in
      let st := set_parse w st in
      if changed || do_update then update_player_count st else st
    else st in
  set_prev_size size st.

(** Lines 474-490. *)
Definition on_moved_to (moved_to : string) (st : main_state) : main_state :=
  let st :=
    if ends_with ".log" moved_to then
      {| parse_data_ctx := parse_data_ctx st;
         persistent_data_ctx := (w_data (parse_data_ctx st), w_ctx (parse_data_ctx st));
         prev_size := prev_size st;
         read_files :=
           read_files st ++ [substring 0 (String.length moved_to - 4) moved_to];
         last_player_count := last_player_count st; presence := presence st;
         notices := notices st |}
    else add_notice (WarnExtension moved_to) st in
  set_prev_size 0 st.

(** The body of [if (res->state == file_watcher_state_t::data_read)]. *)
Definition handle_result (latest : option latest_log) (res : Watcher.file_watcher_result)
    (st : main_state) : main_state :=
  let st := if Watcher.event_create res then on_create latest st else st in
  let st := if Watcher.event_create_moved res then on_create_moved latest st else st in
  let st := if Watcher.event_modify res then on_modify latest st else st in
  match Watcher.moved_to res with
  | Some name => on_moved_to name st
  | None => st
  end.

(** One turn of [while (true)]: [None] when the loop is left (the poll has
    failed), the state after the turn otherwise. [latest] is what the file
    system shows during the turn. *)
Definition turn (latest : option latest_log) (res : Watcher.file_watcher_result)
    (st : main_state) : option main_state :=
  if (Watcher.state res =? 1) then Some (handle_result latest res st)
  else if (Watcher.state res =? 0) || (Watcher.state res =? 2) then Some st
  else None.

(** Lines 362-399: the state in which the loop is entered, from what
    [parse_logs<true, true>] has returned. *)
Definition startup (backfill : world) (files : list (string * bool))
    (latest : option latest_log) : option main_state :=
  names ← mapM PathOrder.log_filename_no_ext files;
  let w := update_date_tp latest backfill in
  let w := if (0 <? size_of latest)%nat then (parse_lines io (bytes_of latest) w).2 else w in
  Some (update_player_count
          {| parse_data_ctx := w;
             persistent_data_ctx := (w_data backfill, w_ctx backfill);
             prev_size := 0; read_files := names;
             last_player_count := 0; presence := []; notices := [] |}).

(** The turns of the loop for a list of results of state 1, each with the
    file system of its moment. *)
Definition handle_results (events : list (option latest_log * Watcher.file_watcher_result))
    (st : main_state) : main_state :=
  foldl (fun st e => handle_result e.1 e.2 st) st events.

End WithIO.

(** The result of a poll that reports a modification and nothing else. *)
Definition modified : Watcher.file_watcher_result :=
  {| Watcher.state := 1; Watcher.event_create := false;
     Watcher.event_create_moved := false; Watcher.event_modify := true;
     Watcher.moved_to := None |}.

(** The file grows by one group of whole lines at a time, and every growth
    is reported: the events, each with the bytes of the file then. *)
Fixpoint growth (mdate : Z) (bytes : string) (groups : list (list string))
    : list (option latest_log * Watcher.file_watcher_result) :=
  match groups with
  | [] => []
  | g :: rest =>
      (Some {| ll_mdate := mdate; ll_bytes := bytes +:+ chunk_of g |}, modified)
      :: growth mdate (bytes +:+ chunk_of g) rest
  end.

End Tail.

(** ** Growth of the store *)

(** The store [data'] holds everything that [data] holds: every identity of
    [data], with its sessions and its display names as they are in [data],
    possibly followed by more. *)
Definition extends (data data' : log_data_t) : Prop :=
  ∀ u,
    sessions_of data u `prefix_of` sessions_of data' u
    ∧ (default empty_entry (data !! u)).1 `prefix_of` (default empty_entry (data' !! u)).1
    ∧ (is_Some (data !! u) → is_Some (data' !! u)).

(** The store that the loop works on holds everything that the committed
    snapshot holds. *)
Definition in_view (st : Tail.main_state) : Prop :=
  extends (Tail.persistent_data_ctx st).1 (w_data (Tail.parse_data_ctx st)).

(** ** Players who are online when a graph is made ([create_graph] with a
    context, [playtime_graph.h]) *)

Module Graph.

(** [operator<=>] of [uuid_t], as [<]. *)
Definition uuid_less (a b : uuid_t) : bool :=
  (a.1 <? b.1)%N || ((a.1 =? b.1)%N && (a.2 <? b.2)%N).

(** [std::ranges::lower_bound(log_info, u, {}, key)], as an index: the
    first element whose key is not less than [u]; the length of the vector
    stands for [end()]. The vector is copied from a [std::map] and is sorted
    by key, where this is what the binary search finds. *)
Fixpoint lower_bound (log_info : list (uuid_t * log_entry)) (u : uuid_t) : nat :=
  match log_info with
  | [] => 0
  | elem :: rest => if uuid_less elem.1 u then S (lower_bound rest u) else 0
  end.

(** Lines 323-329: the name, the session up to [now] and the total. *)
Definition credit (cur_name : string) (join_time now : Z) (e : log_entry) : log_entry :=
  let '(names, (play_sessions, total_playtime)) := e in
  (if last_is names cur_name then names else names ++ [cur_name],
   (play_sessions ++ [(join_time, now - join_time)],
    total_playtime + (now - join_time))).

(** The body of the loop over [parse_ctx.player_info]; [None] when the
    exception is thrown. *)
Definition leave_now (now : Z) (log_info : list (uuid_t * log_entry))
    (cur : string * single_player_info) : option (list (uuid_t * log_entry)) :=
  match uuid cur.2, join_time cur.2 with
  | Some u, Some j =>
      let it := lower_bound log_info u in
      match log_info !! it with
      | None => None
      | Some (k, e) => Some (<[it := (k, credit cur.1 j now e)]> log_info)
      end
  | _, _ => Some log_info
  end.

(** The loop, over the entries of the online map in the order of the
    iteration. *)
Definition add_online (now : Z) (online : list (string * single_player_info))
    (log_info : list (uuid_t * log_entry)) : option (list (uuid_t * log_entry)) :=
  foldl (fun acc cur => acc ≫= fun l => leave_now now l cur) (Some log_info) online.

End Graph.

(** The vector is sorted by key, without duplicates. *)
Fixpoint sorted_by_key (log_info : list (uuid_t * log_entry)) : bool :=
  match log_info with
  | a :: (b :: _) as rest => Graph.uuid_less a.1 b.1 && sorted_by_key rest
  | _ => true
  end.

(** ** What has been printed *)

(** The world [w] with the messages [o] printed before those of [w]. *)
Definition with_out (o : list message) (w : world) : world :=
  {| w_ctx := w_ctx w; w_data := w_data w; w_out := o ++ w_out w |}.

(** ** The flush, in the words of the specification *)

(** From [w] to [w']: every entry of the online map that has an identity and
    a join instant is closed as leaving at [t] and has no join instant
    afterwards; the entries that still have one are those without identity,
    which are as they were. *)
Definition closes_online (t : Z) (w w' : world) : Prop :=
  (∀ name u j,
     player_info (w_ctx w) !! name = Some {| uuid := Some u; join_time := Some j |} →
     (j, t - j) ∈ sessions_of (w_data w') u
     ∧ player_info (w_ctx w') !! name = Some {| uuid := Some u; join_time := None |})
  ∧ (∀ name info,
       player_info (w_ctx w') !! name = Some info → is_Some (join_time info) →
       uuid info = None ∧ player_info (w_ctx w) !! name = Some info).

(** The checks of lines 354-361 of [parse_line] on what follows the
    timestamp: the source tag in brackets and the colon. *)
Definition well_tagged (rest : string) : bool :=
  let ss := IStream.of_string rest in
  let '(ss, c) := IStream.get_char ss "000"%char in
  if negb (Ascii.eqb c "[") || negb (IStream.good ss) then false
  else
    let ss := IStream.ignore ss "]" in
    let '(ss, c) := IStream.get_char_noskipws ss c in
    negb (negb (Ascii.eqb c ":") || negb (IStream.good ss)).

(** A recognized line: the timestamp is read and the tag is there. *)
Definition recognized (io : chrono_io) (text : string) : bool :=
  match from_stream_hms io (strip_cr text) with
  | Some (_, rest) => well_tagged rest
  | None => false
  end.

(** ** The backfill, file by file *)

(** [ctx.line = n] *)
Definition at_line (n : nat) (w : world) : world :=
  {| w_ctx := {| cur_filename := cur_filename (w_ctx w); date_tp := date_tp (w_ctx w);
                 line := n; player_info := player_info (w_ctx w);
                 server_stopped := server_stopped (w_ctx w) |};
     w_data := w_data w; w_out := w_out w |}.

(** [ctx.cur_filename = name; ctx.date_tp = d] *)
Definition in_file (name : string) (d : Z) (w : world) : world :=
  {| w_ctx := {| cur_filename := name; date_tp := d; line := line (w_ctx w);
                 player_info := player_info (w_ctx w);
                 server_stopped := server_stopped (w_ctx w) |};
     w_data := w_data w; w_out := w_out w |}.

(** The lines of a file that are not empty, each with its number; [n] lines
    have been read before. *)
Fixpoint numbered (lines : list string) (n : nat) : list (nat * string) :=
  match lines with
  | [] => []
  | EmptyString :: rest => numbered rest (S n)
  | s :: rest => (S n, s) :: numbered rest (S n)
  end.

(** One turn of the loop of [parse_logs] on a line of the file that is
    open: the line number, [parse_line], and [clear_before] which is kept
    until a line is recognized. *)
Definition read_line (io : chrono_io) (acc : world * bool) (l : nat * string)
    : world * bool :=
  let '(r, w) := parse_line io true l.2 (at_line l.1 acc.1) acc.2 in
  (w, if read_valid_line r then false else acc.2).

Definition read_lines (io : chrono_io) (ls : list (nat * string)) (acc : world * bool)
    : world * bool :=
  foldl (read_line io) acc ls.

(** The end of [parse_logs]: without [save_ctx] the players who are still
    online leave at [now]. *)
Definition finish (save_ctx : bool) (now : Z) (w : world) : world :=
  if save_ctx then w else (clear_all_players false w now).2.

(** The date that [get_next_line] gives to a path. *)
Definition date_of (io : chrono_io) (skip_latest_log : bool) (f : Backfill.log_file)
    : option Z :=
  if negb skip_latest_log && String.eqb (Backfill.lf_name f) "latest.log"
  then Some (Backfill.lf_mdate f)
  else from_stream_ymd io (Backfill.lf_name f).

(** The open stream has no line left that is not empty, or no stream is
    open: [get_next_line] goes on to the next path. *)
Definition file_done (rc : Backfill.file_read_ctx_t) : Prop :=
  match Backfill.fin rc with
  | Some pending => (Backfill.next_nonempty pending (Backfill.rc_line rc)).1 = None
  | None => True
  end.

(** ** Two files of one day, the second beginning with a line that is not
    recognized *)

Definition bob_uuid : uuid_t := (8526495043095935640%N, 8526495043095935640%N).
Definition bob_join_line : string := "[10:30:00] [Server thread/INFO]: Bob joined the game".
Definition bob_uuid_line : string :=
  "[09:00:00] [User Authenticator #2/INFO]: UUID of player Bob is 89abcdef-0123-4567-89ab-cdef01234567".
Definition trace_line : string := "java.lang.IllegalStateException: Failed to load".

Definition rotation_first_file : Backfill.log_file :=
  {| Backfill.lf_name := "2024-01-01-1.log"; Backfill.lf_gz := false;
     Backfill.lf_mdate := 0;
     Backfill.lf_body :=
       Some (chunk_of [Scenario.uuid_line; Scenario.join_line; bob_join_line]) |}.
Definition rotation_second_file : Backfill.log_file :=
  {| Backfill.lf_name := "2024-01-01-2.log"; Backfill.lf_gz := false;
     Backfill.lf_mdate := 0;
     Backfill.lf_body := Some (chunk_of [trace_line; bob_uuid_line]) |}.

(** * Properties *)

(** ** Closing a session *)

Lemma sum_durations_app l1 l2 :
  sum_durations (l1 ++ l2) = sum_durations l1 + sum_durations l2.
Proof.
  induction l1 as [|s l1 IH]; simpl; [done | rewrite IH; lia].
Qed.

Lemma sessions_of_close_session data u name j t u' :
  sessions_of (close_session data u name j t) u' =
  if decide (u = u') then sessions_of data u' ++ [(j, t - j)] else sessions_of data u'.
Proof.
  unfold sessions_of, close_session.
  destruct (default empty_entry (data !! u)) as [names [ps tot]] eqn:E.
  case_decide as Hu.
  - subst u'. rewrite lookup_insert_eq. simpl. by rewrite E.
  - by rewrite lookup_insert_ne.
Qed.

Lemma close_session_ok data u name j t :
  store_ok data → store_ok (close_session data u name j t).
Proof.
  intros Hok u' e'. unfold close_session.
  destruct (data !! u) as [[names [ps tot]]|] eqn:E; simpl.
  - destruct (decide (u = u')) as [->|Hne].
    + rewrite lookup_insert_eq. intros [= <-]. simpl.
      rewrite sum_durations_app. simpl.
      specialize (Hok _ _ E). simpl in Hok. lia.
    + rewrite lookup_insert_ne by done. apply Hok.
  - destruct (decide (u = u')) as [->|Hne].
    + rewrite lookup_insert_eq. intros [= <-]. simpl. lia.
    + rewrite lookup_insert_ne by done. apply Hok.
Qed.

(** ** The flush *)

Section Flush.
Variables (warn : bool) (file : string) (t : Z).

Abbreviation step := (clear_player warn file t).

Lemma clear_player_cases st e :
  (step st e = st ∧ (uuid e.2 = None ∨ join_time e.2 = None))
  ∨ ∃ u j, uuid e.2 = Some u ∧ join_time e.2 = Some j ∧
      step st e =
        (<[e.1 := {| uuid := Some u; join_time := None |}]> st.1.1.1,
         close_session st.1.1.2 u e.1 j t,
         (if warn then st.1.2 ++ [WarnNeverLeft e.1 file t] else st.1.2),
         true).
Proof.
  destruct st as [[[pi data] out] any]. unfold clear_player.
  destruct (uuid e.2) as [u|]; [|left; auto].
  destruct (join_time e.2) as [j|]; [|left; auto].
  right. exists u, j. auto.
Qed.

Lemma foldl_clear_ind (P : player_map * log_data_t * list message * bool → Prop) l st :
  P st → (∀ st e, e ∈ l → P st → P (step st e)) → P (foldl step st l).
Proof.
  revert st. induction l as [|e l IH]; intros st H0 Hs; simpl; [done|].
  apply IH.
  - apply Hs; [left | done].
  - intros st' e' He. apply Hs. by right.
Qed.

(** The online map after the loop: every visited entry is cleared, the
    others are as before. *)
Lemma foldl_clear_lookup l st k :
  NoDup l.*1 →
  (∀ k v, (k, v) ∈ l → st.1.1.1 !! k = Some v) →
  (foldl step st l).1.1.1 !! k =
    if decide (k ∈ l.*1) then clear_info <$> st.1.1.1 !! k else st.1.1.1 !! k.
Proof.
  revert st. induction l as [|[k0 v0] l IH]; intros st Hnd Hin.
  { rewrite decide_False; [done | apply not_elem_of_nil]. }
  rewrite fmap_cons in Hnd. apply NoDup_cons in Hnd as [Hk0 Hnd].
  cbn [foldl]. simpl in Hk0.
  assert (Hst : ∀ k v, (k, v) ∈ l → (step st (k0, v0)).1.1.1 !! k = Some v).
  { intros k' v' Hkv.
    assert (k' ≠ k0).
    { intros ->. apply Hk0. apply list_elem_of_fmap. by exists (k0, v'). }
    destruct (clear_player_cases st (k0, v0)) as [[-> _]|(u & j & _ & _ & ->)]; simpl.
    - apply Hin. by right.
    - rewrite lookup_insert_ne by done. apply Hin. by right. }
  rewrite (IH _ Hnd Hst).
  assert (H0 : st.1.1.1 !! k0 = Some v0) by (apply Hin; left).
  assert (Hk0' : (step st (k0, v0)).1.1.1 !! k0 = Some (clear_info v0)).
  { destruct (clear_player_cases st (k0, v0)) as [[-> Hn]|(u & j & Hu & Hj & ->)]; simpl in *.
    - rewrite H0. f_equal. unfold clear_info.
      destruct Hn as [-> | ->]; [done | by destruct (uuid v0)].
    - rewrite lookup_insert_eq. unfold clear_info. by rewrite Hu, Hj. }
  assert (Hne : ∀ k', k' ≠ k0 → (step st (k0, v0)).1.1.1 !! k' = st.1.1.1 !! k').
  { intros k' Hk'.
    destruct (clear_player_cases st (k0, v0)) as [[-> _]|(u & j & _ & _ & ->)]; simpl;
      [done | by rewrite lookup_insert_ne]. }
  destruct (decide (k = k0)) as [->|Hk].
  - rewrite decide_False by done. rewrite decide_True by (simpl; left).
    by rewrite Hk0', H0.
  - rewrite Hne by done.
    case_decide as H1; case_decide as H2; try done.
    + exfalso. apply H2. simpl. by right.
    + simpl in H2. apply elem_of_cons in H2 as [?|?]; done.
Qed.

End Flush.

Lemma appended_at_refl t pi data : appended_at t pi data data.
Proof. intros u. exists []. by rewrite app_nil_r. Qed.

Lemma appended_at_trans t pi pi' d1 d2 d3 :
  (∀ name info u j, pi' !! name = Some info → uuid info = Some u → join_time info = Some j →
     ∃ name0 info0, pi !! name0 = Some info0 ∧ uuid info0 = Some u ∧ join_time info0 = Some j) →
  appended_at t pi d1 d2 → appended_at t pi' d2 d3 → appended_at t pi d1 d3.
Proof.
  intros Hsub H12 H23 u.
  destruct (H12 u) as (n1 & E1 & F1), (H23 u) as (n2 & E2 & F2).
  exists (n1 ++ n2). split.
  - by rewrite E2, E1, app_assoc.
  - apply Forall_app. split; [done|].
    eapply Forall_impl; [exact F2|].
    intros s [Hd (name & info & Hl & Hu & Hj)]. split; [done|]. eauto.
Qed.

Lemma appended_at_close t pi data u name info j :
  pi !! name = Some info → uuid info = Some u → join_time info = Some j →
  appended_at t pi data (close_session data u name j t).
Proof.
  intros Hl Hu Hj u'. rewrite sessions_of_close_session.
  case_decide as E.
  - subst u'. exists [(j, t - j)]. split; [done|].
    apply Forall_singleton. split; [done|]. simpl. eauto.
  - exists []. by rewrite app_nil_r.
Qed.

Lemma clear_all_players_unfold warn w t :
  clear_all_players warn w t =
  let r := foldl (clear_player warn (cur_filename (w_ctx w)) t)
                 (player_info (w_ctx w), w_data w, w_out w, false)
                 (map_to_list (player_info (w_ctx w))) in
  (r.2, {| w_ctx := set_player_info r.1.1.1 (w_ctx w); w_data := r.1.1.2; w_out := r.1.2 |}).
Proof.
  unfold clear_all_players.
  by destruct (foldl _ _ _) as [[[pi data] out] any].
Qed.

(** The flush touches the online map only, entry by entry. *)
Lemma flush_ctx warn w t :
  w_ctx (clear_all_players warn w t).2 =
  set_player_info (clear_info <$> player_info (w_ctx w)) (w_ctx w).
Proof.
  rewrite clear_all_players_unfold. simpl. f_equal.
  apply map_eq. intros k.
  rewrite foldl_clear_lookup.
  - simpl. rewrite lookup_fmap. case_decide as H; [done|].
    destruct (player_info (w_ctx w) !! k) as [v|] eqn:E; [|done].
    exfalso. apply H. apply list_elem_of_fmap. exists (k, v).
    split; [done|]. by apply elem_of_map_to_list.
  - apply NoDup_fst_map_to_list.
  - intros k' v Hkv. simpl. by apply elem_of_map_to_list.
Qed.

Lemma flush_player_info warn w t name :
  player_info (w_ctx (clear_all_players warn w t).2) !! name =
  clear_info <$> player_info (w_ctx w) !! name.
Proof. rewrite flush_ctx. simpl. by rewrite lookup_fmap. Qed.

Lemma flush_server_stopped warn w t :
  server_stopped (w_ctx (clear_all_players warn w t).2) = server_stopped (w_ctx w).
Proof. by rewrite flush_ctx. Qed.

Lemma flush_date_tp warn w t :
  date_tp (w_ctx (clear_all_players warn w t).2) = date_tp (w_ctx w).
Proof. by rewrite flush_ctx. Qed.

Lemma flush_store_ok warn w t :
  store_ok (w_data w) → store_ok (w_data (clear_all_players warn w t).2).
Proof.
  intros Hok. rewrite clear_all_players_unfold. simpl.
  apply (foldl_clear_ind warn _ t (fun st => store_ok st.1.1.2)); [done|].
  intros st e _ Hst.
  destruct (clear_player_cases warn (cur_filename (w_ctx w)) t st e)
    as [[-> _]|(u & j & _ & _ & ->)]; [done|].
  simpl. by apply close_session_ok.
Qed.

Lemma flush_appended warn w t :
  appended_at t (player_info (w_ctx w)) (w_data w) (w_data (clear_all_players warn w t).2).
Proof.
  rewrite clear_all_players_unfold. simpl.
  apply (foldl_clear_ind warn _ t
           (fun st => appended_at t (player_info (w_ctx w)) (w_data w) st.1.1.2)).
  - apply appended_at_refl.
  - intros st [k v] He Hst. apply elem_of_map_to_list in He.
    destruct (clear_player_cases warn (cur_filename (w_ctx w)) t st (k, v))
      as [[-> _]|(u & j & Hu & Hj & ->)]; [done|].
    simpl in *. eapply appended_at_trans; [| exact Hst |].
    + intros ?????. eauto.
    + by eapply appended_at_close.
Qed.

(** Sessions are only ever appended by the loop. *)
Lemma foldl_clear_keeps warn file t l st u s :
  s ∈ sessions_of st.1.1.2 u →
  s ∈ sessions_of (foldl (clear_player warn file t) st l).1.1.2 u.
Proof.
  intros Hs.
  apply (foldl_clear_ind warn file t (fun st => s ∈ sessions_of st.1.1.2 u)); [done|].
  intros st' e _ Hst'.
  destruct (clear_player_cases warn file t st' e) as [[-> _]|(u' & j & _ & _ & ->)]; [done|].
  simpl. rewrite sessions_of_close_session. case_decide; [|done].
  apply elem_of_app. by left.
Qed.

Lemma foldl_clear_closes warn file t l st k v u j :
  (k, v) ∈ l → uuid v = Some u → join_time v = Some j →
  (j, t - j) ∈ sessions_of (foldl (clear_player warn file t) st l).1.1.2 u.
Proof.
  intros Hin Hu Hj. revert st.
  induction l as [|e l IH]; intros st; [by apply elem_of_nil in Hin|].
  cbn [foldl]. apply elem_of_cons in Hin as [<-|Hin]; [|by apply IH].
  apply foldl_clear_keeps.
  destruct (clear_player_cases warn file t st (k, v))
    as [[_ [H|H]]|(u' & j' & Hu' & Hj' & ->)]; simpl in *; try congruence.
  assert (u' = u) as -> by congruence. assert (j' = j) as -> by congruence.
  rewrite sessions_of_close_session, decide_True by done.
  apply elem_of_app. right. by apply list_elem_of_singleton.
Qed.

Lemma flush_closes warn w t name info u j :
  player_info (w_ctx w) !! name = Some info → uuid info = Some u → join_time info = Some j →
  (j, t - j) ∈ sessions_of (w_data (clear_all_players warn w t).2) u.
Proof.
  intros Hl Hu Hj. rewrite clear_all_players_unfold. simpl.
  eapply foldl_clear_closes; [|done..]. by apply elem_of_map_to_list.
Qed.

(** ** What a line can do *)

Ltac split_message :=
  repeat match goal with
    | |- context [IStream.get_string ?s ?o] =>
        destruct (IStream.get_string s o) as [? ?]
    | |- context [clear_all_players ?b ?w ?t] =>
        let E := fresh "E" in
        destruct (clear_all_players b w t) as [? ?] eqn:E;
        apply (f_equal snd) in E; simpl in E
    | |- context [player_left ?t ?n ?w] =>
        let E := fresh "E" in
        destruct (player_left t n w) as [? ?] eqn:E;
        apply (f_equal snd) in E; simpl in E
    | |- context [parse_uuid ?s] => destruct (parse_uuid s)
    | |- context [if ?b then _ else _] => destruct b
    end.

Lemma parse_message_effect ss t pc w :
  message_effect t w (parse_message ss t pc w).2.
Proof.
  unfold parse_message. split_message; simpl;
    repeat match goal with E : _ = ?x |- context [?x] => rewrite <- E; clear E end;
    constructor.
Qed.

Lemma parse_message_valid ss t pc w :
  read_valid_line (parse_message ss t pc w).1 = true.
Proof.
  unfold parse_message. split_message; reflexivity.
Qed.

Lemma parse_tagged_effect rest t w cb :
  (parse_tagged rest t w cb).2 = w
  ∨ message_effect t (flushed_before cb w t).2 (parse_tagged rest t w cb).2.
Proof.
  unfold parse_tagged, flushed_before.
  destruct (IStream.get_char _ _) as [ss1 c1].
  destruct (_ || _); [by left|].
  destruct (IStream.get_char_noskipws _ _) as [ss2 c2].
  destruct (_ || _); [by left|].
  right. destruct cb.
  - destruct (clear_all_players true w t) as [pc w1]. apply parse_message_effect.
  - apply parse_message_effect.
Qed.

Lemma message_effect_store_ok t w w' :
  message_effect t w w' → store_ok (w_data w) → store_ok (w_data w').
Proof.
  intros [] Hok; simpl; try done.
  - by apply flush_store_ok.
  - unfold player_left.
    destruct (uuid _) as [u|]; [|done].
    destruct (join_time _) as [j|]; [|done].
    simpl. by apply close_session_ok.
Qed.

Lemma player_left_appended t name w :
  appended_at t (player_info (w_ctx w)) (w_data w) (w_data (player_left t name w).2).
Proof.
  unfold player_left.
  destruct (player_info (w_ctx w) !! name) as [info|] eqn:E; simpl;
    [|apply appended_at_refl].
  destruct (uuid info) as [u|] eqn:Hu; [|apply appended_at_refl].
  destruct (join_time info) as [j|] eqn:Hj; [|apply appended_at_refl].
  simpl. by eapply appended_at_close.
Qed.

Lemma message_effect_appended t w w' :
  message_effect t w w' →
  appended_at t (player_info (w_ctx w)) (w_data w) (w_data w').
Proof.
  intros []; simpl; try apply appended_at_refl.
  - apply flush_appended.
  - apply player_left_appended.
Qed.

Lemma parse_line_store_ok io b text w cb :
  store_ok (w_data w) → store_ok (w_data (parse_line io b text w cb).2).
Proof.
  intros Hok. unfold parse_line.
  destruct (from_stream_hms io _) as [[off rest]|]; [|done].
  destruct (parse_tagged_effect rest (date_tp (w_ctx w) + off) w cb) as [->|He]; [done|].
  eapply message_effect_store_ok; [exact He|].
  unfold flushed_before. destruct cb; [by apply flush_store_ok | done].
Qed.

Lemma parse_lines_store_ok io text w :
  store_ok (w_data w) → store_ok (w_data (parse_lines io text w).2).
Proof.
  unfold parse_lines. generalize false. revert w.
  induction (pieces text) as [|p ps IH]; intros w acc Hok; [done|].
  cbn [foldl]. unfold parse_lines_step at 2. simpl.
  destruct (parse_line io true p w false) as [r w'] eqn:E.
  apply IH. apply (f_equal snd) in E. simpl in E. subst w'.
  by apply parse_line_store_ok.
Qed.

Lemma run_op_store_ok io w o :
  store_ok (w_data w) → store_ok (w_data (run_op io w o)).
Proof.
  destruct o; simpl.
  - apply parse_line_store_ok.
  - apply parse_lines_store_ok.
  - apply flush_store_ok.
  - done.
Qed.

(** C1. Starting from an empty store, after any sequence of [parse_line]
    calls (with or without [clear_before]), [parse_lines] calls, flushes by
    [clear_all_players] and changes of file by the driver, every identity of
    the store has a total equal to the sum of the durations of its
    sessions. *)
Theorem total_is_sum_of_sessions (io : chrono_io) (ops : list op) (ctx : parse_ctx_t)
    (out : list message) :
  store_ok (w_data (run io ops {| w_ctx := ctx; w_data := ∅; w_out := out |})).
Proof.
  unfold run.
  assert (H0 : store_ok (w_data {| w_ctx := ctx; w_data := ∅; w_out := out |})).
  { intros u e. simpl. by rewrite lookup_empty. }
  revert H0. generalize {| w_ctx := ctx; w_data := ∅; w_out := out |}.
  induction ops as [|o ops IH]; intros w Hok; [done|].
  cbn [foldl]. apply IH. by apply run_op_store_ok.
Qed.

(** ** Reading tokens *)

Lemma word_token name r :
  no_space name = true → IStream.word (name +:+ String " " r) = name.
Proof.
  induction name as [|c name IH]; simpl; [done|].
  intros [Hc Hn]%andb_prop. apply negb_true_iff in Hc. rewrite Hc.
  by rewrite IH.
Qed.

Lemma after_word_token name r :
  no_space name = true → IStream.after_word (name +:+ String " " r) = String " " r.
Proof.
  induction name as [|c name IH]; simpl; [done|].
  intros [Hc Hn]%andb_prop. apply negb_true_iff in Hc. rewrite Hc.
  by apply IH.
Qed.

Lemma skipws_token name r :
  is_token name = true → IStream.skipws (name +:+ r) = name +:+ r.
Proof.
  destruct name as [|c name]; simpl; [done|].
  intros [Hc Hn]%andb_prop. apply negb_true_iff in Hc. by rewrite Hc.
Qed.

(** Extracting a token that is followed by a blank. *)
Lemma get_string_token name r old :
  is_token name = true →
  IStream.get_string (IStream.of_string (String " " (name +:+ String " " r))) old =
  ({| IStream.buf := String " " r; IStream.eofbit := false; IStream.failbit := false |},
   name).
Proof.
  intros Ht. unfold IStream.get_string, IStream.of_string, IStream.good.
  cbn [IStream.buf IStream.eofbit IStream.failbit negb andb].
  change (IStream.skipws (String " " (name +:+ String " " r)))
    with (IStream.skipws (name +:+ String " " r)).
  rewrite skipws_token by done.
  assert (Hn : no_space name = true) by (by destruct name).
  pose proof (after_word_token name r Hn) as Ha.
  pose proof (word_token name r Hn) as Hw.
  destruct name as [|c name]; [done|].
  change (String c name +:+ String " " r) with (String c (name +:+ String " " r)) in *.
  cbv iota beta. by rewrite Ha, Hw.
Qed.

Lemma drop_through_tag (c : ascii) tag r :
  no_char c tag = true → IStream.drop_through c (tag +:+ String c r) = Some r.
Proof.
  induction tag as [|a tag IH]; simpl.
  - by rewrite Ascii.eqb_refl.
  - intros [Ha Ht]%andb_prop. apply negb_true_iff in Ha. rewrite Ha. by apply IH.
Qed.

(** A line with a well-formed source tag reaches the message matching, after
    the flush that [clear_before] asks for. *)
Lemma parse_tagged_tagged tag msg t w cb :
  no_char "]" tag = true →
  parse_tagged (tagged tag msg) t w cb =
  parse_message (IStream.of_string (String " " msg)) t
    (flushed_before cb w t).1 (flushed_before cb w t).2.
Proof.
  intros Htag. unfold parse_tagged, tagged. simpl.
  unfold IStream.ignore. simpl.
  change (IStream.drop_through "]" _)
    with (IStream.drop_through "]" (tag +:+ String "]" (String ":" (String " " msg)))).
  rewrite drop_through_tag by done. simpl.
  unfold flushed_before. destruct cb; [|done].
  by destruct (clear_all_players true w t).
Qed.

Lemma parse_message_left name t pc w :
  is_token name = true → server_stopped (w_ctx w) = false →
  parse_message (IStream.of_string (String " " (name +:+ " left the game"))) t pc w =
  (mk_res true (pc || (player_left t name w).1), (player_left t name w).2).
Proof.
  intros Ht Hs. unfold parse_message.
  rewrite get_string_token by done.
  simpl.
  rewrite Hs, !andb_false_r. by destruct (player_left t name w).
Qed.

Lemma parse_message_joined name t pc w :
  is_token name = true → server_stopped (w_ctx w) = false →
  parse_message (IStream.of_string (String " " (name +:+ " joined the game"))) t pc w =
  (mk_res true true, player_joined t name w).
Proof.
  intros Ht Hs. unfold parse_message.
  rewrite get_string_token by done.
  simpl. by rewrite Hs, !andb_false_r.
Qed.

(** In the Stopped state the matching ends at the startup check. *)
Lemma parse_message_stopped_left name t pc w :
  is_token name = true → server_stopped (w_ctx w) = true →
  parse_message (IStream.of_string (String " " (name +:+ " left the game"))) t pc w =
  (mk_res true pc, w).
Proof.
  intros Ht Hs. unfold parse_message.
  rewrite get_string_token by done.
  simpl. by rewrite Hs, !andb_false_r.
Qed.

Lemma parse_message_stopped_joined name t pc w :
  is_token name = true → server_stopped (w_ctx w) = true →
  parse_message (IStream.of_string (String " " (name +:+ " joined the game"))) t pc w =
  (mk_res true pc, w).
Proof.
  intros Ht Hs. unfold parse_message.
  rewrite get_string_token by done.
  simpl. by rewrite Hs, !andb_false_r.
Qed.

(** ** The Stopped state *)

(** C3, as stated, fails: with the identity of Alice on file, her join line
    marks her online in the Running state and is ignored in the Stopped
    state. *)
Lemma stopped_join_is_not_applied :
  player_info (w_ctx (parse_line Chrono.io true Scenario.join_line
                        (Scenario.world_with Scenario.alice_known false) false).2)
    !! "Alice" = Some {| uuid := Some Scenario.alice_uuid; join_time := Some 36000 |}
  ∧ parse_line Chrono.io true Scenario.join_line
      (Scenario.world_with Scenario.alice_known true) false
    = (mk_res true false, Scenario.world_with Scenario.alice_known true).
Proof. split; vm_compute; reflexivity. Qed.

Lemma parse_tagged_cases rest t w cb :
  parse_tagged rest t w cb = (mk_res false false, w)
  ∨ ∃ ss, parse_tagged rest t w cb =
          parse_message ss t (flushed_before cb w t).1 (flushed_before cb w t).2.
Proof.
  unfold parse_tagged, flushed_before.
  destruct (IStream.get_char _ _) as [ss1 c1].
  destruct (_ || _); [by left|].
  destruct (IStream.get_char_noskipws _ _) as [ss2 c2].
  destruct (_ || _); [by left|].
  right. exists ss2. destruct cb; [|done].
  by destruct (clear_all_players true w t).
Qed.

(** While Stopped, a message can only reset the flag (the startup message)
    or flush (the two-token [Stopping server]). *)
Lemma stopped_message_effect ss t pc w :
  server_stopped (w_ctx w) = true →
  (parse_message ss t pc w).2 = w
  ∨ (parse_message ss t pc w).2 = start_server w
  ∨ (parse_message ss t pc w).2 = stop_server (clear_all_players false w t).2.
Proof.
  intros Hs. unfold parse_message. rewrite Hs.
  split_message; simpl; auto.
  all: right; right; congruence.
Qed.

(** C3, amended. In the Stopped state a timestamped join or leave line is not
    applied: the line is recognised, reports no join or leave of its own, and
    leaves context and store as the flush asked for by [clear_before] (if
    any) left them. Everything behind the startup check is gated on the
    state, not the startup check alone: whatever the line, the world after it
    is the one before it, or the world [w1] left by the [clear_before] flush,
    or [w1] with the flag reset by the startup message, or [w1] flushed by a
    [Stopping server] message. *)
Theorem stopped_ignores_join_and_leave (io : chrono_io) (b : bool) (text : string)
    (w : world) (cb : bool) :
  server_stopped (w_ctx w) = true →
  (∀ off tag name verb,
     is_token name = true →
     no_char "]" tag = true →
     verb = "joined" ∨ verb = "left" →
     from_stream_hms io (if b then strip_cr text else text)
       = Some (off, tagged tag (name +:+ " " +:+ verb +:+ " the game")) →
     parse_line io b text w cb =
     (mk_res true (flushed_before cb w (date_tp (w_ctx w) + off)).1,
      (flushed_before cb w (date_tp (w_ctx w) + off)).2))
  ∧ ((parse_line io b text w cb).2 = w
     ∨ ∃ t, (parse_line io b text w cb).2 = (flushed_before cb w t).2
            ∨ (parse_line io b text w cb).2 = start_server (flushed_before cb w t).2
            ∨ (parse_line io b text w cb).2
              = stop_server (clear_all_players false (flushed_before cb w t).2 t).2).
Proof.
  intros Hstop.
  assert (Hs : ∀ t, server_stopped (w_ctx (flushed_before cb w t).2) = true).
  { intros t. unfold flushed_before.
    destruct cb; [by rewrite flush_server_stopped | done]. }
  split.
  - intros off tag name verb Hname Htag Hverb Hts.
    unfold parse_line. rewrite Hts.
    rewrite parse_tagged_tagged by done.
    destruct Hverb as [-> | ->].
    + by apply parse_message_stopped_joined.
    + by apply parse_message_stopped_left.
  - unfold parse_line.
    destruct (from_stream_hms io _) as [[off rest]|]; [|by left].
    destruct (parse_tagged_cases rest (date_tp (w_ctx w) + off) w cb) as [->|[ss ->]];
      [by left|].
    right. exists (date_tp (w_ctx w) + off).
    by apply stopped_message_effect.
Qed.

(** The amended C3 at the leave line of Alice, Stopped, no [clear_before]. *)
Lemma stopped_ignores_join_and_leave_witness :
  let w := Scenario.world_with Scenario.alice_known true in
  parse_line Chrono.io true Scenario.leave_line w false = (mk_res true false, w).
Proof.
  intros w.
  apply (proj1 (stopped_ignores_join_and_leave Chrono.io true Scenario.leave_line w false
                  eq_refl) 39600 "Server thread/INFO" "Alice" "left").
  - reflexivity.
  - reflexivity.
  - right. reflexivity.
  - reflexivity.
Defined.

(** ** Leaving without having joined *)

Lemma flushed_before_info cb w t name :
  player_info (w_ctx (flushed_before cb w t).2) !! name =
  (if cb then clear_info else id) <$> player_info (w_ctx w) !! name.
Proof.
  unfold flushed_before. destruct cb.
  - apply flush_player_info.
  - by destruct (_ !! _).
Qed.

Lemma flushed_before_ctx cb w t :
  cur_filename (w_ctx (flushed_before cb w t).2) = cur_filename (w_ctx w)
  ∧ line (w_ctx (flushed_before cb w t).2) = line (w_ctx w)
  ∧ server_stopped (w_ctx (flushed_before cb w t).2) = server_stopped (w_ctx w)
  ∧ date_tp (w_ctx (flushed_before cb w t).2) = date_tp (w_ctx w).
Proof.
  unfold flushed_before. destruct cb; [by rewrite flush_ctx | done].
Qed.

(** C4, as stated, fails in the Stopped state: the leave line of a player
    without identity is dropped without any message. *)
Lemma stopped_leave_is_silent :
  parse_line Chrono.io true Scenario.leave_line (Scenario.world_with ∅ true) false
  = (mk_res true false, Scenario.world_with ∅ true)
  ∧ w_out (Scenario.world_with ∅ true) = [].
Proof. split; vm_compute; reflexivity. Qed.

(** C4, amended. In the Running state, a line [<name> left the game] for a
    name without identity or without join instant on file is recognised
    ([read_valid_line]), appends exactly one error message to the output and
    leaves the store as the flush asked for by [clear_before] left it, so
    unchanged when [clear_before] is false. The call always returns. *)
Theorem leave_without_join_is_rejected (io : chrono_io) (b : bool) (text : string)
    (w : world) (cb : bool) (off : Z) (tag name : string) :
  is_token name = true →
  no_char "]" tag = true →
  from_stream_hms io (if b then strip_cr text else text)
    = Some (off, tagged tag (name +:+ " left the game")) →
  server_stopped (w_ctx w) = false →
  uuid (default empty_info (player_info (w_ctx w) !! name)) = None
  ∨ join_time (default empty_info (player_info (w_ctx w) !! name)) = None →
  let w1 := (flushed_before cb w (date_tp (w_ctx w) + off)).2 in
  let r := parse_line io b text w cb in
  read_valid_line r.1 = true
  ∧ w_data r.2 = w_data w1
  ∧ (cb = false → w_data r.2 = w_data w)
  ∧ ∃ m, w_out r.2 = w_out w1 ++ [m]
         ∧ (m = ErrUuidNotFound name (cur_filename (w_ctx w)) (line (w_ctx w))
            ∨ m = ErrJoinTimeNotFound name (cur_filename (w_ctx w)) (line (w_ctx w))).
Proof.
  intros Hname Htag Hts Hrun Hmiss w1 r. subst r. unfold parse_line. rewrite Hts.
  rewrite parse_tagged_tagged by done. fold w1.
  destruct (flushed_before_ctx cb w (date_tp (w_ctx w) + off)) as (Hf & Hl & Hs & _).
  fold w1 in Hf, Hl, Hs.
  rewrite parse_message_left by congruence. simpl.
  assert (Hmiss1 : uuid (default empty_info (player_info (w_ctx w1) !! name)) = None
                   ∨ join_time (default empty_info (player_info (w_ctx w1) !! name)) = None).
  { unfold w1. rewrite flushed_before_info.
    destruct (player_info (w_ctx w) !! name) as [info|]; simpl in *; [|by left].
    destruct cb; simpl; [|done].
    unfold clear_info. destruct (uuid info) eqn:Hu; [|by left].
    destruct (join_time info) eqn:Hj; simpl; by right. }
  assert (Hcb : cb = false → w_data w1 = w_data w).
  { intros ->. done. }
  unfold player_left. rewrite Hf, Hl.
  destruct (default empty_info (player_info (w_ctx w1) !! name)) as [[u|] [j|]];
    simpl in *.
  - destruct Hmiss1; congruence.
  - repeat split; [done | eauto].
  - repeat split; [done | eauto].
  - repeat split; [done | eauto].
Qed.

(** The amended C4 at the leave line of Alice, who is known and offline. *)
Lemma leave_without_join_is_rejected_witness :
  let w := Scenario.world_with Scenario.alice_known false in
  let r := parse_line Chrono.io true Scenario.leave_line w false in
  read_valid_line r.1 = true
  ∧ w_data r.2 = w_data w
  ∧ (false = false → w_data r.2 = w_data w)
  ∧ ∃ m, w_out r.2 = w_out w ++ [m]
         ∧ (m = ErrUuidNotFound "Alice" "latest.log" 0
            ∨ m = ErrJoinTimeNotFound "Alice" "latest.log" 0).
Proof.
  apply (leave_without_join_is_rejected Chrono.io true Scenario.leave_line
           (Scenario.world_with Scenario.alice_known false) false 39600
           "Server thread/INFO" "Alice").
  - reflexivity.
  - reflexivity.
  - reflexivity.
  - reflexivity.
  - right. reflexivity.
Defined.

(** C10, as stated, fails in the Stopped state: the leave line of a name that
    has no entry leaves the online map without one. *)
Lemma stopped_leave_inserts_nothing :
  player_info (w_ctx (parse_line Chrono.io true Scenario.leave_line
                        (Scenario.world_with ∅ true) false).2) !! "Alice" = None.
Proof. vm_compute. reflexivity. Qed.

(** C10, amended. In the Running state, a line [<name> left the game] for a
    name that has no entry in the online map inserts an entry with empty
    identity and empty join instant for that name, although the leave is
    rejected: the store is as the flush asked for by [clear_before] left it
    (unchanged without [clear_before]) and the online map has one entry
    more. *)
Theorem leave_of_unknown_name_inserts_entry (io : chrono_io) (b : bool) (text : string)
    (w : world) (cb : bool) (off : Z) (tag name : string) :
  is_token name = true →
  no_char "]" tag = true →
  from_stream_hms io (if b then strip_cr text else text)
    = Some (off, tagged tag (name +:+ " left the game")) →
  server_stopped (w_ctx w) = false →
  player_info (w_ctx w) !! name = None →
  let w1 := (flushed_before cb w (date_tp (w_ctx w) + off)).2 in
  let r := parse_line io b text w cb in
  player_info (w_ctx r.2) = <[name := empty_info]> (player_info (w_ctx w1))
  ∧ player_info (w_ctx r.2) !! name = Some empty_info
  ∧ size (player_info (w_ctx r.2)) = S (size (player_info (w_ctx w)))
  ∧ w_data r.2 = w_data w1
  ∧ (cb = false → w_data r.2 = w_data w).
Proof.
  intros Hname Htag Hts Hrun Hnone w1 r. subst r. unfold parse_line. rewrite Hts.
  rewrite parse_tagged_tagged by done. fold w1.
  destruct (flushed_before_ctx cb w (date_tp (w_ctx w) + off)) as (_ & _ & Hs & _).
  fold w1 in Hs.
  rewrite parse_message_left by congruence. simpl.
  assert (Hnone1 : player_info (w_ctx w1) !! name = None).
  { unfold w1. rewrite flushed_before_info. by rewrite Hnone. }
  assert (Hsize : size (player_info (w_ctx w1)) = size (player_info (w_ctx w))).
  { unfold w1, flushed_before. destruct cb; [|done].
    rewrite flush_ctx. simpl. apply map_size_fmap. }
  unfold player_left. rewrite Hnone1. simpl.
  repeat split.
  - by rewrite lookup_insert_eq.
  - rewrite map_size_insert_None by done. by rewrite Hsize.
  - by intros ->.
Qed.

(** The amended C10 at the leave line of Alice and an empty online map. *)
Lemma leave_of_unknown_name_inserts_entry_witness :
  let w := Scenario.world_with ∅ false in
  let r := parse_line Chrono.io true Scenario.leave_line w false in
  player_info (w_ctx r.2) = <[ "Alice" := empty_info ]> (player_info (w_ctx w))
  ∧ player_info (w_ctx r.2) !! "Alice" = Some empty_info
  ∧ size (player_info (w_ctx r.2)) = S (size (player_info (w_ctx w)))
  ∧ w_data r.2 = w_data w
  ∧ (false = false → w_data r.2 = w_data w).
Proof.
  apply (leave_of_unknown_name_inserts_entry Chrono.io true Scenario.leave_line
           (Scenario.world_with ∅ false) false 39600 "Server thread/INFO" "Alice").
  - reflexivity.
  - reflexivity.
  - reflexivity.
  - reflexivity.
  - reflexivity.
Defined.

(** ** What a flush closes *)

Lemma parse_message_stopping_server t pc w :
  parse_message (IStream.of_string " Stopping server") t pc w =
  (mk_res true (pc || (clear_all_players false w t).1),
   stop_server (clear_all_players false w t).2).
Proof.
  unfold parse_message. simpl. by destruct (clear_all_players false w t).
Qed.

Lemma parse_message_stopping_the_server t pc w :
  server_stopped (w_ctx w) = false →
  parse_message (IStream.of_string " Stopping the server") t pc w =
  (mk_res true (pc || (clear_all_players false w t).1),
   stop_server (clear_all_players false w t).2).
Proof.
  intros Hs. unfold parse_message. simpl. rewrite Hs.
  by destruct (clear_all_players false w t).
Qed.

(** C5, as stated, fails: Bob is online without identity; the flush of a
    [Stopping server] line leaves his join instant in place. *)
Lemma flush_keeps_anonymous_join :
  let w' := (parse_line Chrono.io true Scenario.stop_line
               (Scenario.world_with Scenario.bob_anonymous false) false).2 in
  server_stopped (w_ctx w') = true
  ∧ player_info (w_ctx w') !! "Bob" = Some {| uuid := None; join_time := Some 36000 |}.
Proof. split; vm_compute; reflexivity. Qed.

(** What a flush at instant [t] closes, whoever calls it. *)
Lemma flush_closes_online warn w t : closes_online t w (clear_all_players warn w t).2.
Proof.
  split.
  - intros name u j Hl. split.
    + by eapply flush_closes.
    + by rewrite flush_player_info, Hl.
  - intros name info Hl [j Hj]. rewrite flush_player_info in Hl.
    destruct (player_info (w_ctx w) !! name) as [info0|]; [|done].
    simpl in Hl. injection Hl as <-. unfold clear_info in *.
    destruct (uuid info0) as [u|] eqn:Hu; [|done].
    destruct (join_time info0) as [j0|] eqn:Hj0; [done|].
    congruence.
Qed.

Lemma flush_keeps_sessions warn w t u s :
  s ∈ sessions_of (w_data w) u → s ∈ sessions_of (w_data (clear_all_players warn w t).2) u.
Proof.
  intros Hs. rewrite clear_all_players_unfold. simpl. by apply foldl_clear_keeps.
Qed.

(** Flushing twice at the same instant closes what the first flush closes. *)
Lemma flushed_then_flush_closes_online cb warn w t :
  closes_online t w (clear_all_players warn (flushed_before cb w t).2 t).2.
Proof.
  unfold flushed_before. destruct cb; [|apply flush_closes_online].
  destruct (flush_closes_online true w t) as [H1 H2].
  destruct (flush_closes_online warn (clear_all_players true w t).2 t) as [G1 G2].
  split.
  - intros name u j Hl. destruct (H1 name u j Hl) as [Hs Hi]. split.
    + by apply flush_keeps_sessions.
    + by rewrite flush_player_info, Hi.
  - intros name info Hl Hj. destruct (G2 name info Hl Hj) as [Hu Hi].
    destruct (H2 name info Hi Hj) as [_ Hw]. done.
Qed.

Lemma stop_server_closes_online t w w' :
  closes_online t w w' → closes_online t w (stop_server w').
Proof. done. Qed.

(** The flag that a message hands on plays no part in what it does. *)
Lemma parse_message_flag ss t pc w :
  parse_message ss t pc w
  = (mk_res (read_valid_line (parse_message ss t false w).1)
       (pc || player_join_left (parse_message ss t false w).1),
     (parse_message ss t false w).2).
Proof.
  unfold parse_message.
  split_message; cbn [fst snd read_valid_line player_join_left orb];
    by rewrite ?orb_false_r, ?orb_true_r.
Qed.

Lemma parse_tagged_well_tagged rest t w cb :
  read_valid_line (parse_tagged rest t w cb).1 = well_tagged rest
  ∧ (well_tagged rest = false → parse_tagged rest t w cb = (mk_res false false, w))
  ∧ (well_tagged rest = true →
     ∃ ss, ∀ t' w' cb',
       parse_tagged rest t' w' cb'
       = parse_message ss t' (flushed_before cb' w' t').1 (flushed_before cb' w' t').2).
Proof.
  unfold parse_tagged, well_tagged, flushed_before.
  destruct (IStream.get_char _ _) as [ss1 c1].
  destruct (_ || _); [done|].
  destruct (IStream.get_char_noskipws _ _) as [ss2 c2].
  destruct (_ || _); cbn [negb]; [done|].
  split.
  - destruct cb; [destruct (clear_all_players true w t)|]; apply parse_message_valid.
  - split; [done|]. intros _. exists ss2. intros t' w' cb'.
    destruct cb'; [|done]. by destruct (clear_all_players true w' t').
Qed.

(** With [clear_before], a recognized line is read as it is read without,
    in the world that the flush at the instant of the line leaves. *)
Lemma parse_line_flushes_first (io : chrono_io) (b : bool) text w off rest :
  from_stream_hms io (if b then strip_cr text else text) = Some (off, rest) →
  well_tagged rest = true →
  let t := date_tp (w_ctx w) + off in
  let w_f := (clear_all_players true w t).2 in
  parse_line io b text w true
  = (mk_res true ((clear_all_players true w t).1
                  || player_join_left (parse_line io b text w_f false).1),
     (parse_line io b text w_f false).2).
Proof.
  intros Hts Hw t w_f. unfold parse_line. rewrite Hts.
  assert (Hd : date_tp (w_ctx w_f) = date_tp (w_ctx w)) by apply flush_date_tp.
  rewrite Hd. fold t.
  destruct (parse_tagged_well_tagged rest t w true) as (_ & _ & H).
  destruct (H Hw) as [ss Hss]. rewrite !Hss.
  unfold flushed_before. fold w_f.
  rewrite (parse_message_flag ss t (clear_all_players true w t).1 w_f).
  by rewrite parse_message_valid.
Qed.

Lemma parse_line_recognized io text w cb :
  read_valid_line (parse_line io true text w cb).1 = recognized io text.
Proof.
  unfold parse_line, recognized.
  destruct (from_stream_hms io (strip_cr text)) as [[off rest]|]; [|done].
  apply parse_tagged_well_tagged.
Qed.

Lemma well_tagged_tagged tag msg : no_char "]" tag = true → well_tagged (tagged tag msg) = true.
Proof.
  intros Htag.
  destruct (parse_tagged_well_tagged (tagged tag msg) 0
              {| w_ctx := empty_ctx; w_data := ∅; w_out := [] |} false) as [<- _].
  rewrite parse_tagged_tagged by done. apply parse_message_valid.
Qed.

(** C5, amended. A flush happens at the instant [t] of the line that causes
    it, the day baseline of the file plus the time of day of the line. A
    [Stopping server] line in any state, and a [Stopping the server] line in
    the Running state, is a valid line that leaves the parser Stopped and
    closes every entry of the online map that has both an identity and a
    join instant: the session from the join instant to [t] is in the store
    and the entry has no join instant afterwards; the only entries that
    still have a join instant are those without identity, which are as they
    were. With [clear_before], any recognized line does the same flush, with
    a warning, before the line itself is interpreted: the line is read as it
    is read without [clear_before] in the world that the flush leaves, and
    reports a join or leave when the flush or the line does. *)
Theorem flush_closes_identified_entries (io : chrono_io) (b : bool) (text : string)
    (w : world) (cb : bool) (off : Z) (rest : string) :
  from_stream_hms io (if b then strip_cr text else text) = Some (off, rest) →
  let t := date_tp (w_ctx w) + off in
  let r := parse_line io b text w cb in
  (∀ tag,
     no_char "]" tag = true →
     rest = tagged tag "Stopping server"
     ∨ (rest = tagged tag "Stopping the server" ∧ server_stopped (w_ctx w) = false) →
     read_valid_line r.1 = true
     ∧ server_stopped (w_ctx r.2) = true
     ∧ closes_online t w r.2)
  ∧ (cb = true → well_tagged rest = true →
     let w_f := (clear_all_players true w t).2 in
     closes_online t w w_f
     ∧ r = (mk_res true ((clear_all_players true w t).1
                         || player_join_left (parse_line io b text w_f false).1),
            (parse_line io b text w_f false).2)).
Proof.
  intros Hts t r. split.
  - intros tag Htag Hmsg. subst r. unfold parse_line. rewrite Hts. fold t.
    assert (Hstop : parse_tagged rest t w cb
                    = (mk_res true ((flushed_before cb w t).1
                                    || (clear_all_players false (flushed_before cb w t).2 t).1),
                       stop_server (clear_all_players false (flushed_before cb w t).2 t).2)).
    { destruct Hmsg as [-> | [-> Hs]]; rewrite parse_tagged_tagged by done.
      - apply parse_message_stopping_server.
      - apply parse_message_stopping_the_server.
        by destruct (flushed_before_ctx cb w t) as (_ & _ & -> & _). }
    rewrite Hstop. cbn [fst snd read_valid_line].
    split; [done|]. split; [done|].
    apply stop_server_closes_online, flushed_then_flush_closes_online.
  - intros -> Hw w_f. split; [apply flush_closes_online|].
    subst r. exact (parse_line_flushes_first io b text w off rest Hts Hw).
Qed.

(** The amended C5 at a [Stopping server] line read with [clear_before],
    Alice online with her identity and Bob online without. *)
Lemma flush_closes_identified_entries_witness :
  let w := Scenario.world_with
             (<["Alice" := {| uuid := Some Scenario.alice_uuid; join_time := Some 36000 |}]>
                Scenario.bob_anonymous) false in
  let t := date_tp (w_ctx w) + 43200 in
  let r := parse_line Chrono.io true Scenario.stop_line w true in
  (∀ tag,
     no_char "]" tag = true →
     " [Server thread/INFO]: Stopping server" = tagged tag "Stopping server"
     ∨ (" [Server thread/INFO]: Stopping server" = tagged tag "Stopping the server"
        ∧ server_stopped (w_ctx w) = false) →
     read_valid_line r.1 = true
     ∧ server_stopped (w_ctx r.2) = true
     ∧ closes_online t w r.2)
  ∧ (true = true → well_tagged " [Server thread/INFO]: Stopping server" = true →
     let w_f := (clear_all_players true w t).2 in
     closes_online t w w_f
     ∧ r = (mk_res true ((clear_all_players true w t).1
                         || player_join_left
                              (parse_line Chrono.io true Scenario.stop_line w_f false).1),
            (parse_line Chrono.io true Scenario.stop_line w_f false).2)).
Proof.
  apply (flush_closes_identified_entries Chrono.io true Scenario.stop_line
           (Scenario.world_with
              (<["Alice" := {| uuid := Some Scenario.alice_uuid;
                               join_time := Some 36000 |}]> Scenario.bob_anonymous) false)
           true 43200 " [Server thread/INFO]: Stopping server").
  vm_compute. reflexivity.
Defined.

(** ** Durations *)

(** C6, as stated, fails: a join at 23:59:00 closed by a leave at 00:01:00 of
    the same file gives a session of negative duration. *)
Lemma leave_before_join_is_negative :
  sessions_of
    (w_data (feed_lines Chrono.io
               [Scenario.uuid_line; Scenario.late_join_line; Scenario.early_leave_line]
               (Scenario.world_with ∅ false)))
    Scenario.alice_uuid
  = [(86340, -86280)].
Proof. vm_compute. reflexivity. Qed.

Lemma flushed_before_appended cb w t :
  appended_at t (player_info (w_ctx w)) (w_data w) (w_data (flushed_before cb w t).2).
Proof.
  unfold flushed_before. destruct cb; [apply flush_appended | apply appended_at_refl].
Qed.

Lemma flushed_before_joins cb w t name info u j :
  player_info (w_ctx (flushed_before cb w t).2) !! name = Some info →
  uuid info = Some u → join_time info = Some j →
  ∃ name0 info0, player_info (w_ctx w) !! name0 = Some info0
                 ∧ uuid info0 = Some u ∧ join_time info0 = Some j.
Proof.
  rewrite flushed_before_info. intros Hl Hu Hj.
  destruct (player_info (w_ctx w) !! name) as [info0|] eqn:E; [|done].
  simpl in Hl. injection Hl as <-. exists name, info0. split; [done|].
  destruct cb; [|done]. unfold clear_info in *.
  destruct info0 as [[u0|] [j0|]]; simpl in *; done.
Qed.

Lemma parse_tagged_appended rest t w cb :
  appended_at t (player_info (w_ctx w)) (w_data w) (w_data (parse_tagged rest t w cb).2).
Proof.
  destruct (parse_tagged_effect rest t w cb) as [->|He]; [apply appended_at_refl|].
  eapply appended_at_trans; [| apply (flushed_before_appended cb) |].
  - apply flushed_before_joins.
  - by apply message_effect_appended.
Qed.

(** C6, amended. A line without timestamp leaves the world as it is. A line
    whose timestamp gives the instant [t] only appends sessions to the store,
    and every appended session starts at a join instant [j] that the online
    map holds for that identity and has the duration [t - j]: it is
    non-negative exactly when the join instant is not later than [t]. The
    code does not compare the two instants. *)
Theorem session_duration_is_difference (io : chrono_io) (b : bool) (text : string)
    (w : world) (cb : bool) :
  match from_stream_hms io (if b then strip_cr text else text) with
  | None => (parse_line io b text w cb).2 = w
  | Some (off, _) =>
      let t := date_tp (w_ctx w) + off in
      ∀ u, ∃ new,
        sessions_of (w_data (parse_line io b text w cb).2) u
          = sessions_of (w_data w) u ++ new
        ∧ Forall (fun s => closed_at t (player_info (w_ctx w)) s u
                           ∧ (0 ≤ s.2 ↔ s.1 ≤ t)) new
  end.
Proof.
  unfold parse_line.
  destruct (from_stream_hms io _) as [[off rest]|]; [|done].
  intros u.
  destruct (parse_tagged_appended rest (date_tp (w_ctx w) + off) w cb u) as (new & E & F).
  exists new. split; [done|].
  eapply Forall_impl; [exact F|].
  intros s Hc. split; [done|]. destruct Hc as [-> _]. lia.
Qed.

(** ** Lines and chunks *)

Lemma split_newline_line l s :
  no_char "010" l = true → split_newline (l +:+ String "010" s) = (l, pieces s).
Proof.
  induction l as [|c l IH].
  - intros _. unfold pieces.
    change ((let '(p, ps) := split_newline s in (EmptyString, p :: ps))
            = (EmptyString, let '(p, ps) := split_newline s in p :: ps)).
    by destruct (split_newline s).
  - intros [Hc Hl]%andb_prop. apply negb_true_iff in Hc.
    change ((let '(p, ps) := split_newline (l +:+ String "010" s) in
             if Ascii.eqb c "010" then (EmptyString, p :: ps) else (String c p, ps))
            = (String c l, pieces s)).
    by rewrite (IH Hl), Hc.
Qed.

Lemma pieces_line l s :
  no_char "010" l = true → pieces (l +:+ newline +:+ s) = l :: pieces s.
Proof.
  intros Hl. change (l +:+ newline +:+ s) with (l +:+ String "010" s).
  unfold pieces at 1. by rewrite split_newline_line.
Qed.

Lemma pieces_chunk_of group :
  Forall (fun l => no_char "010" l = true) group →
  pieces (chunk_of group) = group ++ [EmptyString].
Proof.
  induction 1 as [|l group Hl _ IH]; simpl; [done|].
  by rewrite pieces_line, IH.
Qed.

Lemma foldl_parse_lines_step io ls acc :
  (foldl (parse_lines_step io) acc ls).2 = feed_lines io ls acc.2.
Proof.
  revert acc. induction ls as [|l ls IH]; intros acc; [done|].
  cbn [foldl]. rewrite IH. unfold feed_lines at 2. cbn [foldl].
  unfold parse_lines_step. by destruct (parse_line io true l acc.2 false).
Qed.

Lemma feed_lines_app io ls1 ls2 w :
  feed_lines io (ls1 ++ ls2) w = feed_lines io ls2 (feed_lines io ls1 w).
Proof. unfold feed_lines. apply foldl_app. Qed.

Lemma parse_lines_chunk io group w :
  from_stream_hms io EmptyString = None →
  Forall (fun l => no_char "010" l = true) group →
  (parse_lines io (chunk_of group) w).2 = feed_lines io group w.
Proof.
  intros Hnil Hg. unfold parse_lines.
  rewrite foldl_parse_lines_step, pieces_chunk_of, feed_lines_app by done.
  simpl. unfold feed_lines at 1. simpl. unfold parse_line. simpl. by rewrite Hnil.
Qed.

(** C7. Lines without newline characters, cut into groups of whole lines: one
    [parse_lines] call per group, on the text of the group, ends in the same
    context, store and output as one [parse_line] call per line, from the
    same starting point. The timestamp reader is any one that fails on the
    empty line. *)
Theorem chunked_feed_equals_line_feed (io : chrono_io) (groups : list (list string))
    (w : world) :
  from_stream_hms io EmptyString = None →
  Forall (fun l => no_char "010" l = true) (concat groups) →
  feed_chunks io (chunk_of <$> groups) w = feed_lines io (concat groups) w.
Proof.
  intros Hnil. revert w.
  induction groups as [|g groups IH]; intros w Hall; [done|].
  simpl in Hall. apply Forall_app in Hall as [Hg Hrest].
  simpl. rewrite feed_lines_app.
  unfold feed_chunks in *. cbn [foldl fmap list_fmap].
  rewrite parse_lines_chunk by done. by apply IH.
Qed.

(** C7 at three lines cut into the groups of two, one and none. *)
Lemma chunked_feed_equals_line_feed_witness :
  feed_chunks Chrono.io
    (chunk_of <$> [[Scenario.uuid_line; Scenario.join_line]; [Scenario.leave_line]; []])
    (Scenario.world_with ∅ false)
  = feed_lines Chrono.io
      (concat [[Scenario.uuid_line; Scenario.join_line]; [Scenario.leave_line]; []])
      (Scenario.world_with ∅ false).
Proof.
  apply (chunked_feed_equals_line_feed Chrono.io
           [[Scenario.uuid_line; Scenario.join_line]; [Scenario.leave_line]; []]
           (Scenario.world_with ∅ false)).
  - reflexivity.
  - repeat constructor.
Defined.

(** ** Accepted file names *)

Section FileNames.
Import Enumerator.

Lemma digit_is_not (c a : ascii) :
  IStream.is_digit a = false → IStream.is_digit c = true → Ascii.eqb c a = false.
Proof.
  intros Ha Hc. destruct (Ascii.eqb_spec c a) as [->|]; [congruence | done].
Qed.

Lemma drop_digits_split s :
  ∃ ds, s = ds +:+ drop_digits s ∧ all_digits ds = true.
Proof.
  induction s as [|c s (ds & E & Hd)]; simpl.
  - by exists EmptyString.
  - destruct (IStream.is_digit c) eqn:Hc.
    + exists (String c ds). split.
      * change (String c s = String c (ds +:+ drop_digits s)). by f_equal.
      * simpl. by rewrite Hc, Hd.
    + by exists EmptyString.
Qed.

Lemma drop_digits_app ds c r :
  all_digits ds = true → IStream.is_digit c = false →
  drop_digits (ds +:+ String c r) = String c r.
Proof.
  intros Hd Hc. induction ds as [|a ds IH]; simpl in *.
  - by rewrite Hc.
  - apply andb_prop in Hd as [-> Hd]. by apply IH.
Qed.

Lemma from_last_dot_app s e r :
  from_last_dot e = Some r → from_last_dot (s +:+ e) = Some r.
Proof.
  intros He. induction s as [|c s IH]; simpl; [done|]. by rewrite IH.
Qed.

(** A name that starts with a digit has the extension of its last period. *)
Lemma extension_dated c s e r :
  IStream.is_digit c = true → from_last_dot e = Some r →
  extension (String c (s +:+ e)) = r.
Proof.
  intros Hc He. unfold extension.
  assert (Hdot : Ascii.eqb c "." = false) by (by apply digit_is_not).
  cbn [String.eqb]. rewrite Hdot. cbn [andb orb].
  change (String c (s +:+ e)) with (String c s +:+ e).
  by rewrite (from_last_dot_app _ _ _ He).
Qed.

Lemma bad_log_name_false skip name gz :
  bad_log_name skip (name, gz) = false →
  (skip = false ∧ name = "latest.log")
  ∨ ∃ date seq,
      name = date +:+ "-" +:+ seq +:+ (if gz then ".log.gz" else ".log")
      ∧ date_shape date = true ∧ seq ≠ EmptyString ∧ all_digits seq = true.
Proof.
  unfold bad_log_name.
  destruct (negb skip && String.eqb name "latest.log") eqn:H1.
  { intros _. left. apply andb_prop in H1 as [Hs Hn].
    apply negb_true_iff in Hs. by apply String.eqb_eq in Hn. }
  destruct (forallb _ _) eqn:Hdig; [|done].
  destruct (forallb _ [4; 7; 10]%nat) eqn:Hdash; [|done].
  cbn [negb]. intros Hext%negb_false_iff%String.eqb_eq. right.
  destruct name as [|c0 [|c1 [|c2 [|c3 [|c4 [|c5 [|c6 [|c7 [|c8 [|c9 [|c10 [|c11 rest]]]]]]]]]]]].
  all: unfold char_at in Hdig, Hdash; cbn [forallb String.get] in Hdig, Hdash.
  all: rewrite ?andb_true_r in Hdig, Hdash.
  1-12: exfalso; change (IStream.is_digit "000") with false in Hdig;
        rewrite ?andb_false_r in Hdig; discriminate.
  cbn [skip_chars] in Hext.
  do 8 (apply andb_prop in Hdig as [? Hdig]).
  apply andb_prop in Hdash as [E4 Hdash]. apply andb_prop in Hdash as [E7 E10].
  apply Ascii.eqb_eq in E4. apply Ascii.eqb_eq in E7. apply Ascii.eqb_eq in E10.
  subst c4 c7 c10.
  destruct (drop_digits_split rest) as (ds & Erest & Hds). rewrite Hext in Erest.
  exists (String c0 (String c1 (String c2 (String c3 (String "-" (String c5
            (String c6 (String "-" (String c8 (String c9 EmptyString)))))))))),
         (String c11 ds).
  split; [|split; [|split]].
  - simpl. by rewrite Erest.
  - unfold date_shape.
    repeat match goal with
           | H : IStream.is_digit _ = true |- _ => rewrite H; clear H
           end.
    reflexivity.
  - done.
  - simpl. rewrite Hds.
    repeat match goal with
           | H : IStream.is_digit _ = true |- _ => rewrite H; clear H
           end.
    reflexivity.
Qed.

Lemma dated_name_kept (skip : bool) (date seq : string) (gz : bool) :
  date_shape date = true → seq ≠ EmptyString → all_digits seq = true →
  bad_log_name skip (date +:+ "-" +:+ seq +:+ (if gz then ".log.gz" else ".log"), gz)
    = false
  ∧ extension (date +:+ "-" +:+ seq +:+ (if gz then ".log.gz" else ".log"))
    = (if gz then ".gz" else ".log")%string.
Proof.
  intros Hdate Hseq Hdig.
  destruct date as [|y1 [|y2 [|y3 [|y4 [|s1 [|m1 [|m2 [|s2 [|d1 [|d2 [|x r]]]]]]]]]]];
    try discriminate Hdate.
  destruct seq as [|c11 ds]; [done|].
  unfold date_shape in Hdate.
  do 9 (apply andb_prop in Hdate as [Hdate ?]).
  apply andb_prop in Hdig as [Hc11 Hds].
  repeat match goal with
         | H : Ascii.eqb _ _ = true |- _ => apply Ascii.eqb_eq in H; subst
         end.
  set (ext := if gz then ".log.gz" else ".log").
  change (String y1 _ +:+ "-" +:+ String c11 ds +:+ ext)
    with (String y1 (String y2 (String y3 (String y4 (String "-" (String m1 (String m2
            (String "-" (String d1 (String d2 (String "-" (String c11 (ds +:+ ext))))))))))))).
  assert (Hext : ∃ r, ext = String "." r) by (destruct gz; eauto).
  destruct Hext as [r Hext].
  split.
  - unfold bad_log_name.
    cbn [String.eqb]. rewrite (digit_is_not y1 "l") by done.
    rewrite ?andb_false_l, andb_false_r.
    unfold char_at. cbn [forallb String.get skip_chars].
    repeat match goal with
           | H : IStream.is_digit _ = true |- _ => rewrite H; clear H
           end.
    cbn [andb negb Ascii.eqb Bool.eqb].
    rewrite Hext, drop_digits_app by done. rewrite <- Hext.
    unfold ext. destruct gz; reflexivity.
  - apply (extension_dated y1
             (String y2 (String y3 (String y4 (String "-" (String m1 (String m2
                (String "-" (String d1 (String d2 (String "-" (String c11 ds)))))))))))
             ext); [done|].
    unfold ext. destruct gz; reflexivity.
Qed.

Lemma candidates_spec entries name gz :
  (name, gz) ∈ candidates entries ↔
  mk_entry name true ∈ entries
  ∧ (extension name = ".gz" ∨ extension name = ".log")
  ∧ gz = String.eqb (extension name) ".gz".
Proof.
  unfold candidates. rewrite list_elem_of_omap. split.
  - intros ([n reg] & Hin & Hf). simpl in Hf.
    destruct reg; [|done].
    destruct (_ || _) eqn:Hext; [|done].
    injection Hf as -> ->. split; [done|]. split; [|done].
    apply orb_prop in Hext as [H|H]; apply String.eqb_eq in H; auto.
  - intros (Hin & Hext & ->). exists (mk_entry name true). split; [done|]. simpl.
    destruct Hext as [-> | ->]; reflexivity.
Qed.

(** C8, as stated, fails: a dated name without sequence number is dropped. *)
Lemma date_without_sequence_is_dropped :
  enumerate false [mk_entry "2024-01-01.log" true] = []
  ∧ enumerate false [mk_entry "2024-01-01-1.log" true] = [("2024-01-01-1.log", false)].
Proof. split; vm_compute; reflexivity. Qed.

(** C8, amended. Of the regular files of the directory the enumerator
    keeps exactly those named [latest.log] (unless the live-tail file is
    skipped) and those named [YYYY-MM-DD-N.log] or [YYYY-MM-DD-N.log.gz]
    with a fixed-width date and a sequence number [N] of at least one
    digit, which is mandatory. Every other name, [YYYY-MM-DD.log]
    included, is dropped by the filter, which prints nothing and raises
    nothing. *)
Theorem enumerator_keeps_exactly (skip : bool) (entries : list dir_entry)
    (name : string) :
  (∃ gz, (name, gz) ∈ enumerate skip entries)
  ↔ mk_entry name true ∈ entries
    ∧ ((skip = false ∧ name = "latest.log") ∨ dated_name name).
Proof.
  unfold enumerate. split.
  - intros (gz & [Hbad Hc]%list_elem_of_filter).
    apply candidates_spec in Hc as (Hin & _ & _). split; [done|].
    apply bad_log_name_false in Hbad as [?|(date & seq & -> & Hd & Hs & Hdig)];
      [by left|].
    right. exists date, seq, (if gz then ".log.gz" else ".log").
    repeat split; try done. destruct gz; auto.
  - intros [Hin [[-> ->]|(date & seq & ext & -> & Hd & Hs & Hdig & Hext)]].
    + exists false. apply list_elem_of_filter. split; [reflexivity|].
      apply candidates_spec. split; [done|]. split; [by right | reflexivity].
    + assert (Hgz : ∃ gz : bool, ext = if gz then ".log.gz" else ".log").
      { destruct Hext as [-> | ->]; [by exists false | by exists true]. }
      destruct Hgz as [gz ->].
      destruct (dated_name_kept skip date seq gz Hd Hs Hdig) as [Hbad Hx].
      exists gz. apply list_elem_of_filter. split; [done|].
      apply candidates_spec. split; [done|]. rewrite Hx.
      destruct gz; split; auto.
Qed.

End FileNames.

(** ** The pending rename cookie *)

Section Cookie.
Import Watcher.

(** C9, as stated, fails: the cookie buffered for [latest.log] survives an
    event on another file, and the renamed-to notification that follows is
    correlated with it. *)
Lemma cookie_survives_other_file :
  let ctx1 := (Scenario.poll_event Scenario.ev_moved_from
                 (file_watcher_init "latest.log")).1 in
  let ctx2 := (Scenario.poll_event Scenario.ev_other_file ctx1).1 in
  let r3 := (Scenario.poll_event Scenario.ev_moved_to ctx2).2 in
  pending_cookie ctx1 = 7%N
  ∧ matches_pending ctx1 Scenario.ev_other_file = false
  ∧ pending_cookie ctx2 = 7%N
  ∧ state r3 = 1 ∧ moved_to r3 = Some "2024-01-01-1.log".
Proof. vm_compute. repeat split. Qed.

Lemma handle_event_cookie alloc_ok ctx e :
  pending_cookie (handle_event alloc_ok ctx e).1 =
  if matches_pending ctx e then 0%N
  else if negb (strs_eq ctx e) then pending_cookie ctx
  else if has_bit (mask e) IN_MOVED_FROM then cookie e
  else 0%N.
Proof.
  unfold handle_event, matches_pending.
  destruct (_ && _ && _); [by destruct alloc_ok|].
  destruct (negb (strs_eq ctx e)); [done|].
  destruct (has_bit (mask e) IN_MOVED_FROM); [done|].
  simpl. by destruct (_ && _ && _).
Qed.

(** C9, amended. What a call of [file_watcher_poll] does to the pending
    cookie: without an event to handle it stays; the matching renamed-to
    resets it; an event that names another file leaves it as it is; a
    renamed-from of the watched name replaces it by the cookie of that event;
    every other event of the watched name resets it. So a pending cookie is
    dropped by events of the watched file only, and a later renamed-to is
    correlated exactly when it carries the cookie that is pending then. *)
Theorem pending_cookie_after_poll (os : os_response) (alloc_ok : bool)
    (ctx : file_watcher_ctx) :
  pending_cookie (file_watcher_poll os alloc_ok ctx).1 =
  match next_event os ctx with
  | None => pending_cookie ctx
  | Some e =>
      if matches_pending ctx e then 0%N
      else if negb (strs_eq ctx e) then pending_cookie ctx
      else if has_bit (mask e) IN_MOVED_FROM then cookie e
      else 0%N
  end.
Proof.
  unfold file_watcher_poll, next_event.
  destruct (has_value ctx); [|done]. cbn [negb].
  destruct (read_data ctx) as [|e rest] eqn:Hbuf.
  - destruct os as [| |e rest]; [done | done |].
    by rewrite handle_event_cookie.
  - by rewrite handle_event_cookie.
Qed.

End Cookie.

(** ** The rotation scenario *)

(** C2, as stated, fails: the session recorded for Alice lasts minus one
    hour, not twenty-three hours. *)
Lemma rotation_session_is_not_23h :
  match Backfill.parse_logs Chrono.io false true
          [Scenario.first_file; Scenario.second_file] 0 with
  | Some (w, _) =>
      sessions_of (w_data w) Scenario.alice_uuid = [(Scenario.day1 + 36000, -3600)]
      ∧ (Scenario.day1 + 36000, 82800) ∉ sessions_of (w_data w) Scenario.alice_uuid
  | None => False
  end.
Proof.
  vm_compute. split; [reflexivity|].
  intros H. apply list_elem_of_singleton in H. discriminate H.
Qed.

(** The rotation scenario, run: backfill over [2024-01-01-1.log], which
    holds a join at 10:00:00 and no leave, and then [2024-01-01-2.log] of
    the same date, whose only line is stamped 09:00:00 and is no join or
    leave. The session recorded for that identity starts at 10:00:00 of that
    day and lasts 09:00:00 minus 10:00:00, that is minus one hour; the
    warning for that player carries the instant 09:00:00 of that day, and
    the player is offline afterwards. This holds for each template argument
    and whatever the clock says at the end. *)
Lemma rotation_scenario_run (skip_latest_log save_ctx : bool) (now : Z) :
  ∃ w read_files,
    Backfill.parse_logs Chrono.io skip_latest_log save_ctx
      [Scenario.first_file; Scenario.second_file] now = Some (w, read_files)
    ∧ sessions_of (w_data w) Scenario.alice_uuid
      = [(Scenario.day1 + 36000, (Scenario.day1 + 32400) - (Scenario.day1 + 36000))]
    ∧ w_out w = [WarnNeverLeft "Alice" "2024-01-01-2.log" (Scenario.day1 + 32400)]
    ∧ player_info (w_ctx w) !! "Alice"
      = Some {| uuid := Some Scenario.alice_uuid; join_time := None |}.
Proof.
  destruct skip_latest_log, save_ctx; vm_compute; eexists _, _; repeat split.
Qed.

(** ** The backfill loop ends *)

Section BackfillLoop.
Import Backfill.
Variables (io : chrono_io) (skip_latest_log : bool).

Lemma next_nonempty_Some pending n s rest m :
  next_nonempty pending n = (Some (s, rest), m) →
  s ≠ EmptyString ∧ (length rest < length pending)%nat.
Proof.
  revert n. induction pending as [|l pending IH]; intros n; simpl; [done|].
  destruct l as [|c l].
  - intros H. apply IH in H as [? ?]. split; [done | lia].
  - intros [= <- <- <-]. split; [done | lia].
Qed.

Lemma drop_next {A : Type} (l : list A) (i : nat) (x : A) (rest : list A) :
  drop i l = x :: rest → drop (S i) l = rest.
Proof.
  intros H. replace (S i) with (i + 1)%nat by lia.
  by rewrite <- drop_drop, H.
Qed.

Lemma open_next_unread rest rc out s b rc' out' :
  drop (path_ind rc) (paths rc) = rest →
  open_next io skip_latest_log rest rc out = ((s, b), rc', out') →
  s ≠ EmptyString → (unread rc' < unread_files rest)%nat.
Proof.
  revert rc out s b rc' out'.
  induction rest as [|f rest IH]; intros rc out s b rc' out' Hdrop; simpl.
  { intros [= <- _ _ _]. done. }
  apply drop_next in Hdrop.
  destruct (if negb skip_latest_log && String.eqb (lf_name f) "latest.log"
            then Some (lf_mdate f) else from_stream_ymd io (lf_name f)) as [d|].
  - destruct (lf_body f) as [text|] eqn:Hbody; unfold lines_in; rewrite Hbody.
    + destruct (next_nonempty (getlines text) 0) as [[[l pending']|] n] eqn:Hn.
      * intros [= <- _ <- _] _. apply next_nonempty_Some in Hn as [_ Hlt].
        unfold unread. simpl. rewrite Hdrop. lia.
      * destruct (open_next _ _ _ _ _) as [[[s1 b1] rc1] out1] eqn:E.
        intros [= <- _ <- _] Hs. apply IH in E; [lia | done | done].
    + destruct (lf_gz f).
      * intros E Hs. apply IH in E; [lia | done | done].
      * destruct (open_next _ _ _ _ _) as [[[s1 b1] rc1] out1] eqn:E.
        intros [= <- _ <- _] Hs. apply IH in E; [lia | done | done].
  - intros E Hs. apply IH in E; [lia | done | done].
Qed.

Lemma get_next_line_unread rc out s b rc' out' :
  get_next_line io skip_latest_log rc out = ((s, b), rc', out') →
  s ≠ EmptyString → (unread rc' < unread rc)%nat.
Proof.
  unfold get_next_line. destruct (fin rc) as [pending|] eqn:Hfin.
  - destruct (next_nonempty pending (rc_line rc)) as [[[l pending']|] n] eqn:Hn.
    + intros [= <- _ <- _] _. apply next_nonempty_Some in Hn as [_ Hlt].
      unfold unread. simpl. rewrite Hfin. lia.
    + intros E Hs. apply open_next_unread in E; [|done|done].
      unfold unread at 2. lia.
  - intros E Hs. apply open_next_unread in E; [|done|done].
    unfold unread at 2. rewrite Hfin. lia.
Qed.

Lemma parse_logs_loop_total fuel st :
  (unread (ls_rc st) < fuel)%nat → is_Some (parse_logs_loop io skip_latest_log fuel st).
Proof.
  revert st. induction fuel as [|fuel IH]; intros st Hlt; [lia|].
  simpl. destruct (get_next_line _ _ _ _) as [[[s b] rc'] out'] eqn:E.
  destruct s as [|c s]; [by eexists|].
  apply get_next_line_unread in E; [|done].
  destruct (parse_line _ _ _ _ _) as [r w]. apply IH. simpl. lia.
Qed.

(** The bound computed by [parse_logs] is enough: the model always yields a
    result. *)
Lemma parse_logs_total save_ctx files now :
  is_Some (parse_logs io skip_latest_log save_ctx files now).
Proof.
  unfold parse_logs.
  destruct (parse_logs_loop_total (loop_bound files)
              {| ls_rc := {| fin := None; paths := files; path_ind := 0;
                             rc_date_tp := 0; rc_line := 0 |};
                 ls_world := {| w_ctx := empty_ctx; w_data := ∅; w_out := [] |};
                 ls_clear_before := false; ls_last_tp := 0; ls_read_files := [] |})
    as [st ->].
  { unfold loop_bound, unread. cbn [ls_rc fin path_ind paths]. rewrite drop_0. lia. }
  simpl. destruct save_ctx; by eexists.
Qed.

Lemma parse_logs_loop_store_ok fuel st st' :
  parse_logs_loop io skip_latest_log fuel st = Some st' →
  store_ok (w_data (ls_world st)) → store_ok (w_data (ls_world st')).
Proof.
  revert st. induction fuel as [|fuel IH]; intros st; [done|].
  simpl. destruct (get_next_line _ _ _ _) as [[[s b] rc'] out'].
  destruct s as [|c s]; [by intros [= <-]|].
  destruct (parse_line _ _ _ _ _) as [r w] eqn:E.
  intros Hloop Hok. apply IH in Hloop; [done|]. simpl.
  apply (f_equal snd) in E. simpl in E. subst w.
  by apply parse_line_store_ok.
Qed.

(** The invariant of the store holds for what a backfill returns. *)
Lemma parse_logs_store_ok save_ctx files now w read_files :
  parse_logs io skip_latest_log save_ctx files now = Some (w, read_files) →
  store_ok (w_data w).
Proof.
  unfold parse_logs.
  destruct (parse_logs_loop _ _ _ _) as [st|] eqn:E; [|done].
  apply parse_logs_loop_store_ok in E; [|intros u e; simpl; by rewrite lookup_empty].
  simpl. destruct save_ctx; intros [= <- _]; [done|].
  by apply flush_store_ok.
Qed.

End BackfillLoop.

(** * Properties of the further code *)

(** ** Identities as text *)

Lemma hex_digit_to_uint64_cases c :
  (is_hex c = true ∧ (hex_digit_to_uint64 c <= 15)%N)
  ∨ (is_hex c = false ∧ hex_digit_to_uint64 c = (two64 - 1)%N).
Proof.
  unfold is_hex, hex_digit_to_uint64.
  destruct ((48 <=? N_of_ascii c) && (N_of_ascii c <=? 57))%N eqn:H1.
  { left. split; [done|]. apply andb_prop in H1 as [_ H%N.leb_le]. lia. }
  destruct ((97 <=? N_of_ascii c) && (N_of_ascii c <=? 102))%N eqn:H2.
  { left. split; [done|]. apply andb_prop in H2 as [_ H%N.leb_le]. lia. }
  destruct ((65 <=? N_of_ascii c) && (N_of_ascii c <=? 70))%N eqn:H3.
  { left. split; [done|]. apply andb_prop in H3 as [_ H%N.leb_le]. lia. }
  by right.
Qed.

Lemma hex_digit_value n :
  (n < 16)%N → hex_digit_to_uint64 (hex_digit n) = n.
Proof.
  intros Hn.
  assert (H : n ∈ [0; 1; 2; 3; 4; 5; 6; 7; 8; 9; 10; 11; 12; 13; 14; 15]%N).
  { destruct n as [|p]; [set_solver|].
    do 4 (destruct p as [p|p|]; try lia; try set_solver). }
  repeat (apply elem_of_cons in H as [->|H]; [reflexivity|]).
  by apply elem_of_nil in H.
Qed.

Lemma nibble_lt x i : (nibble x i < 16)%N.
Proof.
  unfold nibble. change 15%N with (N.ones 4). rewrite N.land_ones.
  apply N.mod_lt. done.
Qed.

Lemma shifted_digit_small h i :
  (h <= 15)%N → (i <= 15)%N →
  (N.shiftl h (i * 4) mod two64 = h * 2 ^ (i * 4) ∧ h * 2 ^ (i * 4) < two64 - 1)%N.
Proof.
  intros Hh Hi. rewrite N.shiftl_mul_pow2.
  assert (Hp : (2 ^ (i * 4) <= 2 ^ 60)%N) by (apply N.pow_le_mono_r; lia).
  assert (Hb : (h * 2 ^ (i * 4) <= 15 * 2 ^ 60)%N) by (apply N.mul_le_mono; lia).
  change (15 * 2 ^ 60)%N with 17293822569102704640%N in Hb.
  unfold two64. change (2 ^ 64)%N with 18446744073709551616%N.
  split; [apply N.mod_small|]; lia.
Qed.

Lemma parse_uuid_half_format x k i acc :
  (i + N.of_nat k = 16)%N → (x < two64)%N → acc = (x mod 2 ^ (i * 4))%N →
  parse_uuid_half (map (fun j => hex_digit (nibble x j)) (index_run i k)) i acc = Some x.
Proof.
  revert i acc. induction k as [|k IH]; intros i acc Hik Hx ->; simpl.
  - f_equal. assert (i = 16%N) as -> by lia. by apply N.mod_small.
  - rewrite hex_digit_value by apply nibble_lt.
    pose proof (nibble_lt x i) as Hn.
    destruct (shifted_digit_small (nibble x i) i) as [-> Hlt]; [lia | lia |].
    rewrite (proj2 (N.eqb_neq _ _)) by lia.
    apply IH; [lia | done |].
    replace ((i + 1) * 4)%N with (i * 4 + 4)%N by lia.
    rewrite N.pow_add_r. change (2 ^ 4)%N with 16%N.
    rewrite N.Div0.mod_mul_r.
    unfold nibble. change 15%N with (N.ones 4). rewrite N.land_ones, N.shiftr_div_pow2.
    change (2 ^ 4)%N with 16%N.
    rewrite (N.mul_comm (2 ^ (i * 4)) (_ mod 16)).
    apply N.mod_small.
    rewrite (N.mul_comm (_ mod 16)), <- N.Div0.mod_mul_r.
    eapply N.le_lt_trans; [apply N.Div0.mod_le | done].
Qed.

Lemma parse_uuid_layout cs1 cs2 :
  length cs1 = 16%nat → length cs2 = 16%nat →
  parse_uuid (uuid_layout cs1 cs2) =
  match parse_uuid_half cs1 0 0 with
  | None => None
  | Some a => match parse_uuid_half cs2 0 0 with
              | None => None
              | Some b => Some (a, b)
              end
  end.
Proof.
  intros H1 H2.
  do 16 (destruct cs1 as [|? cs1]; [discriminate|]). destruct cs1; [|discriminate].
  do 16 (destruct cs2 as [|? cs2]; [discriminate|]). destruct cs2; [|discriminate].
  reflexivity.
Qed.

Lemma format_uuid_layout u :
  format_uuid u =
  uuid_layout (map (fun j => hex_digit (nibble u.1 j)) (index_run 0 16))
              (map (fun j => hex_digit (nibble u.2 j)) (index_run 0 16)).
Proof. reflexivity. Qed.

(** X1. Printing an identity and parsing the text gives the identity back:
    [format] writes 36 characters which [parse_uuid] reads as the same two
    64-bit halves. *)
Theorem uuid_text_round_trip (u : uuid_t) :
  (u.1 < two64)%N → (u.2 < two64)%N →
  String.length (format_uuid u) = 36%nat ∧ parse_uuid (format_uuid u) = Some u.
Proof.
  intros H1 H2. split; [reflexivity|].
  rewrite format_uuid_layout, parse_uuid_layout by reflexivity.
  rewrite (parse_uuid_half_format u.1 16 0 0), (parse_uuid_half_format u.2 16 0 0);
    try done; try (symmetry; apply N.mod_1_r).
  by destruct u.
Qed.

(** The round trip at the identity of the worked scenarios. *)
Lemma uuid_text_round_trip_witness :
  String.length (format_uuid Scenario.alice_uuid) = 36%nat
  ∧ parse_uuid (format_uuid Scenario.alice_uuid) = Some Scenario.alice_uuid.
Proof.
  apply (uuid_text_round_trip Scenario.alice_uuid); reflexivity.
Defined.

Lemma shifted_invalid_digit i :
  (1 <= i)%N → (i <= 15)%N →
  (N.shiftl (two64 - 1) (i * 4) mod two64 ≠ two64 - 1)%N.
Proof.
  intros H1 H2.
  assert (H : i ∈ [1; 2; 3; 4; 5; 6; 7; 8; 9; 10; 11; 12; 13; 14; 15]%N).
  { destruct i as [|p]; [lia|].
    do 4 (destruct p as [p|p|]; try lia; try set_solver). }
  repeat (apply elem_of_cons in H as [->|H]; [by vm_compute|]).
  by apply elem_of_nil in H.
Qed.

(** Behind the first digit of a half nothing is rejected. *)
Lemma parse_uuid_half_tail digits i acc :
  (1 <= i)%N → (i + N.of_nat (length digits) <= 16)%N →
  is_Some (parse_uuid_half digits i acc).
Proof.
  revert i acc. induction digits as [|c digits IH]; intros i acc H1 H2; simpl; [by eexists|].
  simpl in H2.
  assert (Hval : (N.shiftl (hex_digit_to_uint64 c) (i * 4) mod two64 ≠ two64 - 1)%N).
  { destruct (hex_digit_to_uint64_cases c) as [[_ Hh]|[_ ->]].
    - destruct (shifted_digit_small (hex_digit_to_uint64 c) i) as [-> Hlt]; lia.
    - apply shifted_invalid_digit; lia. }
  rewrite (proj2 (N.eqb_neq _ _)) by done. apply IH; lia.
Qed.

Lemma parse_uuid_half_head c digits :
  length digits = 15%nat →
  is_Some (parse_uuid_half (c :: digits) 0 0) ↔ is_hex c = true.
Proof.
  intros Hlen. simpl. rewrite N.shiftl_0_r.
  destruct (hex_digit_to_uint64_cases c) as [[Hc Hh]|[Hc ->]]; rewrite Hc.
  - rewrite N.mod_small by (unfold two64; change (2 ^ 64)%N with 18446744073709551616%N; lia).
    rewrite (proj2 (N.eqb_neq _ _))
      by (unfold two64; change (2 ^ 64)%N with 18446744073709551616%N; lia).
    split; [done|]. intros _. apply parse_uuid_half_tail; [lia|]. rewrite Hlen. lia.
  - change ((two64 - 1) mod two64 =? two64 - 1)%N with true.
    split; [by intros [? ?] | done].
Qed.

(** X2. What [parse_uuid] checks of a text of 36 characters: the four
    dashes, and that the first digit of each half (characters 0 and 19) is a
    hexadecimal digit. The comparison [val == -1] is made after the shift by
    [4 i] bits, so it cannot hold for any digit behind the first one of a
    half: every other character is taken whatever it is. *)
Theorem parse_uuid_checks_dashes_and_two_digits (str : string) :
  String.length str = 36%nat →
  is_Some (parse_uuid str)
  ↔ forallb (fun i => Ascii.eqb (char_at str i) "-") [8; 13; 18; 23]%nat = true
    ∧ is_hex (char_at str 0) = true ∧ is_hex (char_at str 19) = true.
Proof.
  intros Hlen.
  do 36 (destruct str as [|? str]; [discriminate|]). destruct str; [|discriminate].
  unfold parse_uuid. destruct (forallb _ _) eqn:Hd.
  - match goal with
    | |- context [parse_uuid_half (firstn 16 ?l) 0 0] =>
        set (arr := l)
    end.
    cbv in arr. subst arr. cbn [firstn skipn]. unfold char_at. cbn [String.get].
    match goal with
    | |- context [parse_uuid_half (?c :: ?r) 0 0] =>
        pose proof (parse_uuid_half_head c r eq_refl) as Hh1
    end.
    match goal with
    | |- context [match parse_uuid_half ?l1 0 0 with
                  | Some _ => match parse_uuid_half (?c :: ?r) 0 0 with _ => _ end
                  | None => _ end] =>
        pose proof (parse_uuid_half_head c r eq_refl) as Hh2
    end.
    destruct (parse_uuid_half _ 0 0) as [x1|] eqn:E1.
    + destruct (parse_uuid_half _ 0 0) as [x2|] eqn:E2 in |- *.
      * split; [|by eexists]. intros _. split; [done|]. split.
        -- apply Hh1. by eexists.
        -- apply Hh2. by eexists.
      * split; [by intros [? ?]|]. intros (_ & _ & H). apply Hh2 in H as [? ?]. congruence.
    + split; [by intros [? ?]|]. intros (_ & H & _). apply Hh1 in H as [? ?]. congruence.
  - split; [by intros [? ?] | by intros [? _]].
Qed.

(** A text whose digits are not hexadecimal, but for two, is accepted. *)
Lemma parse_uuid_checks_dashes_and_two_digits_witness :
  is_Some (parse_uuid "0zzzzzzz-zzzz-zzzz-0zzz-zzzzzzzzzzzz")
  ↔ forallb (fun i => Ascii.eqb (char_at "0zzzzzzz-zzzz-zzzz-0zzz-zzzzzzzzzzzz" i) "-")
      [8; 13; 18; 23]%nat = true
    ∧ is_hex (char_at "0zzzzzzz-zzzz-zzzz-0zzz-zzzzzzzzzzzz" 0) = true
    ∧ is_hex (char_at "0zzzzzzz-zzzz-zzzz-0zzz-zzzzzzzzzzzz" 19) = true.
Proof.
  apply (parse_uuid_checks_dashes_and_two_digits "0zzzzzzz-zzzz-zzzz-0zzz-zzzzzzzzzzzz").
  reflexivity.
Defined.

(** ** Invariants of the store *)

Section StoreInvariant.
Variable P : log_data_t → Prop.
Hypothesis P_close : ∀ data u name j t, P data → P (close_session data u name j t).

Lemma flush_invariant warn w t :
  P (w_data w) → P (w_data (clear_all_players warn w t).2).
Proof.
  intros HP. rewrite clear_all_players_unfold. simpl.
  apply (foldl_clear_ind warn _ t (fun st => P st.1.1.2)); [done|].
  intros st e _ Hst.
  destruct (clear_player_cases warn (cur_filename (w_ctx w)) t st e)
    as [[-> _]|(u & j & _ & _ & ->)]; [done|].
  simpl. by apply P_close.
Qed.

Lemma message_effect_invariant t w w' :
  message_effect t w w' → P (w_data w) → P (w_data w').
Proof.
  intros [] HP; simpl; try done.
  - by apply flush_invariant.
  - unfold player_left.
    destruct (uuid _) as [u|]; [|done].
    destruct (join_time _) as [j|]; [|done].
    simpl. by apply P_close.
Qed.

Lemma parse_line_invariant io b text w cb :
  P (w_data w) → P (w_data (parse_line io b text w cb).2).
Proof.
  intros HP. unfold parse_line.
  destruct (from_stream_hms io _) as [[off rest]|]; [|done].
  destruct (parse_tagged_effect rest (date_tp (w_ctx w) + off) w cb) as [->|He]; [done|].
  eapply message_effect_invariant; [exact He|].
  unfold flushed_before. destruct cb; [by apply flush_invariant | done].
Qed.

Lemma parse_lines_invariant io text w :
  P (w_data w) → P (w_data (parse_lines io text w).2).
Proof.
  unfold parse_lines. generalize false. revert w.
  induction (pieces text) as [|p ps IH]; intros w acc HP; [done|].
  cbn [foldl]. unfold parse_lines_step at 2. simpl.
  destruct (parse_line io true p w false) as [r w'] eqn:E.
  apply IH. apply (f_equal snd) in E. simpl in E. subst w'.
  by apply parse_line_invariant.
Qed.

Lemma run_invariant io ops w :
  P (w_data w) → P (w_data (run io ops w)).
Proof.
  unfold run. revert w. induction ops as [|o ops IH]; intros w HP; [done|].
  cbn [foldl]. apply IH. destruct o; simpl.
  - by apply parse_line_invariant.
  - by apply parse_lines_invariant.
  - by apply flush_invariant.
  - done.
Qed.

End StoreInvariant.

Lemma no_adjacent_dup_snoc names name :
  no_adjacent_dup names = true → last_is names name = false →
  no_adjacent_dup (names ++ [name]) = true.
Proof.
  unfold last_is. induction names as [|a [|b names] IH]; intros Hn Hl; [done| |].
  - simpl in *. rewrite andb_true_r. apply negb_true_iff.
    apply bool_decide_eq_false in Hl. by apply String.eqb_neq.
  - change (no_adjacent_dup ((a :: b :: names) ++ [name]))
      with (negb (String.eqb a b) && no_adjacent_dup ((b :: names) ++ [name])).
    change (no_adjacent_dup (a :: b :: names))
      with (negb (String.eqb a b) && no_adjacent_dup (b :: names)) in Hn.
    apply andb_prop in Hn as [-> Hn]. apply IH; [done|].
    by rewrite last_cons_cons in Hl.
Qed.

Lemma close_session_wf data u name j t :
  store_wf data → store_wf (close_session data u name j t).
Proof.
  intros Hwf u' e'. unfold close_session.
  destruct (default empty_entry (data !! u)) as [names [ps tot]] eqn:E.
  destruct (decide (u = u')) as [->|Hne]; [|rewrite lookup_insert_ne by done; apply Hwf].
  rewrite lookup_insert_eq. intros [= <-]. unfold entry_wf. simpl.
  assert (Hold : names = [] ∧ ps = [] ∨ entry_wf (names, (ps, tot))).
  { destruct (data !! u') as [e|] eqn:El; simpl in E.
    - right. subst e. by apply (Hwf u').
    - left. by injection E as <- <- <-. }
  rewrite length_app. simpl.
  destruct Hold as [[-> ->]|(Hne & Hdup & Hlen)].
  { simpl. repeat split; (done || lia). }
  simpl in *. destruct (last_is names name) eqn:Hl.
  - repeat split; (done || lia).
  - repeat split.
    + by destruct names.
    + by apply no_adjacent_dup_snoc.
    + rewrite length_app. simpl. lia.
    + rewrite length_app. simpl. lia.
Qed.

(** X3. Starting from an empty store, after any sequence of [parse_line]
    calls, [parse_lines] calls, flushes and changes of file, every entry of
    the store has at least one session and at least one display name, no more
    names than sessions, and no name twice in a row. *)
Theorem display_names_never_repeat (io : chrono_io) (ops : list op) (ctx : parse_ctx_t)
    (out : list message) :
  store_wf (w_data (run io ops {| w_ctx := ctx; w_data := ∅; w_out := out |})).
Proof.
  apply (run_invariant store_wf).
  - intros. by apply close_session_wf.
  - intros u e. simpl. by rewrite lookup_empty.
Qed.

(** ** The flag [player_join_left] *)

Lemma flush_nobody warn w t :
  (clear_all_players warn w t).1 = false → (clear_all_players warn w t).2 = w.
Proof.
  rewrite clear_all_players_unfold. simpl.
  set (st0 := (player_info (w_ctx w), w_data w, w_out w, false)).
  assert (H : (foldl (clear_player warn (cur_filename (w_ctx w)) t) st0
                 (map_to_list (player_info (w_ctx w)))).2 = false →
              foldl (clear_player warn (cur_filename (w_ctx w)) t) st0
                 (map_to_list (player_info (w_ctx w))) = st0).
  { apply (foldl_clear_ind warn _ t (fun st => st.2 = false → st = st0)); [done|].
    intros st e _ Hst.
    destruct (clear_player_cases warn (cur_filename (w_ctx w)) t st e)
      as [[-> _]|(u & j & _ & _ & ->)]; [done|].
    simpl. discriminate. }
  intros Hany. rewrite (H Hany). simpl.
  destruct w as [[] ? ?]. reflexivity.
Qed.

Lemma join_of_insert_same (pi : player_map) name info other :
  join_time info = join_of pi name →
  join_of (<[name := info]> pi) other = join_of pi other.
Proof.
  intros Hj. unfold join_of.
  destruct (decide (name = other)) as [->|Hne].
  - by rewrite lookup_insert_eq.
  - by rewrite lookup_insert_ne.
Qed.

Lemma player_left_quiet t name w :
  (player_left t name w).1 = false →
  w_data (player_left t name w).2 = w_data w
  ∧ ∀ other, join_of (player_info (w_ctx (player_left t name w).2)) other
             = join_of (player_info (w_ctx w)) other.
Proof.
  unfold player_left.
  destruct (uuid _) as [u|] eqn:Hu.
  - destruct (join_time _) as [j|] eqn:Hj; [done|]. simpl. intros _. split; [done|].
    intros other. by apply join_of_insert_same.
  - simpl. intros _. split; [done|]. intros other. by apply join_of_insert_same.
Qed.

Ltac split_message_keep :=
  repeat match goal with
    | |- context [IStream.get_string ?s ?o] =>
        destruct (IStream.get_string s o) as [? ?]
    | |- context [clear_all_players ?b ?w ?t] =>
        let E := fresh "E" in
        destruct (clear_all_players b w t) as [? ?] eqn:E
    | |- context [player_left ?t ?n ?w] =>
        let E := fresh "E" in
        destruct (player_left t n w) as [? ?] eqn:E
    | |- context [parse_uuid ?s] => destruct (parse_uuid s)
    | |- context [if ?b then _ else _] => destruct b
    end.

(** A message that reports no join or leave changed neither the store nor
    any join instant. *)
Lemma parse_message_quiet ss t pc w :
  player_join_left (parse_message ss t pc w).1 = false →
  pc = false
  ∧ w_data (parse_message ss t pc w).2 = w_data w
  ∧ ∀ name, join_of (player_info (w_ctx (parse_message ss t pc w).2)) name
            = join_of (player_info (w_ctx w)) name.
Proof.
  unfold parse_message. split_message_keep; simpl; intros H;
    try apply orb_false_elim in H as [H H'];
    try discriminate; subst; try (repeat split; done).
  all: first
    [ match goal with
      | E : clear_all_players false ?w0 ?t0 = (false, _) |- _ =>
          pose proof (flush_nobody false w0 t0) as Hf; rewrite E in Hf;
          specialize (Hf eq_refl); simpl in Hf; subst; done
      end
    | match goal with
      | E : player_left ?t0 ?n ?w0 = (false, _) |- _ =>
          pose proof (player_left_quiet t0 n w0) as Hq; rewrite E in Hq;
          destruct (Hq eq_refl) as [? ?]; done
      end
    | split; [done|]; split; [done|]; intros other; simpl;
      by apply join_of_insert_same ].
Qed.

Lemma parse_line_quiet io b text w cb :
  player_join_left (parse_line io b text w cb).1 = false →
  w_data (parse_line io b text w cb).2 = w_data w
  ∧ ∀ name, join_of (player_info (w_ctx (parse_line io b text w cb).2)) name
            = join_of (player_info (w_ctx w)) name.
Proof.
  unfold parse_line.
  destruct (from_stream_hms io _) as [[off rest]|]; [|done].
  destruct (parse_tagged_cases rest (date_tp (w_ctx w) + off) w cb) as [->|[ss ->]];
    [done|].
  intros H. apply parse_message_quiet in H as (Hpc & Hd & Hj).
  assert (Hw : (flushed_before cb w (date_tp (w_ctx w) + off)).2 = w).
  { unfold flushed_before in *. destruct cb; [|done]. by apply flush_nobody. }
  split; [by rewrite Hd, Hw | intros name; by rewrite Hj, Hw].
Qed.

Lemma foldl_parse_lines_quiet io ps acc :
  (foldl (parse_lines_step io) acc ps).1 = false →
  acc.1 = false
  ∧ w_data (foldl (parse_lines_step io) acc ps).2 = w_data acc.2
  ∧ ∀ name, join_of (player_info (w_ctx (foldl (parse_lines_step io) acc ps).2)) name
            = join_of (player_info (w_ctx acc.2)) name.
Proof.
  revert acc. induction ps as [|p ps IH]; intros acc; [done|].
  cbn [foldl]. remember (parse_lines_step io acc p) as acc' eqn:Estep.
  intros H. apply IH in H as (Hacc & Hd & Hj).
  unfold parse_lines_step in Estep.
  destruct (parse_line io true p acc.2 false) as [r w'] eqn:E. subst acc'. simpl in *.
  apply orb_false_elim in Hacc as [Hacc Hr].
  pose proof (parse_line_quiet io true p acc.2 false) as Hq. rewrite E in Hq.
  destruct (Hq Hr) as [Hd' Hj']. simpl in *.
  split; [done|]. split; [congruence|]. intros name. by rewrite Hj, Hj'.
Qed.

(** The count is the number of names with a join instant. *)
Lemma get_num_players_size ctx :
  get_num_players ctx
  = size (filter (fun kv => is_Some (join_time kv.2)) (player_info ctx)).
Proof.
  unfold get_num_players.
  apply (map_fold_weak_ind
           (fun n (m : player_map) =>
              n = size (filter (fun kv => is_Some (join_time kv.2)) m))).
  - by rewrite map_filter_empty, map_size_empty.
  - intros name info m n Hnone ->.
    destruct (join_time info) as [j|] eqn:Hj.
    + rewrite map_filter_insert_True by (simpl; rewrite Hj; by eexists).
      rewrite map_size_insert_None; [done|].
      apply map_lookup_filter_None. by left.
    + rewrite map_filter_insert_False
        by (simpl; rewrite Hj; by intros [? ?]).
      by rewrite delete_id.
Qed.

Lemma get_num_players_joins ctx ctx' :
  (∀ name, join_of (player_info ctx') name = join_of (player_info ctx) name) →
  get_num_players ctx' = get_num_players ctx.
Proof.
  intros Hj. rewrite !get_num_players_size.
  rewrite <- !(size_dom (D := gset string)). f_equal.
  apply set_eq. intros name. rewrite !elem_of_dom.
  assert (Hiff : ∀ pi : player_map,
            is_Some (filter (fun kv => is_Some (join_time kv.2)) pi !! name)
            ↔ is_Some (join_of pi name)).
  { intros pi. unfold join_of. split.
    - intros [info [Hl Hs]%map_lookup_filter_Some]. by rewrite Hl.
    - intros Hs. destruct (pi !! name) as [info|] eqn:Hl; simpl in Hs.
      + exists info. by apply map_lookup_filter_Some.
      + by destruct Hs. }
  by rewrite !Hiff, Hj.
Qed.

(** X4. When [parse_lines] returns false (no player has joined or left),
    the store is unchanged, every name has the join instant it had, and so
    [get_num_players] counts what it counted before: skipping the status
    update on a false result loses nothing. *)
Theorem quiet_lines_change_nothing_online (io : chrono_io) (text : string) (w : world) :
  (parse_lines io text w).1 = false →
  w_data (parse_lines io text w).2 = w_data w
  ∧ get_num_players (w_ctx (parse_lines io text w).2) = get_num_players (w_ctx w)
  ∧ ∀ name, join_of (player_info (w_ctx (parse_lines io text w).2)) name
            = join_of (player_info (w_ctx w)) name.
Proof.
  unfold parse_lines. intros H.
  apply foldl_parse_lines_quiet in H as (_ & Hd & Hj). simpl in *.
  split; [done|]. split; [|done]. by apply get_num_players_joins.
Qed.

(** A chunk that holds one UUID line reports no join or leave. *)
Lemma quiet_lines_change_nothing_online_witness :
  let w := Scenario.world_with Scenario.bob_anonymous false in
  let text := chunk_of [Scenario.uuid_line] in
  w_data (parse_lines Chrono.io text w).2 = w_data w
  ∧ get_num_players (w_ctx (parse_lines Chrono.io text w).2) = get_num_players (w_ctx w)
  ∧ ∀ name, join_of (player_info (w_ctx (parse_lines Chrono.io text w).2)) name
            = join_of (player_info (w_ctx w)) name.
Proof.
  apply (quiet_lines_change_nothing_online Chrono.io (chunk_of [Scenario.uuid_line])
           (Scenario.world_with Scenario.bob_anonymous false)).
  vm_compute. reflexivity.
Defined.

(** ** Single log lines *)


(** ** What the recognised messages do *)

Lemma word_end name : no_space name = true → IStream.word name = name.
Proof.
  induction name as [|c name IH]; simpl; [done|].
  intros [Hc Hn]%andb_prop. apply negb_true_iff in Hc. rewrite Hc. by rewrite IH.
Qed.

Lemma after_word_end name : no_space name = true → IStream.after_word name = EmptyString.
Proof.
  induction name as [|c name IH]; simpl; [done|].
  intros [Hc Hn]%andb_prop. apply negb_true_iff in Hc. rewrite Hc. by apply IH.
Qed.

Lemma append_empty_r s : s +:+ EmptyString = s.
Proof.
  induction s as [|c s IH]; [done|].
  change (String c (s +:+ EmptyString) = String c s). by f_equal.
Qed.

(** Extracting the first token of a message made of tokens. *)
Lemma get_string_tokens t ts old :
  is_token t = true →
  IStream.get_string
    {| IStream.buf := join_tokens (t :: ts); IStream.eofbit := false;
       IStream.failbit := false |} old =
  ({| IStream.buf := join_tokens ts;
      IStream.eofbit := match ts with [] => true | _ => false end;
      IStream.failbit := false |}, t).
Proof.
  intros Ht. unfold IStream.get_string, IStream.good.
  cbn [IStream.buf IStream.eofbit IStream.failbit negb andb join_tokens].
  change (IStream.skipws (String " " (t +:+ join_tokens ts)))
    with (IStream.skipws (t +:+ join_tokens ts)).
  rewrite skipws_token by done.
  assert (Hn : no_space t = true) by (by destruct t).
  assert (Ha : IStream.after_word (t +:+ join_tokens ts) = join_tokens ts).
  { destruct ts as [|t2 ts]; simpl.
    - rewrite append_empty_r. by apply after_word_end.
    - by apply after_word_token. }
  assert (Hw : IStream.word (t +:+ join_tokens ts) = t).
  { destruct ts as [|t2 ts]; simpl.
    - rewrite append_empty_r. by apply word_end.
    - by apply word_token. }
  destruct t as [|c t]; [done|].
  change (String c t +:+ join_tokens ts) with (String c (t +:+ join_tokens ts)) in *.
  cbv iota beta. rewrite Ha, Hw. by destruct ts.
Qed.

Ltac read_tokens :=
  repeat (rewrite get_string_tokens by (reflexivity || assumption); cbv beta iota).

Lemma parse_line_tagged (io : chrono_io) (b : bool) (text : string) (w : world) (cb : bool)
    (off : Z) (tag msg : string) :
  no_char "]" tag = true →
  from_stream_hms io (if b then strip_cr text else text) = Some (off, tagged tag msg) →
  parse_line io b text w cb =
  parse_message (IStream.of_string (String " " msg)) (date_tp (w_ctx w) + off)
    (flushed_before cb w (date_tp (w_ctx w) + off)).1
    (flushed_before cb w (date_tp (w_ctx w) + off)).2.
Proof.
  intros Htag Hts. unfold parse_line. rewrite Hts. by apply parse_tagged_tagged.
Qed.

Lemma parse_message_uuid (name utext : string) (t : Z) (pc : bool) (w : world) :
  is_token name = true → is_token utext = true → String.length utext = 36%nat →
  server_stopped (w_ctx w) = false →
  parse_message (IStream.of_string (String " " ("UUID of player " +:+ name +:+ " is " +:+ utext)))
    t pc w =
  match parse_uuid utext with
  | Some u => (mk_res true pc, set_uuid name u w)
  | None => (mk_res true pc,
             put (ErrUuidParse utext name (cur_filename (w_ctx w)) (line (w_ctx w))) w)
  end.
Proof.
  intros Hn Hu Hlen Hs.
  assert (E : String " " ("UUID of player " +:+ name +:+ " is " +:+ utext)
              = join_tokens ["UUID"; "of"; "player"; name; "is"; utext]).
  { cbn [join_tokens]. by rewrite append_empty_r. }
  unfold IStream.of_string. rewrite E.
  unfold parse_message. read_tokens.
  simpl. rewrite Hs, Hlen. simpl.
  reflexivity.
Qed.

Lemma append_assoc_string (a b c : string) : (a +:+ b) +:+ c = a +:+ (b +:+ c).
Proof.
  induction a as [|x a IH]; [done|].
  change (String x ((a +:+ b) +:+ c) = String x (a +:+ (b +:+ c))). by f_equal.
Qed.

Lemma no_space_app a b : no_space a = true → no_space b = true → no_space (a +:+ b) = true.
Proof.
  induction a as [|x a IH]; simpl; [done|].
  intros [-> Ha]%andb_prop Hb. by apply IH.
Qed.

Lemma parse_message_formerly (name old : string) (t : Z) (pc : bool) (w : world) :
  is_token name = true → no_space old = true →
  server_stopped (w_ctx w) = false →
  parse_message
    (IStream.of_string
       (String " " (name +:+ " (formerly known as " +:+ old +:+ ") joined the game")))
    t pc w =
  (mk_res true true, player_joined t name w).
Proof.
  intros Hn Ho Hs.
  assert (Htok : is_token (old +:+ ")") = true).
  { assert (H : no_space (old +:+ ")") = true) by (by apply no_space_app).
    destruct old; [done | exact H]. }
  assert (E : String " " (name +:+ " (formerly known as " +:+ old +:+ ") joined the game")
              = join_tokens [name; "(formerly"; "known"; "as"; old +:+ ")";
                             "joined"; "the"; "game"]).
  { cbn [join_tokens]. by rewrite append_assoc_string. }
  unfold IStream.of_string. rewrite E.
  unfold parse_message. read_tokens.
  simpl. by rewrite Hs, !andb_false_r.
Qed.

Lemma parse_message_starting (v : string) (more : list string) (t : Z) (pc : bool)
    (w : world) :
  is_token v = true →
  parse_message
    (IStream.of_string
       (String " " ("Starting minecraft server version " +:+ v +:+ join_tokens more)))
    t pc w =
  (mk_res true pc,
   match more with
   | [] => if server_stopped (w_ctx w) then start_server w else w
   | _ :: _ => w
   end).
Proof.
  intros Hv.
  assert (E : String " " ("Starting minecraft server version " +:+ v +:+ join_tokens more)
              = join_tokens ("Starting" :: "minecraft" :: "server" :: "version" :: v :: more))
    by reflexivity.
  unfold IStream.of_string. rewrite E.
  unfold parse_message. read_tokens.
  destruct more as [|m more]; simpl; by destruct (server_stopped (w_ctx w)).
Qed.

(** X5. A line [UUID of player <name> is <36 characters>] read in the
    Running state, whose last word parses as an identity: the identity is
    put on file for the name (a former one is overwritten), the join instant
    of every name stays as it was, no other name is touched, and the store
    and the output are those left by the flush asked for with [clear_before].
    The line is recognised and reports no join or leave of its own. *)
Theorem uuid_line_records_identity (io : chrono_io) (b : bool) (text : string)
    (w : world) (cb : bool) (off : Z) (tag name utext : string) (u : uuid_t) :
  is_token name = true → is_token utext = true → String.length utext = 36%nat →
  parse_uuid utext = Some u →
  no_char "]" tag = true →
  from_stream_hms io (if b then strip_cr text else text)
    = Some (off, tagged tag ("UUID of player " +:+ name +:+ " is " +:+ utext)) →
  server_stopped (w_ctx w) = false →
  let w1 := (flushed_before cb w (date_tp (w_ctx w) + off)).2 in
  let r := parse_line io b text w cb in
  r.1 = mk_res true (flushed_before cb w (date_tp (w_ctx w) + off)).1
  ∧ w_data r.2 = w_data w1 ∧ w_out r.2 = w_out w1
  ∧ uuid_of (player_info (w_ctx r.2)) name = Some u
  ∧ (∀ other, join_of (player_info (w_ctx r.2)) other
              = join_of (player_info (w_ctx w1)) other)
  ∧ (∀ other, other ≠ name →
              player_info (w_ctx r.2) !! other = player_info (w_ctx w1) !! other).
Proof.
  intros Hn Hu Hlen Hp Htag Hts Hs w1 r. subst r.
  rewrite (parse_line_tagged io b text w cb off tag _ Htag Hts). fold w1.
  destruct (flushed_before_ctx cb w (date_tp (w_ctx w) + off)) as (_ & _ & Hs1 & _).
  fold w1 in Hs1.
  rewrite parse_message_uuid by congruence. rewrite Hp. simpl.
  repeat split.
  - unfold uuid_of. by rewrite lookup_insert_eq.
  - intros other. by apply join_of_insert_same.
  - intros other Hne. by rewrite lookup_insert_ne.
Qed.

(** X6. A join line, [<name> joined the game] or [<name> (formerly known as
    <old>) joined the game], read in the Running state: the name is online
    from the instant of the line, its identity stays what it was, no other
    name is touched, the store is not written, and the line reports a change
    of players. A warning is printed when the name has no identity on file,
    another one when it already had a join instant, in that order; that
    earlier join instant is overwritten without a session being recorded. *)
Theorem join_line_marks_online (io : chrono_io) (b : bool) (text : string)
    (w : world) (cb : bool) (off : Z) (tag name old msg : string) :
  is_token name = true → no_space old = true →
  msg = name +:+ " joined the game"
  ∨ msg = name +:+ " (formerly known as " +:+ old +:+ ") joined the game" →
  no_char "]" tag = true →
  from_stream_hms io (if b then strip_cr text else text) = Some (off, tagged tag msg) →
  server_stopped (w_ctx w) = false →
  let t := date_tp (w_ctx w) + off in
  let w1 := (flushed_before cb w t).2 in
  let r := parse_line io b text w cb in
  r.1 = mk_res true true
  ∧ w_data r.2 = w_data w1
  ∧ player_info (w_ctx r.2) !! name
    = Some {| uuid := uuid_of (player_info (w_ctx w1)) name; join_time := Some t |}
  ∧ (∀ other, other ≠ name →
              player_info (w_ctx r.2) !! other = player_info (w_ctx w1) !! other)
  ∧ w_out r.2
    = w_out w1
      ++ match uuid_of (player_info (w_ctx w1)) name with
         | None => [WarnUuidNotFound name (cur_filename (w_ctx w)) (line (w_ctx w))]
         | Some _ => []
         end
      ++ match join_of (player_info (w_ctx w1)) name with
         | Some _ => [WarnJoinedTwice name (cur_filename (w_ctx w)) (line (w_ctx w))]
         | None => []
         end.
Proof.
  intros Hn Ho Hmsg Htag Hts Hs t w1 r. subst r.
  rewrite (parse_line_tagged io b text w cb off tag _ Htag Hts). fold t. fold w1.
  destruct (flushed_before_ctx cb w t) as (Hf & Hl & Hs1 & _).
  fold w1 in Hf, Hl, Hs1.
  assert (Hj : parse_message (IStream.of_string (String " " msg)) t
                 (flushed_before cb w t).1 w1 = (mk_res true true, player_joined t name w1)).
  { destruct Hmsg as [-> | ->].
    - apply parse_message_joined; [done | congruence].
    - apply parse_message_formerly; [done | done | congruence]. }
  rewrite Hj. unfold player_joined, uuid_of, join_of. simpl. rewrite Hf, Hl.
  repeat split.
  - by rewrite lookup_insert_eq.
  - intros other Hne. by rewrite lookup_insert_ne.
Qed.

(** X7. A line [<name> left the game] read in the Running state, without a
    flush before it, for a name with an identity [u] and a join instant [j]
    on file: the session [(j, t - j)] is appended last to the sessions of
    [u], the total of [u] grows by [t - j], the name is the last display
    name of [u], no other identity is touched; the name is offline
    afterwards with its identity kept, no other name is touched, nothing is
    printed, and the line reports a change of players. *)
Theorem leave_line_closes_session (io : chrono_io) (b : bool) (text : string)
    (w : world) (off : Z) (tag name : string) (u : uuid_t) (j : Z) :
  is_token name = true →
  no_char "]" tag = true →
  from_stream_hms io (if b then strip_cr text else text)
    = Some (off, tagged tag (name +:+ " left the game")) →
  server_stopped (w_ctx w) = false →
  player_info (w_ctx w) !! name = Some {| uuid := Some u; join_time := Some j |} →
  let t := date_tp (w_ctx w) + off in
  let r := parse_line io b text w false in
  r.1 = mk_res true true
  ∧ sessions_of (w_data r.2) u = sessions_of (w_data w) u ++ [(j, t - j)]
  ∧ (∀ e', w_data r.2 !! u = Some e' →
           e'.2.2 = (default empty_entry (w_data w !! u)).2.2 + (t - j)
           ∧ last e'.1 = Some name)
  ∧ (∀ u', u' ≠ u → w_data r.2 !! u' = w_data w !! u')
  ∧ player_info (w_ctx r.2) !! name = Some {| uuid := Some u; join_time := None |}
  ∧ (∀ other, other ≠ name →
              player_info (w_ctx r.2) !! other = player_info (w_ctx w) !! other)
  ∧ w_out r.2 = w_out w.
Proof.
  intros Hn Htag Hts Hs Hl t r. subst r.
  rewrite (parse_line_tagged io b text w false off tag _ Htag Hts). fold t.
  cbn [flushed_before fst snd].
  rewrite parse_message_left by done.
  unfold player_left. rewrite Hl. simpl.
  repeat split.
  - by rewrite sessions_of_close_session, decide_True.
  - revert H. unfold close_session.
    destruct (default empty_entry (w_data w !! u)) as [names [ps tot]].
    rewrite lookup_insert_eq. by intros [= <-].
  - revert H. unfold close_session.
    destruct (default empty_entry (w_data w !! u)) as [names [ps tot]].
    rewrite lookup_insert_eq. intros [= <-]. simpl.
    unfold last_is. destruct (last names) as [n|] eqn:E.
    + case_bool_decide as Hd; [by subst | by rewrite last_snoc].
    + by rewrite last_snoc.
  - intros u' Hne. unfold close_session.
    destruct (default empty_entry (w_data w !! u)) as [names [ps tot]].
    by rewrite lookup_insert_ne.
  - by rewrite lookup_insert_eq.
  - intros other Hne. by rewrite lookup_insert_ne.
Qed.

(** X8. A line [Starting minecraft server version <v>]: when the version
    is one word and the line ends there, the parser is in the Running state
    afterwards, whatever the state before; when anything follows the first
    word of the version (as in [version 1.21 Pre-Release 1], or a blank at
    the end of the line), the flag is not touched and a Stopped parser stays
    Stopped. In both cases the line changes neither the online map nor the
    store nor the output (beyond the flush asked for with [clear_before])
    and reports no join or leave of its own. *)
Theorem startup_line_resets_flag (io : chrono_io) (b : bool) (text : string)
    (w : world) (cb : bool) (off : Z) (tag v : string) (more : list string) :
  is_token v = true →
  no_char "]" tag = true →
  from_stream_hms io (if b then strip_cr text else text)
    = Some (off, tagged tag ("Starting minecraft server version " +:+ v
                             +:+ join_tokens more)) →
  let w1 := (flushed_before cb w (date_tp (w_ctx w) + off)).2 in
  let r := parse_line io b text w cb in
  r.1 = mk_res true (flushed_before cb w (date_tp (w_ctx w) + off)).1
  ∧ server_stopped (w_ctx r.2)
    = match more with
      | [] => false
      | _ :: _ => server_stopped (w_ctx w)
      end
  ∧ player_info (w_ctx r.2) = player_info (w_ctx w1)
  ∧ w_data r.2 = w_data w1 ∧ w_out r.2 = w_out w1.
Proof.
  intros Hv Htag Hts w1 r. subst r.
  rewrite (parse_line_tagged io b text w cb off tag _ Htag Hts). fold w1.
  rewrite parse_message_starting by done.
  destruct (flushed_before_ctx cb w (date_tp (w_ctx w) + off)) as (_ & _ & Hs1 & _).
  fold w1 in Hs1. rewrite <- Hs1.
  destruct more as [|m more]; [|done].
  destruct (server_stopped (w_ctx w1)) eqn:Hs; simpl; by rewrite ?Hs.
Qed.

Lemma strip_cr_cr (s : string) : strip_cr (s +:+ String "013" EmptyString) = strip_cr s.
Proof.
  induction s as [|c s IH]; [done|].
  change (strip_cr (String c (s +:+ String "013" EmptyString)) = strip_cr (String c s)).
  cbn [strip_cr]. by rewrite IH.
Qed.

Lemma no_char_app c a b : no_char c a = true → no_char c b = true → no_char c (a +:+ b) = true.
Proof.
  induction a as [|x a IH]; simpl; [done|].
  intros [-> Ha]%andb_prop Hb. by apply IH.
Qed.

(** X9. Carriage returns at the end of lines make no difference to
    [parse_lines]: a text whose lines end in CR LF gives the same result,
    context, store and output as the text with plain LF endings. *)
Theorem crlf_text_reads_as_lf_text (io : chrono_io) (ls : list string) (w : world) :
  Forall (fun l => no_char "010" l = true) ls →
  parse_lines io (chunk_of ((fun l => l +:+ String "013" EmptyString) <$> ls)) w
  = parse_lines io (chunk_of ls) w.
Proof.
  intros Hls. unfold parse_lines.
  rewrite !pieces_chunk_of; [|done|].
  - rewrite !foldl_app. cbn [foldl].
    assert (E : ∀ acc,
              foldl (parse_lines_step io) acc
                ((fun l => l +:+ String "013" EmptyString) <$> ls)
              = foldl (parse_lines_step io) acc ls).
    { clear Hls. induction ls as [|l ls IH]; intros acc; [done|].
      cbn [fmap list_fmap foldl]. rewrite <- IH. f_equal.
      unfold parse_lines_step, parse_line. by rewrite strip_cr_cr. }
    by rewrite E.
  - apply Forall_fmap. eapply Forall_impl; [exact Hls|].
    intros l Hl. simpl. by apply no_char_app.
Qed.

Lemma crlf_text_reads_as_lf_text_witness :
  parse_lines Chrono.io
    (chunk_of ((fun l => l +:+ String "013" EmptyString)
                 <$> [Scenario.uuid_line; Scenario.join_line; Scenario.leave_line]))
    (Scenario.world_with ∅ false)
  = parse_lines Chrono.io
      (chunk_of [Scenario.uuid_line; Scenario.join_line; Scenario.leave_line])
      (Scenario.world_with ∅ false).
Proof.
  apply (crlf_text_reads_as_lf_text Chrono.io
           [Scenario.uuid_line; Scenario.join_line; Scenario.leave_line]
           (Scenario.world_with ∅ false)).
  repeat constructor.
Defined.

Lemma uuid_line_records_identity_witness :
  let w := Scenario.world_with ∅ false in
  let r := parse_line Chrono.io true Scenario.uuid_line w false in
  r.1 = mk_res true false
  ∧ w_data r.2 = w_data w ∧ w_out r.2 = w_out w
  ∧ uuid_of (player_info (w_ctx r.2)) "Alice" = Some Scenario.alice_uuid
  ∧ (∀ other, join_of (player_info (w_ctx r.2)) other
              = join_of (player_info (w_ctx w)) other)
  ∧ (∀ other, other ≠ "Alice" →
              player_info (w_ctx r.2) !! other = player_info (w_ctx w) !! other).
Proof.
  apply (uuid_line_records_identity Chrono.io true Scenario.uuid_line
           (Scenario.world_with ∅ false) false 35940
           "User Authenticator #1/INFO" "Alice"
           "01234567-89ab-cdef-0123-456789abcdef" Scenario.alice_uuid).
  - reflexivity.
  - reflexivity.
  - reflexivity.
  - vm_compute. reflexivity.
  - reflexivity.
  - vm_compute. reflexivity.
  - reflexivity.
Defined.

Lemma join_line_marks_online_witness :
  let w := Scenario.world_with Scenario.alice_known false in
  let r := parse_line Chrono.io true
             "[10:00:00] [Server thread/INFO]: Alice (formerly known as Al) joined the game"
             w false in
  r.1 = mk_res true true
  ∧ w_data r.2 = w_data w
  ∧ player_info (w_ctx r.2) !! "Alice"
    = Some {| uuid := uuid_of (player_info (w_ctx w)) "Alice"; join_time := Some (0 + 36000) |}
  ∧ (∀ other, other ≠ "Alice" →
              player_info (w_ctx r.2) !! other = player_info (w_ctx w) !! other)
  ∧ w_out r.2
    = w_out w
      ++ match uuid_of (player_info (w_ctx w)) "Alice" with
         | None => [WarnUuidNotFound "Alice" "latest.log" 0]
         | Some _ => []
         end
      ++ match join_of (player_info (w_ctx w)) "Alice" with
         | Some _ => [WarnJoinedTwice "Alice" "latest.log" 0]
         | None => []
         end.
Proof.
  apply (join_line_marks_online Chrono.io true
           "[10:00:00] [Server thread/INFO]: Alice (formerly known as Al) joined the game"
           (Scenario.world_with Scenario.alice_known false) false 36000
           "Server thread/INFO" "Alice" "Al"
           "Alice (formerly known as Al) joined the game").
  - reflexivity.
  - reflexivity.
  - right. reflexivity.
  - reflexivity.
  - vm_compute. reflexivity.
  - reflexivity.
Defined.

Lemma leave_line_closes_session_witness :
  let w := Scenario.world_with
             {[ "Alice" := {| uuid := Some Scenario.alice_uuid; join_time := Some 36000 |} ]}
             false in
  let r := parse_line Chrono.io true Scenario.leave_line w false in
  r.1 = mk_res true true
  ∧ sessions_of (w_data r.2) Scenario.alice_uuid
    = sessions_of (w_data w) Scenario.alice_uuid ++ [(36000, 0 + 39600 - 36000)]
  ∧ (∀ e', w_data r.2 !! Scenario.alice_uuid = Some e' →
           e'.2.2 = (default empty_entry (w_data w !! Scenario.alice_uuid)).2.2
                    + (0 + 39600 - 36000)
           ∧ last e'.1 = Some "Alice")
  ∧ (∀ u', u' ≠ Scenario.alice_uuid → w_data r.2 !! u' = w_data w !! u')
  ∧ player_info (w_ctx r.2) !! "Alice"
    = Some {| uuid := Some Scenario.alice_uuid; join_time := None |}
  ∧ (∀ other, other ≠ "Alice" →
              player_info (w_ctx r.2) !! other = player_info (w_ctx w) !! other)
  ∧ w_out r.2 = w_out w.
Proof.
  apply (leave_line_closes_session Chrono.io true Scenario.leave_line
           (Scenario.world_with
              {[ "Alice" := {| uuid := Some Scenario.alice_uuid; join_time := Some 36000 |} ]}
              false)
           39600 "Server thread/INFO" "Alice" Scenario.alice_uuid 36000).
  - reflexivity.
  - reflexivity.
  - vm_compute. reflexivity.
  - reflexivity.
  - reflexivity.
Defined.

Lemma startup_line_resets_flag_witness :
  let w := Scenario.world_with Scenario.bob_anonymous true in
  let r := parse_line Chrono.io true
             "[09:00:00] [Server thread/INFO]: Starting minecraft server version 1.21 Pre-Release 1"
             w false in
  r.1 = mk_res true false
  ∧ server_stopped (w_ctx r.2) = server_stopped (w_ctx w)
  ∧ player_info (w_ctx r.2) = player_info (w_ctx w)
  ∧ w_data r.2 = w_data w ∧ w_out r.2 = w_out w.
Proof.
  apply (startup_line_resets_flag Chrono.io true
           "[09:00:00] [Server thread/INFO]: Starting minecraft server version 1.21 Pre-Release 1"
           (Scenario.world_with Scenario.bob_anonymous true) false 32400
           "Server thread/INFO" "1.21" ["Pre-Release"; "1"]).
  - reflexivity.
  - reflexivity.
  - vm_compute. reflexivity.
Defined.

(** The same line with a version of one word resets the flag. *)
Example startup_line_of_one_word_resets_flag :
  server_stopped
    (w_ctx (parse_line Chrono.io true Scenario.start_line
              (Scenario.world_with Scenario.bob_anonymous true) false).2) = false.
Proof. vm_compute. reflexivity. Qed.

(** ** The watcher over several calls *)

Section WatcherRuns.

Import Watcher.

Lemma strs_eq_set_cookie c ctx e : strs_eq (set_cookie c ctx) e = strs_eq ctx e.
Proof. done. Qed.

Lemma strs_eq_set_read_data d ctx e : strs_eq (set_read_data d ctx) e = strs_eq ctx e.
Proof. done. Qed.

Lemma poll_buffered os alloc_ok ctx e rest :
  has_value ctx = true → read_data ctx = e :: rest →
  file_watcher_poll os alloc_ok ctx = handle_event alloc_ok (set_read_data rest ctx) e.
Proof. intros Hv Hb. unfold file_watcher_poll. by rewrite Hv, Hb. Qed.

Lemma handle_event_unrelated alloc_ok ctx e :
  unrelated_to ctx (pending_cookie ctx) e = true →
  handle_event alloc_ok ctx e = (ctx, only_state 2).
Proof.
  unfold unrelated_to, handle_event.
  intros [Hne Hnm]%andb_prop. rewrite Hne.
  apply negb_true_iff in Hnm.
  destruct (has_bit (mask e) IN_MOVED_TO); [|done].
  destruct (pending_cookie ctx =? 0)%N; [done|].
  cbn [negb andb] in *. by rewrite Hnm.
Qed.

Lemma poll_times_unrelated os alloc_ok ctx others tail :
  has_value ctx = true → read_data ctx = others ++ tail →
  Forall (fun e => unrelated_to ctx (pending_cookie ctx) e = true) others →
  poll_times (length others) os alloc_ok ctx
  = (set_read_data tail ctx, replicate (length others) (only_state 2)).
Proof.
  revert ctx. induction others as [|e others IH]; intros ctx Hv Hb Hall.
  - simpl in *. destruct ctx; simpl in *. by subst.
  - apply Forall_cons in Hall as [He Hall].
    cbn [length poll_times replicate].
    rewrite (poll_buffered os alloc_ok ctx e (others ++ tail)) by done.
    rewrite handle_event_unrelated by done.
    rewrite (IH (set_read_data (others ++ tail) ctx)); [done | done | done | done].
Qed.

(** X10. A rename of the watched file is reported although events of other
    files come between its two halves. The buffer holds the renamed-from
    event of the watched name, then events that name other files (none of
    them a renamed-to with the cookie of the rename), then a renamed-to with
    that cookie: the calls that consume them answer [state = 2] for all but
    the last one, which answers [state = 1] with the new name and no event
    flag; the pending cookie is reset and the rest of the buffer is left. *)
Theorem rename_is_reported_across_other_files (os : os_response)
    (ctx : file_watcher_ctx) (from to : inotify_event)
    (others rest : list inotify_event) :
  has_value ctx = true →
  read_data ctx = from :: others ++ to :: rest →
  strs_eq ctx from = true →
  has_bit (mask from) IN_MOVED_FROM = true →
  matches_pending ctx from = false →
  cookie from ≠ 0%N →
  Forall (fun e => unrelated_to ctx (cookie from) e = true) others →
  has_bit (mask to) IN_MOVED_TO = true →
  cookie to = cookie from →
  poll_times (S (length others + 1)) os true ctx
  = (set_read_data rest (set_cookie 0 ctx),
     only_state 2 :: replicate (length others) (only_state 2) ++ [renamed_to (name to)]).
Proof.
  intros Hv Hb Hfrom Hmf Hnp Hc Hall Hmt Hct.
  cbn [poll_times].
  rewrite (poll_buffered os true ctx from (others ++ to :: rest)) by done.
  assert (H1 : handle_event true (set_read_data (others ++ to :: rest) ctx) from
               = (set_cookie (cookie from) (set_read_data (others ++ to :: rest) ctx),
                  only_state 2)).
  { unfold handle_event. unfold matches_pending in Hnp.
    cbn [pending_cookie set_read_data]. rewrite Hnp.
    by rewrite strs_eq_set_read_data, Hfrom, Hmf. }
  rewrite H1.
  assert (Hsplit : ∀ n m os ctx,
            poll_times (n + m) os true ctx
            = let '(c1, r1) := poll_times n os true ctx in
              let '(c2, r2) := poll_times m os true c1 in (c2, r1 ++ r2)).
  { clear. induction n as [|n IH]; intros m os ctx.
    - simpl. by destruct (poll_times m os true ctx).
    - cbn [Nat.add poll_times]. destruct (file_watcher_poll os true ctx) as [c r].
      rewrite IH. destruct (poll_times n os true c) as [c1 r1].
      by destruct (poll_times m os true c1). }
  rewrite Hsplit.
  rewrite (poll_times_unrelated os true _ others (to :: rest)); [|done|done|done].
  cbn [poll_times].
  rewrite (poll_buffered os true _ to rest) by done.
  unfold handle_event. cbn [pending_cookie set_read_data set_cookie].
  rewrite Hmt, Hct, N.eqb_refl.
  destruct (N.eqb_spec (cookie from) 0) as [E|_]; [done|].
  by cbn [negb andb].
Qed.

(** X11. The shape of every result of [file_watcher_poll]. The state is
    one of -1, 0, 1, 2. Only a result of state 1 carries anything: either a
    new name and no event flag, or no new name and at least one event flag.
    Event flags are only reported for an event that passes the name test.
    The call never changes whether the context is valid, nor the watched
    name or its size. *)
Theorem poll_result_is_well_formed (os : os_response) (alloc_ok : bool)
    (ctx : file_watcher_ctx) :
  let r := (file_watcher_poll os alloc_ok ctx).2 in
  let ctx' := (file_watcher_poll os alloc_ok ctx).1 in
  (state r = -1 ∨ state r = 0 ∨ state r = 1 ∨ state r = 2)
  ∧ (state r ≠ 1 →
     event_create r = false ∧ event_create_moved r = false ∧ event_modify r = false
     ∧ moved_to r = None)
  ∧ (state r = 1 →
     match moved_to r with
     | Some _ =>
         event_create r = false ∧ event_create_moved r = false ∧ event_modify r = false
     | None => event_create r || event_create_moved r || event_modify r = true
     end)
  ∧ (moved_to r = None → (event_create r || event_create_moved r || event_modify r) = true →
     ∃ e, next_event os ctx = Some e ∧ strs_eq ctx e = true)
  ∧ has_value ctx' = has_value ctx ∧ filename ctx' = filename ctx
  ∧ filename_size ctx' = filename_size ctx.
Proof.
  assert (H : ∀ ctx0 e,
            let r := (handle_event alloc_ok ctx0 e).2 in
            let ctx' := (handle_event alloc_ok ctx0 e).1 in
            (state r = -1 ∨ state r = 0 ∨ state r = 1 ∨ state r = 2)
            ∧ (state r ≠ 1 →
               event_create r = false ∧ event_create_moved r = false
               ∧ event_modify r = false ∧ moved_to r = None)
            ∧ (state r = 1 →
               match moved_to r with
               | Some _ =>
                   event_create r = false ∧ event_create_moved r = false
                   ∧ event_modify r = false
               | None => event_create r || event_create_moved r || event_modify r = true
               end)
            ∧ (moved_to r = None →
               (event_create r || event_create_moved r || event_modify r) = true →
               strs_eq ctx0 e = true)
            ∧ has_value ctx' = has_value ctx0 ∧ filename ctx' = filename ctx0
            ∧ filename_size ctx' = filename_size ctx0).
  { intros ctx0 e. unfold handle_event.
    destruct (has_bit (mask e) IN_MOVED_TO && negb (pending_cookie ctx0 =? 0)%N
              && (pending_cookie ctx0 =? cookie e)%N).
    - destruct alloc_ok; simpl; repeat split; try done; auto.
    - destruct (strs_eq ctx0 e); cbn [negb]; [|simpl; repeat split; try done; auto].
      destruct (has_bit (mask e) IN_MOVED_FROM); [simpl; repeat split; try done; auto|].
      destruct (has_bit (mask e) IN_CREATE), (has_bit (mask e) IN_MOVED_TO),
        (has_bit (mask e) IN_MODIFY); simpl; repeat split; try done; auto. }
  intros r ctx'. subst r ctx'. unfold file_watcher_poll, next_event.
  destruct (has_value ctx) eqn:Hv; cbn [negb];
    [|simpl; repeat split; try done; auto].
  destruct (read_data ctx) as [|e rest] eqn:Hb.
  - destruct os as [| |e rest]; [simpl; repeat split; try done; auto.. |].
    specialize (H (set_read_data rest ctx) e). cbn zeta in H.
    destruct H as (H1 & H2 & H3 & H4 & H5 & H6 & H7).
    cbn [has_value set_read_data] in H5. rewrite Hv in H5.
    refine (conj H1 (conj H2 (conj H3 (conj _ (conj H5 (conj H6 H7)))))).
    intros Hm Hf. exists e. split; [done|]. by apply H4.
  - specialize (H (set_read_data rest ctx) e). cbn zeta in H.
    destruct H as (H1 & H2 & H3 & H4 & H5 & H6 & H7).
    cbn [has_value set_read_data] in H5. rewrite Hv in H5.
    refine (conj H1 (conj H2 (conj H3 (conj _ (conj H5 (conj H6 H7)))))).
    intros Hm Hf. exists e. split; [done|]. by apply H4.
Qed.

(** X12. The name test is a prefix test: for a watcher set up on [file], an
    event about any name that starts with [file] (and whose name field is
    longer than [file], as it is with its terminator) passes, so that a
    modification of such a file is reported as one of the watched file. *)
Theorem watcher_matches_by_prefix (alloc_ok : bool) (file suffix : string)
    (e : inotify_event) :
  name e = file +:+ suffix →
  (String.length file < len e)%nat →
  has_bit (mask e) IN_MODIFY = true →
  has_bit (mask e) IN_MOVED_FROM = false →
  strs_eq (file_watcher_init file) e = true
  ∧ (file_watcher_poll (OsEvents e []) alloc_ok (file_watcher_init file)).2
    = {| state := 1; event_create := has_bit (mask e) IN_CREATE;
         event_create_moved := has_bit (mask e) IN_MOVED_TO;
         event_modify := true; moved_to := None |}.
Proof.
  intros Hn Hl Hm Hf.
  assert (Hs : strs_eq (file_watcher_init file) e = true).
  { unfold strs_eq, file_watcher_init. cbn [filename_size filename].
    apply andb_true_intro. split; [by apply Nat.ltb_lt|].
    rewrite Hn. apply String.eqb_eq.
    clear. induction file as [|c file IH]; [by destruct suffix|].
    change (String c (substring 0 (String.length file) (file +:+ suffix))
            = String c (substring 0 (String.length file) file)).
    by rewrite IH. }
  split; [done|].
  unfold file_watcher_poll. cbn [has_value file_watcher_init negb read_data].
  unfold handle_event. cbn [pending_cookie set_read_data].
  rewrite N.eqb_refl. cbn [negb]. rewrite andb_false_r. cbn [andb].
  rewrite strs_eq_set_read_data, Hs, Hf, Hm. cbn [negb].
  by rewrite !andb_false_r.
Qed.

Lemma rename_is_reported_across_other_files_witness :
  poll_times 3 OsNothing true
    (set_read_data [Scenario.ev_moved_from; Scenario.ev_other_file; Scenario.ev_moved_to]
       (file_watcher_init "latest.log"))
  = (set_read_data []
       (set_cookie 0
          (set_read_data
             [Scenario.ev_moved_from; Scenario.ev_other_file; Scenario.ev_moved_to]
             (file_watcher_init "latest.log"))),
     only_state 2 :: replicate 1 (only_state 2) ++ [renamed_to "2024-01-01-1.log"]).
Proof.
  apply (rename_is_reported_across_other_files OsNothing
           (set_read_data
              [Scenario.ev_moved_from; Scenario.ev_other_file; Scenario.ev_moved_to]
              (file_watcher_init "latest.log"))
           Scenario.ev_moved_from Scenario.ev_moved_to [Scenario.ev_other_file] []).
  - reflexivity.
  - reflexivity.
  - reflexivity.
  - reflexivity.
  - reflexivity.
  - vm_compute. discriminate.
  - repeat constructor.
  - reflexivity.
  - reflexivity.
Defined.

Lemma watcher_matches_by_prefix_witness :
  let e := {| mask := IN_MODIFY; cookie := 0; len := 16; name := "latest.log.tmp" |} in
  strs_eq (file_watcher_init "latest.log") e = true
  ∧ (file_watcher_poll (OsEvents e []) true (file_watcher_init "latest.log")).2
    = {| state := 1; event_create := has_bit (mask e) IN_CREATE;
         event_create_moved := has_bit (mask e) IN_MOVED_TO;
         event_modify := true; moved_to := None |}.
Proof.
  apply (watcher_matches_by_prefix true "latest.log" ".tmp"
           {| mask := IN_MODIFY; cookie := 0; len := 16; name := "latest.log.tmp" |}).
  - reflexivity.
  - simpl. lia.
  - reflexivity.
  - reflexivity.
Defined.

End WatcherRuns.

(** ** The watcher of [file_watcher.cpp] *)

Section WinWatcherRuns.

Import WinWatcher.

Lemma win_poll_buffered os conv_ok ctx info rest :
  has_value ctx = true → read_data ctx = info :: rest →
  file_watcher_poll os conv_ok ctx = file_watcher_read conv_ok (set_read_data rest ctx) info.
Proof. intros Hv Hb. unfold file_watcher_poll. by rewrite Hv, Hb. Qed.

Lemma win_read_old_name conv_ok ctx info :
  FileName info = filename ctx → Action info = FILE_ACTION_RENAMED_OLD_NAME →
  file_watcher_read conv_ok ctx info = (set_moved true ctx, Watcher.only_state 2).
Proof.
  intros Hn Ha. unfold file_watcher_read, strs_eq. rewrite Ha, Hn.
  cbn [N.eqb FILE_ACTION_RENAMED_OLD_NAME FILE_ACTION_RENAMED_NEW_NAME Pos.eqb andb].
  cbn [filename set_moved]. by rewrite String.eqb_refl.
Qed.

(** X13. On Windows a rename of the watched file is reported when its two
    halves are next to each other in the buffer: the call that reads the
    old-name entry of the watched name answers [state = 2], the next call
    reads the new-name entry and answers [state = 1] with the new name and no
    event flag. The flag [moved] is still set after the report. *)
Theorem win_rename_is_reported_for_adjacent_halves (os : os_response)
    (ctx : file_watcher_ctx) (old new : notify_information)
    (rest : list notify_information) :
  has_value ctx = true →
  read_data ctx = old :: new :: rest →
  FileName old = filename ctx →
  Action old = FILE_ACTION_RENAMED_OLD_NAME →
  Action new = FILE_ACTION_RENAMED_NEW_NAME →
  poll_times 2 os true ctx
  = (set_read_data rest (set_moved true ctx),
     [Watcher.only_state 2; renamed_to (FileName new)]).
Proof.
  intros Hv Hb Hn Ho Hnew. cbn [poll_times].
  rewrite (win_poll_buffered os true ctx old (new :: rest)) by done.
  rewrite win_read_old_name by done.
  rewrite (win_poll_buffered os true _ new rest) by done.
  unfold file_watcher_read. rewrite Hnew. by cbn.
Qed.

(** X14. On Windows any entry between the two halves cancels the rename,
    whatever file it names: after the old-name entry of the watched name and
    an entry that is neither a new-name entry nor another old-name entry of
    the watched name, a new-name entry is not reported as a rename. It is
    dropped ([state = 2]) unless it carries the watched name itself, and then
    it is reported as [event_create_moved]; the flag [moved] is reset. *)
Theorem win_rename_is_cancelled_by_an_event_between (os : os_response) (conv_ok : bool)
    (ctx : file_watcher_ctx) (old e new : notify_information)
    (rest : list notify_information) :
  has_value ctx = true →
  read_data ctx = old :: e :: new :: rest →
  FileName old = filename ctx →
  Action old = FILE_ACTION_RENAMED_OLD_NAME →
  Action e ≠ FILE_ACTION_RENAMED_NEW_NAME →
  Action e ≠ FILE_ACTION_RENAMED_OLD_NAME ∨ FileName e ≠ filename ctx →
  Action new = FILE_ACTION_RENAMED_NEW_NAME →
  let r := poll_times 3 os conv_ok ctx in
  moved r.1 = false
  ∧ r.2 !! 2%nat
    = Some (if String.eqb (filename ctx) (FileName new)
            then {| Watcher.state := 1; Watcher.event_create := false;
                    Watcher.event_create_moved := true; Watcher.event_modify := false;
                    Watcher.moved_to := None |}
            else Watcher.only_state 2).
Proof.
  intros Hv Hb Hn Ho He1 He2 Hnew r. subst r. cbn [poll_times].
  rewrite (win_poll_buffered os conv_ok ctx old (e :: new :: rest)) by done.
  rewrite win_read_old_name by done.
  rewrite (win_poll_buffered os conv_ok _ e (new :: rest)) by done.
  assert (Hmid : ∃ r2,
            file_watcher_read conv_ok
              (set_read_data (new :: rest)
                 (set_moved true (set_read_data (e :: new :: rest) ctx))) e
            = (set_moved false (set_read_data (new :: rest) ctx), r2)).
  { unfold file_watcher_read, strs_eq.
    apply N.eqb_neq in He1. rewrite He1. cbn [andb].
    cbn [filename set_moved set_read_data].
    destruct (String.eqb_spec (filename ctx) (FileName e)) as [En|En]; cbn [negb];
      [|by eexists].
    destruct He2 as [He2|He2]; [|by rewrite En in He2].
    apply N.eqb_neq in He2. rewrite He2.
    destruct (Action e =? FILE_ACTION_ADDED)%N; [by eexists|].
    destruct (Action e =? FILE_ACTION_MODIFIED)%N; by eexists. }
  destruct Hmid as [r2 ->].
  rewrite (win_poll_buffered os conv_ok _ new rest) by done.
  unfold file_watcher_read, strs_eq. rewrite Hnew.
  cbn [moved set_moved set_read_data andb filename
       N.eqb FILE_ACTION_RENAMED_OLD_NAME FILE_ACTION_RENAMED_NEW_NAME
       FILE_ACTION_ADDED Pos.eqb].
  by destruct (String.eqb (filename ctx) (FileName new)).
Qed.

(** X15. The shape of every result of the Windows [file_watcher_poll]. The
    state is one of -1, 0, 1, 2. Only a result of state 1 carries anything:
    either a new name and no event flag, or no new name and exactly one event
    flag. The call never changes whether the context is valid, the watched
    name or the notification mode. *)
Theorem win_poll_result_is_well_formed (os : os_response) (conv_ok : bool)
    (ctx : file_watcher_ctx) :
  let r := (file_watcher_poll os conv_ok ctx).2 in
  let ctx' := (file_watcher_poll os conv_ok ctx).1 in
  (Watcher.state r = -1 ∨ Watcher.state r = 0 ∨ Watcher.state r = 1 ∨ Watcher.state r = 2)
  ∧ (Watcher.state r ≠ 1 →
     Watcher.event_create r = false ∧ Watcher.event_create_moved r = false
     ∧ Watcher.event_modify r = false ∧ Watcher.moved_to r = None)
  ∧ (Watcher.state r = 1 →
     match Watcher.moved_to r with
     | Some _ =>
         Watcher.event_create r = false ∧ Watcher.event_create_moved r = false
         ∧ Watcher.event_modify r = false
     | None =>
         (Watcher.event_create r, Watcher.event_create_moved r, Watcher.event_modify r)
         ∈ [(true, false, false); (false, true, false); (false, false, true)]
     end)
  ∧ has_value ctx' = has_value ctx ∧ filename ctx' = filename ctx
  ∧ notify_on_last_write ctx' = notify_on_last_write ctx.
Proof.
  assert (H : ∀ ctx0 info,
            let r := (file_watcher_read conv_ok ctx0 info).2 in
            let ctx' := (file_watcher_read conv_ok ctx0 info).1 in
            (Watcher.state r = -1 ∨ Watcher.state r = 0 ∨ Watcher.state r = 1
             ∨ Watcher.state r = 2)
            ∧ (Watcher.state r ≠ 1 →
               Watcher.event_create r = false ∧ Watcher.event_create_moved r = false
               ∧ Watcher.event_modify r = false ∧ Watcher.moved_to r = None)
            ∧ (Watcher.state r = 1 →
               match Watcher.moved_to r with
               | Some _ =>
                   Watcher.event_create r = false ∧ Watcher.event_create_moved r = false
                   ∧ Watcher.event_modify r = false
               | None =>
                   (Watcher.event_create r, Watcher.event_create_moved r,
                    Watcher.event_modify r)
                   ∈ [(true, false, false); (false, true, false); (false, false, true)]
               end)
            ∧ has_value ctx' = has_value ctx0 ∧ filename ctx' = filename ctx0
            ∧ notify_on_last_write ctx' = notify_on_last_write ctx0).
  { intros ctx0 info. unfold file_watcher_read.
    destruct ((Action info =? FILE_ACTION_RENAMED_NEW_NAME)%N && moved ctx0).
    - destruct conv_ok; simpl; repeat split; try done; auto.
    - destruct (strs_eq (set_moved false ctx0) info);
        [simpl; repeat split; try done; auto|].
      destruct (Action info =? FILE_ACTION_RENAMED_OLD_NAME)%N;
        [simpl; repeat split; try done; auto|].
      destruct (Action info =? FILE_ACTION_ADDED)%N;
        [simpl; repeat split; try done; auto; intros _; set_solver|].
      destruct (Action info =? FILE_ACTION_RENAMED_NEW_NAME)%N;
        [simpl; repeat split; try done; auto; intros _; set_solver|].
      destruct (Action info =? FILE_ACTION_MODIFIED)%N;
        [simpl; repeat split; try done; auto; intros _; set_solver|].
      simpl; repeat split; try done; auto. }
  intros r ctx'. subst r ctx'. unfold file_watcher_poll.
  destruct (has_value ctx) eqn:Hv; cbn [negb];
    [|simpl; repeat split; try done; auto].
  destruct (read_data ctx) as [|info rest] eqn:Hb.
  - destruct (negb (has_cur_request ctx) && negb (read_changes_ok os));
      [simpl; repeat split; try done; auto|].
    destruct (overlapped os) as [| |info rest]; [simpl; repeat split; try done; auto.. |].
    specialize (H (set_read_data rest (set_request false (set_request true ctx))) info).
    cbn zeta in H. destruct H as (H1 & H2 & H3 & H5 & H6 & H7).
    cbn [has_value set_read_data set_request] in H5. rewrite Hv in H5.
    exact (conj H1 (conj H2 (conj H3 (conj H5 (conj H6 H7))))).
  - specialize (H (set_read_data rest ctx) info).
    cbn zeta in H. destruct H as (H1 & H2 & H3 & H5 & H6 & H7).
    cbn [has_value set_read_data] in H5. rewrite Hv in H5.
    exact (conj H1 (conj H2 (conj H3 (conj H5 (conj H6 H7))))).
Qed.

Lemma win_rename_is_reported_for_adjacent_halves_witness :
  let ctx := set_read_data
               [mk_info FILE_ACTION_RENAMED_OLD_NAME "latest.log";
                mk_info FILE_ACTION_RENAMED_NEW_NAME "2024-01-01-1.log"]
               (file_watcher_init "latest.log" false) in
  poll_times 2 (mk_os true Incomplete) true ctx
  = (set_read_data [] (set_moved true ctx),
     [Watcher.only_state 2; renamed_to "2024-01-01-1.log"]).
Proof.
  apply (win_rename_is_reported_for_adjacent_halves (mk_os true Incomplete)
           (set_read_data
              [mk_info FILE_ACTION_RENAMED_OLD_NAME "latest.log";
               mk_info FILE_ACTION_RENAMED_NEW_NAME "2024-01-01-1.log"]
              (file_watcher_init "latest.log" false))
           (mk_info FILE_ACTION_RENAMED_OLD_NAME "latest.log")
           (mk_info FILE_ACTION_RENAMED_NEW_NAME "2024-01-01-1.log") []).
  - reflexivity.
  - reflexivity.
  - reflexivity.
  - reflexivity.
  - reflexivity.
Defined.

Lemma win_rename_is_cancelled_by_an_event_between_witness :
  let ctx := set_read_data
               [mk_info FILE_ACTION_RENAMED_OLD_NAME "latest.log";
                mk_info FILE_ACTION_MODIFIED "usercache.json";
                mk_info FILE_ACTION_RENAMED_NEW_NAME "2024-01-01-1.log"]
               (file_watcher_init "latest.log" false) in
  let r := poll_times 3 (mk_os true Incomplete) true ctx in
  moved r.1 = false
  ∧ r.2 !! 2%nat
    = Some (if String.eqb (filename ctx) "2024-01-01-1.log"
            then {| Watcher.state := 1; Watcher.event_create := false;
                    Watcher.event_create_moved := true; Watcher.event_modify := false;
                    Watcher.moved_to := None |}
            else Watcher.only_state 2).
Proof.
  apply (win_rename_is_cancelled_by_an_event_between (mk_os true Incomplete) true
           (set_read_data
              [mk_info FILE_ACTION_RENAMED_OLD_NAME "latest.log";
               mk_info FILE_ACTION_MODIFIED "usercache.json";
               mk_info FILE_ACTION_RENAMED_NEW_NAME "2024-01-01-1.log"]
              (file_watcher_init "latest.log" false))
           (mk_info FILE_ACTION_RENAMED_OLD_NAME "latest.log")
           (mk_info FILE_ACTION_MODIFIED "usercache.json")
           (mk_info FILE_ACTION_RENAMED_NEW_NAME "2024-01-01-1.log") []).
  - reflexivity.
  - reflexivity.
  - reflexivity.
  - reflexivity.
  - vm_compute. discriminate.
  - left. vm_compute. discriminate.
  - reflexivity.
Defined.

End WinWatcherRuns.

(** ** The order of the paths *)

Section PathOrderFacts.

Import PathOrder.

Lemma digit_value c :
  IStream.is_digit c = true → ∃ v, (v < 10)%N ∧ N_of_ascii c = (48 + v)%N.
Proof.
  unfold IStream.is_digit. intros [H1 H2]%andb_prop.
  apply N.leb_le in H1, H2. exists (N_of_ascii c - 48)%N. lia.
Qed.

Lemma take_digits_app seq ext :
  all_digits seq = true →
  (match ext with String c _ => IStream.is_digit c = false | EmptyString => True end) →
  take_digits (seq +:+ ext) = seq.
Proof.
  intros Hs He. induction seq as [|c seq IH].
  - destruct ext as [|c ext]; [done|]. simpl. by rewrite He.
  - simpl in Hs. apply andb_prop in Hs as [Hc Hs].
    change (take_digits (String c (seq +:+ ext)) = String c seq).
    cbn [take_digits]. rewrite Hc. by rewrite IH.
Qed.

Lemma take_digits_all seq : all_digits seq = true → take_digits seq = seq.
Proof.
  intros Hs. induction seq as [|c seq IH]; [done|].
  simpl in Hs. apply andb_prop in Hs as [Hc Hs]. simpl. rewrite Hc. by rewrite IH.
Qed.

Lemma substring_app_length (s t : string) :
  substring 0 (String.length s) (s +:+ t) = s.
Proof.
  induction s as [|c s IH]; [by destruct t|].
  change (String c (substring 0 (String.length s) (s +:+ t)) = String c s).
  by rewrite IH.
Qed.

Lemma sequence_number_dated date seq ext :
  date_shape date = true → seq ≠ EmptyString → all_digits seq = true →
  (decimal seq < 2 ^ 32)%N →
  ext = ".log" ∨ ext = ".log.gz" →
  sequence_number (date +:+ "-" +:+ seq +:+ ext) = Some (decimal seq).
Proof.
  intros Hdate Hseq Hdig Hval Hext.
  destruct date as [|y1 [|y2 [|y3 [|y4 [|s1 [|m1 [|m2 [|s2 [|d1 [|d2 [|x r]]]]]]]]]]];
    try discriminate Hdate.
  destruct seq as [|c ds]; [done|].
  assert (Hds : all_digits ds = true).
  { simpl in Hdig. by apply andb_prop in Hdig as [_ ?]. }
  assert (Hext' : match ext with
                  | String c _ => IStream.is_digit c = false
                  | EmptyString => True
                  end) by (by destruct Hext as [-> | ->]).
  unfold sequence_number.
  change (Enumerator.skip_chars 12 _) with (ds +:+ ext).
  rewrite take_digits_app by done.
  replace (12 + String.length ds - 11)%nat with (String.length (String c ds))
    by (simpl; lia).
  change (substring 11 (String.length (String c ds)) _)
    with (substring 0 (String.length (String c ds)) (String c ds +:+ ext)).
  rewrite substring_app_length.
  unfold from_chars. rewrite take_digits_all by done.
  apply N.ltb_lt in Hval. by rewrite Hval.
Qed.

Lemma compare_digits (a b : N) (rest : comparison) :
  match (48 + a ?= 48 + b)%N with Eq => rest | c => c end
  = match (a ?= b)%N with Eq => rest | c => c end.
Proof.
  assert (E : (48 + a ?= 48 + b)%N = (a ?= b)%N).
  { destruct (N.compare_spec a b) as [->| |].
    - apply N.compare_refl.
    - apply N.compare_lt_iff. lia.
    - apply N.compare_gt_iff. lia. }
  by rewrite E.
Qed.

Lemma lex_date_is_day_number date1 date2 :
  date_shape date1 = true → date_shape date2 = true →
  lexicographical_compare_three_way
    (list_ascii_of_string date1) (list_ascii_of_string date2)
  = (day_number date1 ?= day_number date2)%N.
Proof.
  intros H1 H2.
  destruct date1 as [|y1 [|y2 [|y3 [|y4 [|s1 [|m1 [|m2 [|s2 [|d1 [|d2 [|x r]]]]]]]]]]];
    try discriminate H1.
  destruct date2 as [|z1 [|z2 [|z3 [|z4 [|t1 [|n1 [|n2 [|t2 [|e1 [|e2 [|x r]]]]]]]]]]];
    try discriminate H2.
  unfold date_shape in H1, H2.
  do 9 (apply andb_prop in H1 as [H1 ?]). do 9 (apply andb_prop in H2 as [H2 ?]).
  repeat match goal with
         | H : Ascii.eqb _ _ = true |- _ => apply Ascii.eqb_eq in H; subst
         end.
  repeat match goal with
         | H : IStream.is_digit ?c = true |- _ =>
             let v := fresh "v" in let Hv := fresh "Hv" in let Hc := fresh "Hc" in
             destruct (digit_value c H) as (v & Hv & Hc); clear H
         end.
  unfold day_number, decimal.
  cbn [list_ascii_of_string lexicographical_compare_three_way substring decimal_from].
  repeat match goal with H : N_of_ascii _ = _ |- _ => rewrite !H; clear H end.
  change (N_of_ascii "-") with 45%N. rewrite !N.compare_refl.
  rewrite !compare_digits.
  assert (Hsub : ∀ x : N, (48 + x - 48 = x)%N) by (intros; lia).
  rewrite !Hsub. clear Hsub. cbn [N.mul N.add].
  repeat match goal with
         | |- context [(?a ?= ?b)%N] =>
             is_var a; is_var b;
             destruct (N.compare_spec a b); [subst| |]
         end;
    symmetry;
    first [ apply N.compare_eq_iff; lia
          | apply N.compare_lt_iff; lia
          | apply N.compare_gt_iff; lia ].
Qed.

Lemma dated_is_not_latest date rest :
  date_shape date = true → String.eqb (date +:+ rest) "latest.log" = false.
Proof.
  intros Hd. destruct date as [|y1 date]; [done|].
  assert (Hy : IStream.is_digit y1 = true).
  { destruct date as [|y2 [|y3 [|y4 [|s1 [|m1 [|m2 [|s2 [|d1 [|d2 [|x r]]]]]]]]]];
      try discriminate Hd.
    unfold date_shape in Hd. by do 9 (apply andb_prop in Hd as [Hd ?]). }
  change (String.eqb (String y1 (date +:+ rest)) "latest.log" = false).
  cbn [String.eqb].
  destruct (Ascii.eqb_spec y1 "l") as [->|]; [discriminate Hy | done].
Qed.

Lemma date_shape_length date : date_shape date = true → String.length date = 10%nat.
Proof.
  intros Hd.
  by destruct date as [|y1 [|y2 [|y3 [|y4 [|s1 [|m1 [|m2 [|s2 [|d1 [|d2 [|x r]]]]]]]]]]].
Qed.

(** X16. The comparator orders the dated paths by day and then by sequence
    number, read as a number: for two names [YYYY-MM-DD-N.log] or
    [YYYY-MM-DD-N.log.gz] whose sequence numbers fit an [unsigned int], the
    first one is less exactly when its day is earlier, or the days are the
    same and its sequence number is smaller as a number (so 9 comes before
    10); the extension plays no part. Without [skip_latest_log], every dated
    name is less than [latest.log], which is less than none. *)
Theorem paths_are_ordered_by_day_then_number (skip_latest_log : bool)
    (date1 seq1 ext1 date2 seq2 ext2 : string) :
  date_shape date1 = true → seq1 ≠ EmptyString → all_digits seq1 = true →
  (decimal seq1 < 2 ^ 32)%N → ext1 = ".log" ∨ ext1 = ".log.gz" →
  date_shape date2 = true → seq2 ≠ EmptyString → all_digits seq2 = true →
  (decimal seq2 < 2 ^ 32)%N → ext2 = ".log" ∨ ext2 = ".log.gz" →
  let name1 := date1 +:+ "-" +:+ seq1 +:+ ext1 in
  let name2 := date2 +:+ "-" +:+ seq2 +:+ ext2 in
  path_less skip_latest_log name1 name2
  = Some (match (day_number date1 ?= day_number date2)%N with
          | Lt => true
          | Gt => false
          | Eq => (decimal seq1 <? decimal seq2)%N
          end)
  ∧ path_less false name1 "latest.log" = Some true
  ∧ path_less false "latest.log" name1 = Some false.
Proof.
  intros Hd1 Hs1 Ha1 Hv1 He1 Hd2 Hs2 Ha2 Hv2 He2 name1 name2.
  assert (Hl1 : String.eqb name1 "latest.log" = false) by (by apply dated_is_not_latest).
  assert (Hl2 : String.eqb name2 "latest.log" = false) by (by apply dated_is_not_latest).
  split; [|split].
  - unfold path_less. rewrite Hl1, Hl2, !andb_false_r.
    subst name1 name2.
    rewrite <- (date_shape_length date1 Hd1) at 1. rewrite substring_app_length.
    rewrite <- (date_shape_length date2 Hd2) at 1. rewrite substring_app_length.
    rewrite lex_date_is_day_number by done.
    rewrite !sequence_number_dated by done.
    by destruct (day_number date1 ?= day_number date2)%N.
  - unfold path_less. by rewrite Hl1.
  - done.
Qed.

Lemma paths_are_ordered_by_day_then_number_witness :
  let name1 := "2024-01-31" +:+ "-" +:+ "9" +:+ ".log.gz" in
  let name2 := "2024-01-31" +:+ "-" +:+ "10" +:+ ".log" in
  path_less true name1 name2
  = Some (match (day_number "2024-01-31" ?= day_number "2024-01-31")%N with
          | Lt => true
          | Gt => false
          | Eq => (decimal "9" <? decimal "10")%N
          end)
  ∧ path_less false name1 "latest.log" = Some true
  ∧ path_less false "latest.log" name1 = Some false.
Proof.
  apply (paths_are_ordered_by_day_then_number true
           "2024-01-31" "9" ".log.gz" "2024-01-31" "10" ".log").
  - reflexivity.
  - discriminate.
  - reflexivity.
  - vm_compute. reflexivity.
  - right. reflexivity.
  - reflexivity.
  - discriminate.
  - reflexivity.
  - vm_compute. reflexivity.
  - left. reflexivity.
Defined.

Lemma unique_head p rest : head (unique (p :: rest)).1 = Some p.
Proof.
  cbn [unique]. destruct (unique rest) as [kept warned].
  destruct rest as [|q rest]; [done|]. by case_bool_decide.
Qed.

(** X17. What the removal of duplicates keeps: the kept paths are a
    sublist of the paths, in their order, starting with the same path; there
    is one warning for every path that is dropped; no two neighbours that are
    kept have the same base name; and every base name of the paths is still
    the base name of a kept path. *)
Theorem unique_keeps_one_path_of_each_run (paths : list (string * bool)) :
  let kept := (unique paths).1 in
  let warned := (unique paths).2 in
  sublist kept paths
  ∧ (length kept + length warned = length paths)%nat
  ∧ head kept = head paths
  ∧ (∀ i p q, kept !! i = Some p → kept !! S i = Some q →
              log_filename_no_ext p ≠ log_filename_no_ext q)
  ∧ (∀ p, p ∈ paths →
          ∃ q, q ∈ kept ∧ log_filename_no_ext q = log_filename_no_ext p).
Proof.
  induction paths as [|p rest IH]; cbn zeta.
  - split; [done|]. split; [done|]. split; [done|]. split.
    + intros i p q H. by cbn in H.
    + intros p H. by apply elem_of_nil in H.
  - cbn zeta in IH. destruct IH as (Hsub & Hlen & Hhd & Hadj & Hall).
    pose proof (unique_head p rest) as Hp. revert Hp.
    cbn [unique]. destruct (unique rest) as [kept warned] eqn:E.
    cbn [fst snd] in *.
    destruct rest as [|q rest].
    { cbn in E. injection E as <- <-. intros _.
      split; [done|]. split; [done|]. split; [done|]. split.
      - intros [|i] a b H1 H2; by rewrite ?lookup_nil in H2.
      - intros a Ha. exists a. by split. }
    destruct kept as [|k kept]; [done|].
    cbn [head] in Hhd. injection Hhd as ->.
    case_bool_decide as Hpq; cbn [fst snd tail length]; intros _.
    + split; [|split; [|split; [|split]]].
      * apply sublist_skip. transitivity (q :: kept); [by apply sublist_cons | done].
      * cbn [length] in Hlen |- *. lia.
      * done.
      * intros [|i] a b H1 H2.
        -- cbn in H1, H2. injection H1 as <-. rewrite Hpq.
           apply (Hadj 0%nat q b); [done | exact H2].
        -- apply (Hadj (S i) a b); [exact H1 | exact H2].
      * intros a [->|Ha]%elem_of_cons.
        -- exists p. split; [apply elem_of_cons; by left | done].
        -- destruct (Hall a Ha) as (b & [->|Hb]%elem_of_cons & Hbase).
           ++ exists p. split; [apply elem_of_cons; by left | by rewrite Hpq].
           ++ exists b. split; [apply elem_of_cons; by right | done].
    + split; [|split; [|split; [|split]]].
      * by apply sublist_skip.
      * cbn [length] in Hlen |- *. lia.
      * done.
      * intros [|i] a b H1 H2.
        -- cbn in H1, H2. injection H1 as <-. injection H2 as <-. done.
        -- apply (Hadj i a b); [exact H1 | exact H2].
      * intros a [->|Ha]%elem_of_cons.
        -- exists p. split; [apply elem_of_cons; by left | done].
        -- destruct (Hall a Ha) as (b & Hb & Hbase).
           exists b. split; [apply elem_of_cons; by right | done].
Qed.

Lemma length_append_string (a b : string) :
  String.length (a +:+ b) = (String.length a + String.length b)%nat.
Proof. induction a as [|c a IH]; [done|]. simpl. by rewrite IH. Qed.

Lemma log_filename_no_ext_base (base ext : string) (gz : bool) :
  String.length ext = (if gz then 7%nat else 4%nat) →
  log_filename_no_ext (base +:+ ext, gz) = Some base.
Proof.
  intros He. unfold log_filename_no_ext. cbn [fst snd].
  rewrite length_append_string, He.
  replace (String.length base + (if gz then 7 else 4) - (if gz then 7 else 4))%nat
    with (String.length base) by (destruct gz; lia).
  rewrite substring_app_length.
  destruct gz.
  - by rewrite (proj2 (Nat.leb_le _ _)) by lia.
  - by rewrite (proj2 (Nat.leb_le _ _)) by lia.
Qed.

(** X18. A log and its packed copy have the same base name:
    [log_filename_no_ext] gives [base] for [base.log] and for [base.log.gz]
    with the flag of a packed file. So when the two are neighbours in the
    sorted paths, the removal of duplicates keeps the first and warns about
    the base name once. *)
Theorem log_and_packed_log_share_base_name (base : string)
    (rest : list (string * bool)) :
  log_filename_no_ext (base +:+ ".log", false) = Some base
  ∧ log_filename_no_ext (base +:+ ".log.gz", true) = Some base
  ∧ unique ((base +:+ ".log", false) :: (base +:+ ".log.gz", true) :: rest)
    = ((base +:+ ".log", false) :: tail (unique ((base +:+ ".log.gz", true) :: rest)).1,
       base :: (unique ((base +:+ ".log.gz", true) :: rest)).2).
Proof.
  assert (H1 : log_filename_no_ext (base +:+ ".log", false) = Some base)
    by (by apply log_filename_no_ext_base).
  assert (H2 : log_filename_no_ext (base +:+ ".log.gz", true) = Some base)
    by (by apply log_filename_no_ext_base).
  split; [done|]. split; [done|].
  remember (base +:+ ".log.gz", true) as p2. remember (base +:+ ".log", false) as p1.
  change (unique (p1 :: p2 :: rest))
    with (let '(kept, warned) := unique (p2 :: rest) in
          if bool_decide (log_filename_no_ext p1 = log_filename_no_ext p2)
          then (p1 :: tail kept, default EmptyString (log_filename_no_ext p1) :: warned)
          else (p1 :: kept, warned)).
  destruct (unique (p2 :: rest)) as [kept warned].
  rewrite H1, H2. by rewrite bool_decide_eq_true_2.
Qed.

End PathOrderFacts.

(** ** The completion callback of the backfill *)

Section CallbackFacts.
Import Backfill.
Variables (io : chrono_io) (skip_latest_log : bool).

Lemma open_next_spec rest rc out s b rc' out' :
  open_next io skip_latest_log rest rc out = ((s, b), rc', out') →
  paths rc' = paths rc
  ∧ ((s = EmptyString
      ∧ Forall (fun f => gives_a_line io skip_latest_log f = false) rest
      ∧ path_ind rc' = (path_ind rc + length rest)%nat)
     ∨ (s ≠ EmptyString ∧ b = true
        ∧ ∃ skipped f rest',
            rest = skipped ++ f :: rest'
            ∧ Forall (fun f => gives_a_line io skip_latest_log f = false) skipped
            ∧ gives_a_line io skip_latest_log f = true
            ∧ path_ind rc' = (path_ind rc + length skipped + 1)%nat)).
Proof.
  revert rc out s b rc' out'.
  induction rest as [|f rest IH]; intros rc out s b rc' out'.
  { simpl. intros [= <- _ <- _]. split; [done|]. left. split; [done|].
    split; [done | lia]. }
  assert (Hskip : ∀ rc1 out1 s1 b1,
            gives_a_line io skip_latest_log f = false →
            paths rc1 = paths rc → path_ind rc1 = S (path_ind rc) →
            open_next io skip_latest_log rest rc1 out1 = ((s1, b1), rc', out') →
            (s1 ≠ EmptyString → b = b1 ∨ b = true) →
            paths rc' = paths rc
            ∧ ((s1 = EmptyString
                ∧ Forall (fun f => gives_a_line io skip_latest_log f = false) (f :: rest)
                ∧ path_ind rc' = (path_ind rc + length (f :: rest))%nat)
               ∨ (s1 ≠ EmptyString ∧ b = true
                  ∧ ∃ skipped f0 rest',
                      f :: rest = skipped ++ f0 :: rest'
                      ∧ Forall (fun f => gives_a_line io skip_latest_log f = false) skipped
                      ∧ gives_a_line io skip_latest_log f0 = true
                      ∧ path_ind rc' = (path_ind rc + length skipped + 1)%nat))).
  { intros rc1 out1 s1 b1 Hbad Hp Hi E Hb.
    apply IH in E as (Hp' & [(-> & Hall & Hn) | (Hs & -> & sk & f0 & r' & -> & Hall & Hg & Hn)]).
    - split; [congruence|]. left. split; [done|]. split; [by constructor|].
      cbn [length]. lia.
    - split; [congruence|]. right. split; [done|].
      split; [by destruct (Hb Hs)|].
      exists (f :: sk), f0, r'. split; [done|]. split; [by constructor|].
      split; [done|]. cbn [length]. lia. }
  assert (Hg : gives_a_line io skip_latest_log f
               = match (if negb skip_latest_log && String.eqb (lf_name f) "latest.log"
                        then Some (lf_mdate f) else from_stream_ymd io (lf_name f)) with
                 | None => false
                 | Some _ =>
                     match lf_body f with
                     | None => false
                     | Some text =>
                         match (next_nonempty (getlines text) 0).1 with
                         | Some _ => true
                         | None => false
                         end
                     end
                 end) by reflexivity.
  cbn [open_next].
  destruct (if negb skip_latest_log && String.eqb (lf_name f) "latest.log"
            then Some (lf_mdate f) else from_stream_ymd io (lf_name f)) as [d|].
  - destruct (lf_body f) as [text|].
    + destruct (next_nonempty (getlines text) 0) as [[[l pending']|] n] eqn:Hn;
        cbn [fst] in Hg.
      * intros [= <- <- <- _].
        destruct (next_nonempty_Some _ _ _ _ _ Hn) as [Hl _].
        split; [done|]. right. split; [done|]. split; [done|].
        exists [], f, rest. split; [done|]. split; [done|].
        split; [done | cbn [path_ind length]; lia].
      * destruct (open_next _ _ _ _ _) as [[[s1 b1] rc1] out1] eqn:E.
        intros [= <- <- <- <-].
        eapply (Hskip _ _ s1 b1); [done | | | exact E | by right]; done.
    + destruct (lf_gz f).
      * intros E. eapply (Hskip _ _ s b); [done | | | exact E | by left]; done.
      * destruct (open_next _ _ _ _ _) as [[[s1 b1] rc1] out1] eqn:E.
        intros [= <- <- <- <-].
        eapply (Hskip _ _ s1 b1); [done | | | exact E | by right]; done.
  - intros E. eapply (Hskip _ _ s b); [done | | | exact E | by left]; done.
Qed.

Lemma get_next_line_spec rc out s b rc' out' :
  get_next_line io skip_latest_log rc out = ((s, b), rc', out') →
  paths rc' = paths rc
  ∧ ((s ≠ EmptyString ∧ b = false ∧ path_ind rc' = path_ind rc)
     ∨ (s = EmptyString
        ∧ Forall (fun f => gives_a_line io skip_latest_log f = false)
            (drop (path_ind rc) (paths rc))
        ∧ path_ind rc' = (path_ind rc + length (drop (path_ind rc) (paths rc)))%nat)
     ∨ (s ≠ EmptyString ∧ b = true
        ∧ ∃ skipped f rest',
            drop (path_ind rc) (paths rc) = skipped ++ f :: rest'
            ∧ Forall (fun f => gives_a_line io skip_latest_log f = false) skipped
            ∧ gives_a_line io skip_latest_log f = true
            ∧ path_ind rc' = (path_ind rc + length skipped + 1)%nat)).
Proof.
  unfold get_next_line. destruct (fin rc) as [pending|].
  - destruct (next_nonempty pending (rc_line rc)) as [[[l pending']|] n] eqn:Hn.
    + intros [= <- <- <- _]. apply next_nonempty_Some in Hn as [Hl _].
      split; [done|]. by left.
    + intros E. apply open_next_spec in E as [Hp H]. split; [done|]. by right.
  - intros E. apply open_next_spec in E as [Hp H]. split; [done|]. by right.
Qed.

Lemma reports_from_none prev rest :
  Forall (fun f => gives_a_line io skip_latest_log f = false) rest →
  reports_from io skip_latest_log prev rest
  = option_list (match last rest with Some l => Some l | None => prev end).
Proof.
  intros H. revert prev. induction H as [|f rest Hf _ IH]; intros prev; [done|].
  cbn [reports_from]. rewrite Hf, IH. cbn [app].
  rewrite last_cons. by destruct (last rest).
Qed.

Lemma reports_from_next prev skipped f rest :
  Forall (fun f => gives_a_line io skip_latest_log f = false) skipped →
  gives_a_line io skip_latest_log f = true →
  reports_from io skip_latest_log prev (skipped ++ f :: rest)
  = option_list (match last skipped with Some l => Some l | None => prev end)
    ++ reports_from io skip_latest_log (Some f) rest.
Proof.
  intros H Hf. revert prev. induction H as [|g skipped Hg _ IH]; intros prev.
  - cbn [app reports_from last]. by rewrite Hf.
  - cbn [app reports_from]. rewrite Hg, IH. cbn [app].
    rewrite last_cons. by destruct (last skipped).
Qed.

Lemma path_at_last rc (l : list log_file) :
  paths rc = l →
  (match l with [] => [] | _ => path_at rc (length l - 1) end)
  = path_of <$> option_list (last l).
Proof.
  intros Hp. unfold path_at. rewrite Hp, last_lookup.
  replace (length l - 1)%nat with (pred (length l)) by lia.
  destruct l as [|x l]; [done|].
  destruct ((x :: l) !! pred (length (x :: l))) eqn:E; [done|].
  apply lookup_ge_None in E. cbn [length] in E. lia.
Qed.

Lemma loop_reports fuel st st' done_ rest :
  parse_logs_loop io skip_latest_log fuel st = Some st' →
  paths (ls_rc st) = done_ ++ rest → path_ind (ls_rc st) = length done_ →
  ls_read_files st'
  = ls_read_files st
    ++ (path_of <$> reports_from io skip_latest_log (last done_) rest).
Proof.
  revert st done_ rest. induction fuel as [|fuel IH]; intros st done_ rest; [done|].
  cbn [parse_logs_loop].
  destruct (get_next_line _ _ _ _) as [[[s b] rc'] out'] eqn:E.
  intros Hloop Hp Hi.
  assert (Hdrop : drop (path_ind (ls_rc st)) (paths (ls_rc st)) = rest).
  { by rewrite Hp, Hi, drop_app_length. }
  apply get_next_line_spec in E as (Hp' & H). rewrite Hdrop in H.
  destruct H as [(Hs & -> & Hn) | [(-> & Hall & Hn) | (Hs & -> & sk & f & r' & -> & Hall & Hg & Hn)]].
  - destruct s as [|c s]; [done|].
    destruct (parse_line _ _ _ _ _) as [r w].
    apply (IH _ done_ rest) in Hloop; [|cbn [ls_rc]; congruence..].
    cbn [ls_read_files andb] in Hloop. by rewrite app_nil_r in Hloop.
  - injection Hloop as <-. cbn [ls_read_files]. f_equal.
    rewrite reports_from_none by done. rewrite <- last_app.
    rewrite Hn, Hi, <- length_app.
    rewrite Hp', Hp. apply path_at_last. congruence.
  - destruct s as [|c s]; [done|].
    destruct (parse_line _ _ _ _ _) as [r w].
    apply (IH _ (done_ ++ sk ++ [f]) r') in Hloop;
      [ | cbn [ls_rc]; rewrite Hp', Hp, <- !app_assoc; done
        | cbn [ls_rc]; rewrite Hn, Hi, !length_app; cbn [length]; lia ].
    cbn [ls_read_files andb] in Hloop. rewrite Hloop, <- app_assoc. f_equal.
    rewrite reports_from_next by done. rewrite fmap_app.
    rewrite app_assoc, last_snoc. f_equal.
    rewrite <- last_app.
    rewrite Hn, Hi.
    destruct (done_ ++ sk) as [|x l] eqn:El.
    + apply app_eq_nil in El as [-> ->]. done.
    + assert (Hlen : (length done_ + length sk = S (length l))%nat).
      { by rewrite <- length_app, El. }
      rewrite Hlen.
      replace (1 <? S (length l) + 1)%nat with true
        by (symmetry; apply Nat.ltb_lt; lia).
      replace (S (length l) + 1 - 2)%nat with (pred (length (x :: l)))
        by (cbn [length]; lia).
      unfold path_at. rewrite Hp', Hp, app_assoc, El.
      rewrite lookup_app_l by (cbn [length]; lia).
      rewrite <- last_lookup.
      destruct (last (x :: l)) eqn:E1; [done|]. by apply last_None in E1.
Qed.

(** X19. The arguments of the completion callback of [parse_logs]. The
    backfill always ends, and the callback has been called with the path
    before every file that was opened and gave a line, and at the end with
    the last path of all. When every file gives a line, these are all the
    files, each named once, in their order. But the callback names the
    neighbour of the file that is opened, not the file that was read: when a
    path that gives no line (unreadable name, failed decompression, no line)
    stands between two files that do, that path is named and the file
    before it is not. *)
Theorem completion_callback_names_the_path_before (save_ctx : bool)
    (files : list log_file) (now : Z) :
  (∃ w, parse_logs io skip_latest_log save_ctx files now
        = Some (w, path_of <$> reports_from io skip_latest_log None files))
  ∧ (Forall (fun f => gives_a_line io skip_latest_log f = true) files →
     reports_from io skip_latest_log None files = files)
  ∧ (∀ a b c rest,
       gives_a_line io skip_latest_log b = false →
       gives_a_line io skip_latest_log c = true →
       reports_from io skip_latest_log None (a :: b :: c :: rest)
       = b :: reports_from io skip_latest_log (Some c) rest).
Proof.
  split; [|split].
  - unfold parse_logs.
    destruct (parse_logs_loop_total io skip_latest_log (loop_bound files)
                {| ls_rc := {| fin := None; paths := files; path_ind := 0;
                               rc_date_tp := 0; rc_line := 0 |};
                   ls_world := {| w_ctx := empty_ctx; w_data := ∅; w_out := [] |};
                   ls_clear_before := false; ls_last_tp := 0; ls_read_files := [] |})
      as [st Hst].
    { unfold loop_bound, unread. cbn [ls_rc fin path_ind paths]. rewrite drop_0. lia. }
    rewrite Hst. apply (loop_reports _ _ _ [] files) in Hst; [|done|done].
    cbn [ls_read_files app last] in Hst. cbn [mbind option_bind].
    rewrite <- Hst. destruct save_ctx; by eexists.
  - assert (H : ∀ prev l,
              Forall (fun f => gives_a_line io skip_latest_log f = true) l →
              reports_from io skip_latest_log prev l = option_list prev ++ l).
    { intros prev l Hl. revert prev. induction Hl as [|f l Hf _ IH]; intros prev.
      - cbn. by rewrite app_nil_r.
      - cbn [reports_from]. rewrite Hf, IH. by destruct prev. }
    intros Hall. by rewrite H.
  - intros a b c rest Hb Hc. cbn [reports_from]. rewrite Hb, Hc.
    by destruct (gives_a_line io skip_latest_log a).
Qed.

End CallbackFacts.

(** ** Following [latest.log] *)

Section TailFacts.
Import Tail.
Variable io : chrono_io.

Lemma chunk_of_app (g1 g2 : list string) :
  chunk_of (g1 ++ g2) = chunk_of g1 +:+ chunk_of g2.
Proof.
  induction g1 as [|l g1 IH]; [done|].
  cbn [app chunk_of]. by rewrite IH, !append_assoc_string.
Qed.

Lemma substring_skip_prefix (a b : string) :
  substring (String.length a) (String.length b) (a +:+ b) = b.
Proof.
  induction a as [|c a IH]; [|exact IH].
  change (substring 0 (String.length b) b = b).
  induction b as [|c b IH]; [done|].
  cbn [String.length substring]. by rewrite IH.
Qed.

Lemma update_player_count_frame st :
  parse_data_ctx (update_player_count st) = parse_data_ctx st
  ∧ persistent_data_ctx (update_player_count st) = persistent_data_ctx st
  ∧ prev_size (update_player_count st) = prev_size st
  ∧ read_files (update_player_count st) = read_files st
  ∧ notices (update_player_count st) = notices st.
Proof. unfold update_player_count. by case_bool_decide. Qed.

Lemma chunk_of_empty g : chunk_of g = EmptyString → g = [].
Proof.
  destruct g as [|l g]; [done|]. cbn [chunk_of].
  destruct l; discriminate.
Qed.

Lemma on_modify_growth d bytes g st :
  from_stream_hms io EmptyString = None →
  Forall (fun l => no_char "010" l = true) g →
  prev_size st = String.length bytes →
  let st' := on_modify io (Some {| ll_mdate := d; ll_bytes := bytes +:+ chunk_of g |}) st in
  parse_data_ctx st' = feed_lines io g (parse_data_ctx st)
  ∧ prev_size st' = String.length (bytes +:+ chunk_of g)
  ∧ persistent_data_ctx st' = persistent_data_ctx st
  ∧ read_files st' = read_files st
  ∧ notices st' = notices st.
Proof.
  intros Hnil Hg Hp st'. subst st'. unfold on_modify.
  cbn [size_of bytes_of ll_bytes]. rewrite length_append_string, Hp.
  replace (String.length bytes + String.length (chunk_of g) <? String.length bytes)%nat
    with false by (symmetry; apply Nat.ltb_ge; lia).
  rewrite Hp.
  destruct (chunk_of g) as [|c rest] eqn:Hc.
  - apply chunk_of_empty in Hc as ->.
    cbn [String.length]. rewrite Nat.add_0_r, Nat.ltb_irrefl, andb_false_r.
    by cbn.
  - rewrite <- Hc.
    replace (0 <? String.length bytes + String.length (chunk_of g))%nat with true
      by (symmetry; apply Nat.ltb_lt; rewrite Hc; cbn [String.length]; lia).
    replace (String.length bytes <? String.length bytes + String.length (chunk_of g))%nat
      with true by (symmetry; apply Nat.ltb_lt; rewrite Hc; cbn [String.length]; lia).
    cbn [andb].
    replace (String.length bytes + String.length (chunk_of g) - String.length bytes)%nat
      with (String.length (chunk_of g)) by lia.
    rewrite substring_skip_prefix.
    pose proof (parse_lines_chunk io g (parse_data_ctx st) Hnil Hg) as Hfeed.
    destruct (parse_lines io (chunk_of g) (parse_data_ctx st)) as [changed w].
    cbn [snd] in Hfeed. subst w. rewrite orb_false_r.
    destruct changed.
    + destruct (update_player_count_frame
                  (set_parse (feed_lines io g (parse_data_ctx st)) st))
        as (H1 & H2 & H3 & H4 & H5).
      cbn [set_prev_size parse_data_ctx persistent_data_ctx prev_size read_files notices].
      by rewrite H1, H2, H4, H5.
    + by cbn.
Qed.

(** X20. Following a file that grows by whole lines gives what feeding its
    lines one by one gives. The loop enters with [prev_size] at the size of
    the file; the file then grows by one group of whole lines at a time and
    every growth is reported as a modification: after the events the parser
    state is that of [parse_line] on every new line in turn, [prev_size] is
    the size of the file, and the snapshot, the list of read files and the
    warnings are untouched. *)
Theorem growth_is_fed_line_by_line (d : Z) (bytes : string)
    (groups : list (list string)) (st : main_state) :
  from_stream_hms io EmptyString = None →
  Forall (fun l => no_char "010" l = true) (concat groups) →
  prev_size st = String.length bytes →
  let st' := handle_results io (growth d bytes groups) st in
  parse_data_ctx st' = feed_lines io (concat groups) (parse_data_ctx st)
  ∧ prev_size st' = String.length (bytes +:+ chunk_of (concat groups))
  ∧ persistent_data_ctx st' = persistent_data_ctx st
  ∧ read_files st' = read_files st
  ∧ notices st' = notices st.
Proof.
  intros Hnil. revert bytes st.
  induction groups as [|g groups IH]; intros bytes st Hall Hp; cbn zeta.
  - cbn. rewrite append_empty_r. done.
  - cbn [concat] in Hall. apply Forall_app in Hall as [Hg Hrest].
    cbn [growth handle_results foldl fst snd].
    assert (Hh : ∀ l s, handle_result io l modified s = on_modify io l s) by done.
    rewrite !Hh.
    destruct (on_modify_growth d bytes g st Hnil Hg Hp) as (H1 & H2 & H3 & H4 & H5).
    destruct (IH (bytes +:+ chunk_of g)
                (on_modify io (Some {| ll_mdate := d; ll_bytes := bytes +:+ chunk_of g |}) st)
                Hrest H2) as (I1 & I2 & I3 & I4 & I5).
    unfold handle_results in I1, I2, I3, I4, I5.
    rewrite I1, I2, I3, I4, I5, H1, H3, H4, H5.
    cbn [concat]. rewrite feed_lines_app, chunk_of_app, append_assoc_string. done.
Qed.

Lemma substring_whole (b : string) : substring 0 (String.length b) b = b.
Proof. induction b as [|c b IH]; [done|]. cbn [String.length substring]. by rewrite IH. Qed.

(** X21. A modification that finds the file smaller than [prev_size]: the
    loop warns, goes back to the committed snapshot (store and context, the
    day baseline of the snapshot included) and parses the whole file again
    on top of it; [prev_size] becomes the size of the file and the snapshot
    stays. The player count is brought up to date after the parse, but when
    the file is empty nothing is parsed and the count that was shown last
    stays, although the online map has been replaced. *)
Theorem shrink_restores_the_snapshot (latest : option latest_log) (st : main_state) :
  (size_of latest < prev_size st)%nat →
  let st' := handle_result io latest modified st in
  let restored := {| w_ctx := (persistent_data_ctx st).2;
                     w_data := (persistent_data_ctx st).1;
                     w_out := w_out (parse_data_ctx st) |} in
  parse_data_ctx st'
  = (if (0 <? size_of latest)%nat
     then (parse_lines io (bytes_of latest) restored).2 else restored)
  ∧ prev_size st' = size_of latest
  ∧ persistent_data_ctx st' = persistent_data_ctx st
  ∧ notices st' = notices st ++ [WarnShrunk]
  ∧ (if (0 <? size_of latest)%nat
     then last_player_count st' = get_num_players (w_ctx (parse_data_ctx st'))
     else last_player_count st' = last_player_count st ∧ presence st' = presence st).
Proof.
  intros Hlt st' restored. subst st'.
  change (handle_result io latest modified st) with (on_modify io latest st).
  unfold on_modify. apply Nat.ltb_lt in Hlt. rewrite Hlt.
  cbn [restore set_prev_size add_notice set_parse prev_size parse_data_ctx
       persistent_data_ctx].
  fold restored.
  destruct (0 <? size_of latest)%nat eqn:Hpos; cbn [andb].
  - rewrite Nat.sub_0_r.
    assert (Hb : substring 0 (size_of latest) (bytes_of latest) = bytes_of latest).
    { destruct latest as [l|]; [apply substring_whole | done]. }
    rewrite Hb.
    destruct (parse_lines io (bytes_of latest) restored) as [changed w].
    rewrite orb_true_r. cbn [snd].
    match goal with
    | |- context [update_player_count ?s] =>
        destruct (update_player_count_frame s) as (H1 & H2 & H3 & H4 & H5);
        set (s0 := s) in *
    end.
    cbn [set_prev_size parse_data_ctx persistent_data_ctx prev_size notices
         last_player_count].
    rewrite H1, H2, H5. repeat split; try done.
    unfold update_player_count. case_bool_decide as Hc; [by rewrite <- Hc | done].
  - by cbn.
Qed.

(** X22. The size of [latest.log] is not recorded when the program starts:
    the startup parses the whole file on top of the backfill and enters the
    loop with [prev_size = 0], so that the first modification reads the file
    from its first byte again. With the file holding the lines [ls] at the
    start and [ls ++ more] at the first modification, the lines [ls] are
    parsed twice. *)
Theorem first_modification_reads_latest_log_again (backfill : world)
    (files : list (string * bool)) (names : list string) (d d' : Z)
    (ls more : list string) :
  from_stream_hms io EmptyString = None →
  Forall (fun l => no_char "010" l = true) ls →
  Forall (fun l => no_char "010" l = true) more →
  mapM PathOrder.log_filename_no_ext files = Some names →
  let w0 := update_date_tp (Some {| ll_mdate := d; ll_bytes := chunk_of ls |}) backfill in
  ∃ st0,
    startup io backfill files (Some {| ll_mdate := d; ll_bytes := chunk_of ls |})
      = Some st0
    ∧ read_files st0 = names
    ∧ persistent_data_ctx st0 = (w_data backfill, w_ctx backfill)
    ∧ prev_size st0 = 0%nat
    ∧ parse_data_ctx st0 = feed_lines io ls w0
    ∧ parse_data_ctx
        (handle_result io
           (Some {| ll_mdate := d'; ll_bytes := chunk_of (ls ++ more) |}) modified st0)
      = feed_lines io (ls ++ more) (feed_lines io ls w0).
Proof.
  intros Hnil Hls Hmore Hnames w0.
  unfold startup. rewrite Hnames. cbn [mbind option_bind].
  eexists. split; [reflexivity|].
  match goal with
  | |- context [update_player_count ?s] =>
      destruct (update_player_count_frame s) as (H1 & H2 & H3 & H4 & H5);
      set (s0 := s) in *
  end.
  assert (Hw : parse_data_ctx s0 = feed_lines io ls w0).
  { subst s0. cbn [parse_data_ctx size_of bytes_of ll_bytes]. fold w0.
    destruct (chunk_of ls) as [|c rest] eqn:Hc.
    - apply chunk_of_empty in Hc as ->. done.
    - rewrite <- Hc. replace (0 <? String.length (chunk_of ls))%nat with true
        by (symmetry; apply Nat.ltb_lt; rewrite Hc; cbn [String.length]; lia).
      by apply parse_lines_chunk. }
  split; [by rewrite H4|]. split; [by rewrite H2|].
  split; [by rewrite H3|]. split; [by rewrite H1|].
  change (handle_result io ?l modified ?s) with (on_modify io l s).
  assert (Hall : Forall (fun l => no_char "010" l = true) (ls ++ more))
    by (by apply Forall_app).
  destruct (on_modify_growth d' EmptyString (ls ++ more) (update_player_count s0)
              Hnil Hall) as (G1 & _); [by rewrite H3|].
  change (EmptyString +:+ chunk_of (ls ++ more)) with (chunk_of (ls ++ more)) in G1.
  by rewrite G1, H1, Hw.
Qed.

(** X23. A result that carries a new name changes neither the parser state
    nor anything but the snapshot, the list of read files, the warnings and
    [prev_size], which is reset. When the new name is [base.log] the current
    store and context become the snapshot and [base] is added to the read
    files; when the name does not end in [.log] the snapshot stays and a
    warning is added. *)
Theorem rename_commits_the_snapshot (latest : option latest_log) (name : string)
    (st : main_state) :
  let st' := handle_result io latest (renamed_to name) st in
  parse_data_ctx st' = parse_data_ctx st
  ∧ prev_size st' = 0%nat
  ∧ (∀ base, name = base +:+ ".log" →
       persistent_data_ctx st' = (w_data (parse_data_ctx st), w_ctx (parse_data_ctx st))
       ∧ read_files st' = read_files st ++ [base]
       ∧ notices st' = notices st)
  ∧ (ends_with ".log" name = false →
       persistent_data_ctx st' = persistent_data_ctx st
       ∧ read_files st' = read_files st
       ∧ notices st' = notices st ++ [WarnExtension name]).
Proof.
  cbn zeta.
  change (handle_result io latest (renamed_to name) st) with (on_moved_to name st).
  unfold on_moved_to.
  split; [by destruct (ends_with ".log" name)|].
  split; [by destruct (ends_with ".log" name)|].
  split.
  - intros base ->.
    assert (He : ends_with ".log" (base +:+ ".log") = true).
    { unfold ends_with. rewrite length_append_string. cbn [String.length].
      rewrite (proj2 (Nat.leb_le _ _)) by lia.
      replace (String.length base + 4 - 4)%nat with (String.length base) by lia.
      change 4%nat with (String.length ".log") at 1.
      by rewrite substring_skip_prefix. }
    rewrite He. cbn [set_prev_size persistent_data_ctx read_files notices].
    rewrite length_append_string. cbn [String.length].
    replace (String.length base + 4 - 4)%nat with (String.length base) by lia.
    by rewrite substring_app_length.
  - intros ->. done.
Qed.

End TailFacts.

Section TailWitnesses.
Import Tail.

Lemma shrink_restores_the_snapshot_witness :
  let st := {| parse_data_ctx :=
                 Scenario.world_with
                   {[ "Alice" := {| uuid := Some Scenario.alice_uuid;
                                    join_time := Some 36000 |} ]} false;
               persistent_data_ctx := (∅, Scenario.ctx_with Scenario.alice_known false);
               prev_size := 100; read_files := []; last_player_count := 1;
               presence := [1%nat]; notices := [] |} in
  let latest := Some {| ll_mdate := 0; ll_bytes := EmptyString |} in
  let st' := handle_result Chrono.io latest modified st in
  let restored := {| w_ctx := (persistent_data_ctx st).2;
                     w_data := (persistent_data_ctx st).1;
                     w_out := w_out (parse_data_ctx st) |} in
  parse_data_ctx st'
  = (if (0 <? size_of latest)%nat
     then (parse_lines Chrono.io (bytes_of latest) restored).2 else restored)
  ∧ prev_size st' = size_of latest
  ∧ persistent_data_ctx st' = persistent_data_ctx st
  ∧ notices st' = notices st ++ [WarnShrunk]
  ∧ (if (0 <? size_of latest)%nat
     then last_player_count st' = get_num_players (w_ctx (parse_data_ctx st'))
     else last_player_count st' = last_player_count st ∧ presence st' = presence st).
Proof.
  apply (shrink_restores_the_snapshot Chrono.io
           (Some {| ll_mdate := 0; ll_bytes := EmptyString |})
           {| parse_data_ctx :=
                Scenario.world_with
                  {[ "Alice" := {| uuid := Some Scenario.alice_uuid;
                                   join_time := Some 36000 |} ]} false;
              persistent_data_ctx := (∅, Scenario.ctx_with Scenario.alice_known false);
              prev_size := 100; read_files := []; last_player_count := 1;
              presence := [1%nat]; notices := [] |}).
  cbn [size_of prev_size ll_bytes String.length]. lia.
Defined.

Lemma growth_is_fed_line_by_line_witness :
  let st := {| parse_data_ctx := Scenario.world_with ∅ false;
               persistent_data_ctx := (∅, Scenario.ctx_with ∅ false);
               prev_size := 0; read_files := []; last_player_count := 0;
               presence := []; notices := [] |} in
  let groups := [[Scenario.uuid_line; Scenario.join_line]; [Scenario.leave_line]] in
  let st' := handle_results Chrono.io (growth 0 EmptyString groups) st in
  parse_data_ctx st' = feed_lines Chrono.io (concat groups) (parse_data_ctx st)
  ∧ prev_size st' = String.length (EmptyString +:+ chunk_of (concat groups))
  ∧ persistent_data_ctx st' = persistent_data_ctx st
  ∧ read_files st' = read_files st
  ∧ notices st' = notices st.
Proof.
  apply (growth_is_fed_line_by_line Chrono.io 0 EmptyString
           [[Scenario.uuid_line; Scenario.join_line]; [Scenario.leave_line]]
           {| parse_data_ctx := Scenario.world_with ∅ false;
              persistent_data_ctx := (∅, Scenario.ctx_with ∅ false);
              prev_size := 0; read_files := []; last_player_count := 0;
              presence := []; notices := [] |}).
  - reflexivity.
  - repeat constructor.
  - reflexivity.
Defined.

Lemma first_modification_reads_latest_log_again_witness :
  let backfill := Scenario.world_with ∅ false in
  let ls := [Scenario.uuid_line; Scenario.join_line; Scenario.leave_line] in
  let more := [Scenario.stop_line] in
  let w0 := update_date_tp (Some {| ll_mdate := 0; ll_bytes := chunk_of ls |}) backfill in
  ∃ st0,
    startup Chrono.io backfill [("2024-01-01-1.log", false)]
      (Some {| ll_mdate := 0; ll_bytes := chunk_of ls |}) = Some st0
    ∧ read_files st0 = ["2024-01-01-1"]
    ∧ persistent_data_ctx st0 = (w_data backfill, w_ctx backfill)
    ∧ prev_size st0 = 0%nat
    ∧ parse_data_ctx st0 = feed_lines Chrono.io ls w0
    ∧ parse_data_ctx
        (handle_result Chrono.io
           (Some {| ll_mdate := 0; ll_bytes := chunk_of (ls ++ more) |}) modified st0)
      = feed_lines Chrono.io (ls ++ more) (feed_lines Chrono.io ls w0).
Proof.
  apply (first_modification_reads_latest_log_again Chrono.io
           (Scenario.world_with ∅ false) [("2024-01-01-1.log", false)]
           ["2024-01-01-1"] 0 0
           [Scenario.uuid_line; Scenario.join_line; Scenario.leave_line]
           [Scenario.stop_line]).
  - reflexivity.
  - repeat constructor.
  - repeat constructor.
  - reflexivity.
Defined.

(** The session of a log that is complete when the program starts is counted
    a second time at the first modification of the file. *)
Example session_of_startup_is_counted_twice :
  let ls := [Scenario.uuid_line; Scenario.join_line; Scenario.leave_line] in
  match startup Chrono.io (Scenario.world_with ∅ false) []
          (Some {| ll_mdate := 0; ll_bytes := chunk_of ls |}) with
  | Some st0 =>
      sessions_of (w_data (parse_data_ctx st0)) Scenario.alice_uuid = [(36000, 3600)]
      ∧ sessions_of
          (w_data (parse_data_ctx
                     (handle_result Chrono.io
                        (Some {| ll_mdate := 0;
                                 ll_bytes := chunk_of (ls ++ [Scenario.stop_line]) |})
                        modified st0)))
          Scenario.alice_uuid
        = [(36000, 3600); (36000, 3600)]
  | None => False
  end.
Proof. vm_compute. by split. Qed.

End TailWitnesses.

(** ** The store only grows *)

Lemma extends_refl data : extends data data.
Proof. intros u. done. Qed.

Lemma extends_trans a b c : extends a b → extends b c → extends a c.
Proof.
  intros Hab Hbc u. destruct (Hab u) as (H1 & H2 & H3), (Hbc u) as (G1 & G2 & G3).
  split; [by etrans|]. split; [by etrans | auto].
Qed.

Lemma extends_close_session data u name j t :
  extends data (close_session data u name j t).
Proof.
  intros u'. unfold sessions_of, close_session.
  destruct (default empty_entry (data !! u)) as [names [ps tot]] eqn:E.
  destruct (decide (u' = u)) as [->|Hne].
  - rewrite lookup_insert_eq, E. cbn [default fst snd].
    split; [by apply prefix_app_r|].
    split; [destruct (last_is names name); [done | by apply prefix_app_r] | by eexists].
  - by rewrite lookup_insert_ne.
Qed.

(** X24. The store only grows: after any sequence of [parse_line] calls,
    [parse_lines] calls, flushes and changes of file, every identity that
    was in the store is still there, and its sessions and its display names
    are those it had, possibly followed by more. *)
Theorem recorded_sessions_are_only_appended_to (io : chrono_io) (ops : list op)
    (w : world) :
  extends (w_data w) (w_data (run io ops w)).
Proof.
  apply (run_invariant (extends (w_data w))).
  - intros data u name j t H. eapply extends_trans; [exact H|].
    apply extends_close_session.
  - apply extends_refl.
Qed.

Section TailInvariant.
Import Tail.
Variable io : chrono_io.

Lemma parse_lines_extends text w : extends (w_data w) (w_data (parse_lines io text w).2).
Proof.
  apply (parse_lines_invariant (extends (w_data w))).
  - intros data u name j t H. eapply extends_trans; [exact H|].
    apply extends_close_session.
  - apply extends_refl.
Qed.

Lemma update_player_count_in_view st : in_view st → in_view (update_player_count st).
Proof. unfold in_view, update_player_count. by case_bool_decide. Qed.

Lemma update_date_tp_data latest w : w_data (update_date_tp latest w) = w_data w.
Proof. by destruct latest. Qed.

Lemma handle_result_in_view latest res st :
  in_view st →
  in_view (handle_result io latest res st)
  ∧ extends (persistent_data_ctx st).1
      (persistent_data_ctx (handle_result io latest res st)).1.
Proof.
  intros H0. unfold handle_result.
  set (s1 := if Watcher.event_create res then on_create latest st else st).
  assert (H1 : in_view s1 ∧ persistent_data_ctx s1 = persistent_data_ctx st).
  { subst s1. destruct (Watcher.event_create res); [|done].
    unfold in_view, on_create. cbn. by rewrite update_date_tp_data. }
  set (s2 := if Watcher.event_create_moved res then on_create_moved io latest s1 else s1).
  assert (H2 : in_view s2 ∧ persistent_data_ctx s2 = persistent_data_ctx st).
  { subst s2. destruct H1 as [H1 E1].
    destruct (Watcher.event_create_moved res); [|done].
    unfold on_create_moved. destruct (0 <? size_of latest)%nat.
    - match goal with
      | |- context [update_player_count ?s] =>
          destruct (update_player_count_frame s) as (F1 & F2 & _);
          assert (Hs : in_view s)
            by (unfold in_view; cbn; apply parse_lines_extends);
          apply update_player_count_in_view in Hs
      end.
      split; [exact Hs | by rewrite <- E1].
    - split; [|done]. unfold in_view. cbn. by rewrite update_date_tp_data. }
  set (s3 := if Watcher.event_modify res then on_modify io latest s2 else s2).
  assert (H3 : in_view s3 ∧ persistent_data_ctx s3 = persistent_data_ctx st).
  { subst s3. destruct H2 as [H2 E2].
    destruct (Watcher.event_modify res); [|done].
    unfold on_modify.
    destruct (size_of latest <? prev_size s2)%nat.
    - cbn [restore set_prev_size add_notice set_parse prev_size parse_data_ctx
           persistent_data_ctx].
      destruct (0 <? size_of latest)%nat; cbn [andb Nat.ltb Nat.leb].
      + rewrite Nat.sub_0_r.
        match goal with
        | |- context [parse_lines io ?t ?w] =>
            pose proof (parse_lines_extends t w) as Hx;
            destruct (parse_lines io t w) as [changed w']
        end.
        rewrite orb_true_r.
        match goal with
        | |- context [update_player_count ?s] =>
            destruct (update_player_count_frame s) as (F1 & F2 & _);
            assert (Hs : in_view s) by exact Hx;
            apply update_player_count_in_view in Hs
        end.
        split; [exact Hs | by rewrite <- E2].
      + split; [|done]. unfold in_view. cbn. apply extends_refl.
    - destruct ((0 <? size_of latest)%nat && (prev_size s2 <? size_of latest)%nat).
      + pose proof (parse_lines_extends
                      (substring (prev_size s2) (size_of latest - prev_size s2)
                         (bytes_of latest)) (parse_data_ctx s2)) as Hx.
        destruct (parse_lines io _ (parse_data_ctx s2)) as [changed w'].
        cbn [snd] in Hx.
        assert (Hs : in_view (set_parse w' s2))
          by (unfold in_view; cbn; eapply extends_trans; [exact H2 | exact Hx]).
        destruct (changed || false).
        * apply update_player_count_in_view in Hs.
          destruct (update_player_count_frame (set_parse w' s2)) as (F1 & F2 & _).
          split; [exact Hs | by rewrite <- E2].
        * split; [exact Hs | done].
      + done. }
  destruct H3 as [H3 E3].
  destruct (Watcher.moved_to res) as [name|].
  - unfold on_moved_to. destruct (ends_with ".log" name).
    + split; [apply extends_refl|]. cbn. rewrite <- E3. exact H3.
    + split; [exact H3|]. cbn. rewrite E3. apply extends_refl.
  - split; [exact H3|]. rewrite E3. apply extends_refl.
Qed.

(** X25. From the start of the program on, whatever the watcher reports
    and whatever the file system shows: the committed snapshot holds
    everything the backfill has read, and the store that the commands see
    holds everything the snapshot holds; going back to the snapshot never
    loses a session that was committed. *)
Theorem committed_sessions_stay_in_view (backfill : world)
    (files : list (string * bool)) (names : list string) (latest : option latest_log)
    (events : list (option latest_log * Watcher.file_watcher_result)) :
  mapM PathOrder.log_filename_no_ext files = Some names →
  ∃ st0,
    startup io backfill files latest = Some st0
    ∧ let st := handle_results io events st0 in
      extends (w_data backfill) (persistent_data_ctx st).1
      ∧ extends (persistent_data_ctx st).1 (w_data (parse_data_ctx st)).
Proof.
  intros Hnames. unfold startup. rewrite Hnames. cbn [mbind option_bind].
  eexists. split; [reflexivity|].
  match goal with
  | |- context [update_player_count ?s] =>
      destruct (update_player_count_frame s) as (F1 & F2 & _);
      assert (Hs : in_view s);
      [|apply update_player_count_in_view in Hs; revert F2 Hs;
        generalize (update_player_count s)]
  end.
  { unfold in_view. cbn [persistent_data_ctx parse_data_ctx fst].
    destruct (0 <? size_of latest)%nat.
    - eapply extends_trans; [|apply parse_lines_extends].
      rewrite update_date_tp_data. apply extends_refl.
    - rewrite update_date_tp_data. apply extends_refl. }
  cbn [persistent_data_ctx]. intros st0 E0 H0.
  assert (Hb : extends (w_data backfill) (persistent_data_ctx st0).1)
    by (rewrite E0; apply extends_refl).
  clear E0. revert st0 H0 Hb. unfold handle_results.
  induction events as [|e events IH]; intros st0 H0 Hb; [done|].
  cbn [foldl]. destruct (handle_result_in_view e.1 e.2 st0 H0) as [H1 H2].
  apply IH; [exact H1|]. by eapply extends_trans.
Qed.

End TailInvariant.

Lemma committed_sessions_stay_in_view_witness :
  ∃ st0,
    Tail.startup Chrono.io (Scenario.world_with ∅ false) [("2024-01-01-1.log", false)]
      (Some {| Tail.ll_mdate := 0;
               Tail.ll_bytes := chunk_of [Scenario.uuid_line; Scenario.join_line] |})
    = Some st0
    ∧ let st := Tail.handle_results Chrono.io
                  [(Some {| Tail.ll_mdate := 0; Tail.ll_bytes := EmptyString |},
                    Tail.modified)] st0 in
      extends (w_data (Scenario.world_with ∅ false)) (Tail.persistent_data_ctx st).1
      ∧ extends (Tail.persistent_data_ctx st).1 (w_data (Tail.parse_data_ctx st)).
Proof.
  apply (committed_sessions_stay_in_view Chrono.io (Scenario.world_with ∅ false)
           [("2024-01-01-1.log", false)] ["2024-01-01-1"]
           (Some {| Tail.ll_mdate := 0;
                    Tail.ll_bytes := chunk_of [Scenario.uuid_line; Scenario.join_line] |})
           [(Some {| Tail.ll_mdate := 0; Tail.ll_bytes := EmptyString |},
             Tail.modified)]).
  reflexivity.
Defined.

(** ** Players who are online when a graph is made *)

Section GraphFacts.
Import Graph.

Lemma uuid_less_irrefl u : uuid_less u u = false.
Proof.
  unfold uuid_less. rewrite !N.ltb_irrefl. by rewrite andb_false_r.
Qed.

Lemma uuid_less_trans a b c :
  uuid_less a b = true → uuid_less b c = true → uuid_less a c = true.
Proof.
  unfold uuid_less. intros H1 H2.
  apply orb_true_iff in H1, H2. apply orb_true_iff.
  rewrite !andb_true_iff, !N.ltb_lt, !N.eqb_eq in *.
  destruct H1 as [H1|[H1 H1']], H2 as [H2|[H2 H2']]; [left; lia.. | right; lia].
Qed.

Lemma uuid_less_asym a b : uuid_less a b = true → uuid_less b a = false.
Proof.
  intros H. destruct (uuid_less b a) eqn:E; [|done].
  pose proof (uuid_less_trans a b a H E) as H'. by rewrite uuid_less_irrefl in H'.
Qed.

Lemma sorted_by_key_cons a l :
  sorted_by_key (a :: l) = true →
  sorted_by_key l = true ∧ Forall (fun b => uuid_less a.1 b.1 = true) l.
Proof.
  revert a. induction l as [|b l IH]; intros a H; [done|].
  change (uuid_less a.1 b.1 && sorted_by_key (b :: l) = true) in H.
  apply andb_prop in H as [Hab Hl]. split; [done|].
  constructor; [done|]. destruct (IH b Hl) as [_ Hall].
  eapply Forall_impl; [exact Hall|]. intros c Hc. by eapply uuid_less_trans.
Qed.

Lemma lower_bound_found log_info i u e :
  sorted_by_key log_info = true → log_info !! i = Some (u, e) →
  lower_bound log_info u = i.
Proof.
  revert i. induction log_info as [|a l IH]; intros i Hs Hi; [done|].
  apply sorted_by_key_cons in Hs as [Hs Hall]. cbn [lower_bound].
  destruct i as [|i].
  - cbn in Hi. injection Hi as ->. cbn [fst]. by rewrite uuid_less_irrefl.
  - cbn in Hi. rewrite Forall_lookup in Hall. specialize (Hall i _ Hi).
    cbn [fst] in Hall. rewrite Hall. f_equal. by apply IH.
Qed.

Lemma lower_bound_spec log_info u :
  Forall (fun b => uuid_less b.1 u = true) (take (lower_bound log_info u) log_info)
  ∧ match log_info !! lower_bound log_info u with
    | Some (k, _) => uuid_less k u = false
    | None => lower_bound log_info u = length log_info
    end.
Proof.
  induction log_info as [|a l [IH1 IH2]]; [done|].
  cbn [lower_bound]. destruct (uuid_less a.1 u) eqn:E.
  - split; [by constructor|]. cbn [lookup list_lookup].
    change ((a :: l) !! S (lower_bound l u)) with (l !! lower_bound l u).
    destruct (l !! lower_bound l u) as [[k e]|]; [done|]. cbn [length]. by f_equal.
  - split; [by constructor|]. cbn. by destruct a.
Qed.

(** X26. An online player whose identity has an entry in the store is
    credited on that entry when a graph is made: the entry gets the session
    from the join instant up to now as its last session, its total grows by
    the same duration, and the player's name is its last display name. *)
Theorem online_player_with_an_entry_is_credited (now : Z)
    (log_info : list (uuid_t * log_entry)) (i : nat) (name : string)
    (u : uuid_t) (j : Z) (e : log_entry) :
  sorted_by_key log_info = true →
  log_info !! i = Some (u, e) →
  leave_now now log_info (name, {| uuid := Some u; join_time := Some j |})
  = Some (<[i := (u, credit name j now e)]> log_info)
  ∧ (credit name j now e).2.1 = e.2.1 ++ [(j, now - j)]
  ∧ (credit name j now e).2.2 = e.2.2 + (now - j)
  ∧ last (credit name j now e).1 = Some name.
Proof.
  intros Hs Hi. split.
  - unfold leave_now. cbn [uuid join_time snd fst].
    by rewrite (lower_bound_found log_info i u e Hs Hi), Hi.
  - destruct e as [names [ps tot]]. cbn [credit fst snd].
    split; [done|]. split; [done|].
    unfold last_is. destruct (last names) as [n|] eqn:E.
    + case_bool_decide as Hn; [by subst | by rewrite last_snoc].
    + by rewrite last_snoc.
Qed.

(** X27. An online player whose identity has no entry in the store (a
    player who has joined and never left, whom the parser has not written to
    the store yet): the entry that [lower_bound] finds is not checked for the
    identity, so the session and the name go to the first entry with a
    greater identity, which belongs to someone else; only when every
    identity of the store is smaller is the exception thrown. *)
Theorem online_player_without_an_entry_is_credited_to_another (now : Z)
    (log_info : list (uuid_t * log_entry)) (name : string) (u : uuid_t) (j : Z) :
  sorted_by_key log_info = true →
  forallb (fun b => negb (bool_decide (b.1 = u))) log_info = true →
  match leave_now now log_info (name, {| uuid := Some u; join_time := Some j |}) with
  | None => Forall (fun b => uuid_less b.1 u = true) log_info
  | Some log_info' =>
      ∃ i k e,
        log_info !! i = Some (k, e) ∧ k ≠ u ∧ uuid_less u k = true
        ∧ Forall (fun b => uuid_less b.1 u = true) (take i log_info)
        ∧ log_info' = <[i := (k, credit name j now e)]> log_info
  end.
Proof.
  intros Hs Hall.
  assert (Hnot : ∀ i e, log_info !! i ≠ Some (u, e)).
  { intros i e Hi. rewrite forallb_forall in Hall.
    assert (Hin : In (u, e) log_info).
    { apply list_elem_of_In. by eapply list_elem_of_lookup_2. }
    apply Hall in Hin. cbn [fst] in Hin. by rewrite bool_decide_eq_true_2 in Hin. }
  unfold leave_now. cbn [uuid join_time snd fst].
  destruct (lower_bound_spec log_info u) as [Hbefore Hat].
  destruct (log_info !! lower_bound log_info u) as [[k e]|] eqn:E.
  - exists (lower_bound log_info u), k, e.
    assert (Hne : k ≠ u) by (intros ->; by apply (Hnot _ _ E)).
    split; [done|]. split; [done|]. split; [|done].
    unfold uuid_less in *. destruct k as [k1 k2], u as [u1 u2]. cbn [fst snd] in *.
    apply orb_false_iff in Hat as [H1 H2].
    apply N.ltb_ge in H1. apply andb_false_iff in H2.
    apply orb_true_iff. rewrite andb_true_iff, !N.ltb_lt, N.eqb_eq.
    destruct (N.lt_ge_cases u1 k1) as [?|?]; [by left|]. right.
    assert (k1 = u1) as -> by lia. split; [done|].
    destruct H2 as [H2|H2]; [by rewrite N.eqb_refl in H2|].
    apply N.ltb_ge in H2.
    destruct (N.lt_ge_cases u2 k2) as [?|?]; [done|].
    exfalso. apply Hne. f_equal. lia.
  - rewrite Hat, firstn_all in Hbefore. exact Hbefore.
Qed.

End GraphFacts.

Lemma online_player_with_an_entry_is_credited_witness :
  let e := (["Alice"], ([(36000, 3600)], 3600)) in
  Graph.leave_now 50000 [(Scenario.alice_uuid, e)]
    ("Alice", {| uuid := Some Scenario.alice_uuid; join_time := Some 43200 |})
  = Some (<[0%nat := (Scenario.alice_uuid, Graph.credit "Alice" 43200 50000 e)]>
            [(Scenario.alice_uuid, e)])
  ∧ (Graph.credit "Alice" 43200 50000 e).2.1 = e.2.1 ++ [(43200, 50000 - 43200)]
  ∧ (Graph.credit "Alice" 43200 50000 e).2.2 = e.2.2 + (50000 - 43200)
  ∧ last (Graph.credit "Alice" 43200 50000 e).1 = Some "Alice".
Proof.
  apply (online_player_with_an_entry_is_credited 50000
           [(Scenario.alice_uuid, (["Alice"], ([(36000, 3600)], 3600)))] 0 "Alice"
           Scenario.alice_uuid 43200 (["Alice"], ([(36000, 3600)], 3600))).
  - reflexivity.
  - reflexivity.
Defined.

Lemma online_player_without_an_entry_is_credited_to_another_witness :
  match Graph.leave_now 50000
          [(Scenario.alice_uuid, (["Alice"], ([(36000, 3600)], 3600)))]
          ("Bob", {| uuid := Some (1%N, 1%N); join_time := Some 43200 |}) with
  | None =>
      Forall (fun b => Graph.uuid_less b.1 (1%N, 1%N) = true)
        [(Scenario.alice_uuid, (["Alice"], ([(36000, 3600)], 3600)))]
  | Some log_info' =>
      ∃ i k e,
        [(Scenario.alice_uuid, (["Alice"], ([(36000, 3600)], 3600)))] !! i = Some (k, e)
        ∧ k ≠ (1%N, 1%N) ∧ Graph.uuid_less (1%N, 1%N) k = true
        ∧ Forall (fun b => Graph.uuid_less b.1 (1%N, 1%N) = true)
            (take i [(Scenario.alice_uuid, (["Alice"], ([(36000, 3600)], 3600)))])
        ∧ log_info'
          = <[i := (k, Graph.credit "Bob" 43200 50000 e)]>
              [(Scenario.alice_uuid, (["Alice"], ([(36000, 3600)], 3600)))]
  end.
Proof.
  apply (online_player_without_an_entry_is_credited_to_another 50000
           [(Scenario.alice_uuid, (["Alice"], ([(36000, 3600)], 3600)))]
           "Bob" (1%N, 1%N) 43200).
  - reflexivity.
  - vm_compute. reflexivity.
Defined.

(** ** The parser does not read what it has printed *)

Lemma foldl_clear_player_out warn file t o l pi data x any :
  foldl (clear_player warn file t) (pi, data, o ++ x, any) l
  = let '(pi', data', out', any') := foldl (clear_player warn file t) (pi, data, x, any) l in
    (pi', data', o ++ out', any').
Proof.
  revert pi data x any. induction l as [|e l IH]; intros pi data x any; [done|].
  cbn [foldl]. unfold clear_player at 2 4.
  destruct (uuid e.2) as [u|]; [|apply IH].
  destruct (join_time e.2) as [j|]; [|apply IH].
  destruct warn; [|apply IH]. rewrite <- app_assoc. apply IH.
Qed.

Lemma clear_all_players_out warn o w t :
  clear_all_players warn (with_out o w) t
  = ((clear_all_players warn w t).1, with_out o (clear_all_players warn w t).2).
Proof.
  unfold clear_all_players. cbn [with_out w_ctx w_data w_out].
  rewrite foldl_clear_player_out.
  by destruct (foldl _ _ _) as [[[pi data] out] any].
Qed.

Lemma player_left_out t name o w :
  player_left t name (with_out o w)
  = ((player_left t name w).1, with_out o (player_left t name w).2).
Proof.
  unfold player_left. cbn [with_out w_ctx w_data w_out].
  destruct (uuid _) as [u|]; [destruct (join_time _) as [j|]|];
    cbn [fst snd with_out w_ctx w_data w_out]; by rewrite <- ?app_assoc.
Qed.

Lemma player_joined_out t name o w :
  player_joined t name (with_out o w) = with_out o (player_joined t name w).
Proof.
  unfold player_joined, with_out. cbn [w_ctx w_data w_out]. by rewrite <- !app_assoc.
Qed.

Lemma put_out m o w : put m (with_out o w) = with_out o (put m w).
Proof. unfold put, with_out. cbn [w_ctx w_data w_out]. by rewrite <- app_assoc. Qed.

Lemma parse_message_out ss t pc o w :
  parse_message ss t pc (with_out o w)
  = ((parse_message ss t pc w).1, with_out o (parse_message ss t pc w).2).
Proof.
  unfold parse_message.
  change (w_ctx (with_out o w)) with (w_ctx w).
  repeat match goal with
    | |- context [IStream.get_string ?s ?x] =>
        destruct (IStream.get_string s x) as [? ?]
    | |- context [clear_all_players ?b (with_out ?o0 ?w0) ?t] =>
        rewrite (clear_all_players_out b o0 w0 t)
    | |- context [player_left ?t ?n (with_out ?o0 ?w0)] =>
        rewrite (player_left_out t n o0 w0)
    | |- context [clear_all_players ?b ?w ?t] =>
        destruct (clear_all_players b w t) as [? ?]
    | |- context [player_left ?t ?n ?w] =>
        destruct (player_left t n w) as [? ?]
    | |- context [parse_uuid ?s] => destruct (parse_uuid s)
    | |- context [if ?b then _ else _] => destruct b
    end; cbn [fst snd]; try reflexivity;
    by rewrite ?put_out, ?player_joined_out.
Qed.

Lemma parse_tagged_out rest t o w cb :
  parse_tagged rest t (with_out o w) cb
  = ((parse_tagged rest t w cb).1, with_out o (parse_tagged rest t w cb).2).
Proof.
  unfold parse_tagged.
  destruct (IStream.get_char _ _) as [ss c].
  destruct (negb (Ascii.eqb c "[") || negb (IStream.good ss)); [done|].
  destruct (IStream.get_char_noskipws _ _) as [ss' c'].
  destruct (negb (Ascii.eqb c' ":") || negb (IStream.good ss')); [done|].
  destruct cb.
  - rewrite clear_all_players_out.
    destruct (clear_all_players true w t) as [pc w']. cbn [fst snd].
    apply parse_message_out.
  - apply parse_message_out.
Qed.

Lemma parse_line_out (io : chrono_io) (b : bool) (text : string)
    (o : list message) (w : world) (cb : bool) :
  parse_line io b text (with_out o w) cb
  = ((parse_line io b text w cb).1, with_out o (parse_line io b text w cb).2).
Proof.
  unfold parse_line. change (w_ctx (with_out o w)) with (w_ctx w).
  destruct (from_stream_hms io _) as [[off rest]|]; [|done].
  apply parse_tagged_out.
Qed.

Lemma parse_line_same_state io b text w1 w2 cb :
  w_ctx w1 = w_ctx w2 → w_data w1 = w_data w2 →
  (parse_line io b text w1 cb).1 = (parse_line io b text w2 cb).1
  ∧ w_ctx (parse_line io b text w1 cb).2 = w_ctx (parse_line io b text w2 cb).2
  ∧ w_data (parse_line io b text w1 cb).2 = w_data (parse_line io b text w2 cb).2.
Proof.
  intros Hc Hd.
  assert (H : ∀ w, w = with_out (w_out w) {| w_ctx := w_ctx w; w_data := w_data w;
                                             w_out := [] |}).
  { intros [c d o]. unfold with_out. cbn. by rewrite app_nil_r. }
  rewrite (H w1), (H w2), !parse_line_out.
  cbn [fst snd with_out w_ctx w_data]. by rewrite Hc, Hd.
Qed.

Lemma foldl_parse_lines_step_out io o ps acc :
  foldl (parse_lines_step io) (acc.1, with_out o acc.2) ps
  = ((foldl (parse_lines_step io) acc ps).1,
     with_out o (foldl (parse_lines_step io) acc ps).2).
Proof.
  revert acc. induction ps as [|p ps IH]; intros [a w]; [done|].
  cbn [foldl fst snd]. unfold parse_lines_step at 2 4 6. cbn [fst snd].
  rewrite parse_line_out.
  destruct (parse_line io true p w false) as [r w']. cbn [fst snd].
  apply (IH (a || player_join_left r, w')).
Qed.

(** X28. The parser never reads what it has printed, and it only adds to
    it: with more messages printed before, [parse_line], [parse_lines] and
    [clear_all_players] return the same result and end in the same context
    and store, and the messages they print come behind the ones that were
    there, unchanged. *)
Theorem parser_does_not_read_its_output (io : chrono_io) (o : list message)
    (w : world) :
  (∀ b text cb,
     parse_line io b text (with_out o w) cb
     = ((parse_line io b text w cb).1, with_out o (parse_line io b text w cb).2))
  ∧ (∀ text,
       parse_lines io text (with_out o w)
       = ((parse_lines io text w).1, with_out o (parse_lines io text w).2))
  ∧ (∀ warn t,
       clear_all_players warn (with_out o w) t
       = ((clear_all_players warn w t).1, with_out o (clear_all_players warn w t).2)).
Proof.
  split; [|split].
  - intros b text cb. apply parse_line_out.
  - intros text. unfold parse_lines.
    apply (foldl_parse_lines_step_out io o (pieces text) (false, w)).
  - intros warn t. apply clear_all_players_out.
Qed.

Section NoTrace.
Import Backfill.
Variables (io : chrono_io) (skip_latest_log : bool).

Local Abbreviation good := (gives_a_line io skip_latest_log).
Local Abbreviation date_of f :=
  (if negb skip_latest_log && String.eqb (lf_name f) "latest.log"
   then Some (lf_mdate f) else from_stream_ymd io (lf_name f)).

Lemma open_next_opened rest rc out s b rc' out' :
  open_next io skip_latest_log rest rc out = ((s, b), rc', out') →
  s ≠ EmptyString →
  ∃ skipped f rest' d text pending,
    rest = skipped ++ f :: rest'
    ∧ Forall (fun f => good f = false) skipped ∧ good f = true
    ∧ date_of f = Some d ∧ lf_body f = Some text
    ∧ next_nonempty (getlines text) 0 = (Some (s, pending), rc_line rc')
    ∧ fin rc' = Some pending ∧ rc_date_tp rc' = d
    ∧ path_ind rc' = (path_ind rc + length skipped + 1)%nat
    ∧ paths rc' = paths rc.
Proof.
  revert rc out s b rc' out'.
  induction rest as [|f rest IH]; intros rc out s b rc' out'.
  { simpl. by intros [= <- _ _ _]. }
  assert (Hskip : ∀ rc1 out1 b1,
            good f = false →
            paths rc1 = paths rc → path_ind rc1 = S (path_ind rc) →
            open_next io skip_latest_log rest rc1 out1 = ((s, b1), rc', out') →
            s ≠ EmptyString →
            ∃ skipped f0 rest' d text pending,
              f :: rest = skipped ++ f0 :: rest'
              ∧ Forall (fun f => good f = false) skipped ∧ good f0 = true
              ∧ date_of f0 = Some d ∧ lf_body f0 = Some text
              ∧ next_nonempty (getlines text) 0 = (Some (s, pending), rc_line rc')
              ∧ fin rc' = Some pending ∧ rc_date_tp rc' = d
              ∧ path_ind rc' = (path_ind rc + length skipped + 1)%nat
              ∧ paths rc' = paths rc).
  { intros rc1 out1 b1 Hbad Hp Hi E Hs.
    apply IH in E as (sk & f0 & r' & d & text & pending & -> & Hall & Hg & Hd & Hb
                      & Hn & Hf & Hdt & Hpi & Hps); [|done].
    exists (f :: sk), f0, r', d, text, pending.
    split; [done|]. split; [by constructor|]. split; [done|]. split; [done|].
    split; [done|]. split; [done|]. split; [done|]. split; [done|].
    split; [cbn [length]; lia | congruence]. }
  assert (Hg : good f
               = match date_of f with
                 | None => false
                 | Some _ =>
                     match lf_body f with
                     | None => false
                     | Some text =>
                         match (next_nonempty (getlines text) 0).1 with
                         | Some _ => true
                         | None => false
                         end
                     end
                 end) by reflexivity.
  cbn [open_next].
  destruct (date_of f) as [d|] eqn:Hd.
  - destruct (lf_body f) as [text|] eqn:Hbody.
    + destruct (next_nonempty (getlines text) 0) as [[[l pending']|] n] eqn:Hn;
        cbn [fst] in Hg.
      * intros [= <- <- <- _] _.
        exists [], f, rest, d, text, pending'.
        split; [done|]. split; [done|]. split; [done|]. split; [done|].
        split; [done|]. split; [done|]. split; [done|]. split; [done|].
        split; [cbn [path_ind length]; lia | done].
      * destruct (open_next _ _ _ _ _) as [[[s1 b1] rc1] out1] eqn:E.
        intros [= <- <- <- <-] Hs.
        eapply (Hskip _ _ b1); [exact Hg | | | exact E | exact Hs]; done.
    + destruct (lf_gz f).
      * intros E Hs. eapply (Hskip _ _ b); [exact Hg | | | exact E | exact Hs]; done.
      * destruct (open_next _ _ _ _ _) as [[[s1 b1] rc1] out1] eqn:E.
        intros [= <- <- <- <-] Hs.
        eapply (Hskip _ _ b1); [exact Hg | | | exact E | exact Hs]; done.
  - intros E Hs. eapply (Hskip _ _ b); [exact Hg | | | exact E | exact Hs]; done.
Qed.

Lemma filter_good_none (l : list log_file) :
  Forall (fun f => good f = false) l → filter (fun f => good f = true) l = [].
Proof.
  induction 1 as [|f l Hf _ IH]; [done|].
  rewrite filter_cons_False by (by rewrite Hf). exact IH.
Qed.

Lemma filter_good_next (skipped : list log_file) f rest :
  Forall (fun f => good f = false) skipped → good f = true →
  filter (fun f => good f = true) (skipped ++ f :: rest)
  = f :: filter (fun f => good f = true) rest.
Proof.
  intros Hs Hf. rewrite filter_app, filter_good_none by done.
  by rewrite filter_cons_True.
Qed.

Lemma open_next_sim rest1 rest2 rc1 rc2 out1 out2 s1 b1 rc1' out1' s2 b2 rc2' out2' :
  filter (fun f => good f = true) rest1 = filter (fun f => good f = true) rest2 →
  drop (path_ind rc1) (paths rc1) = rest1 →
  drop (path_ind rc2) (paths rc2) = rest2 →
  open_next io skip_latest_log rest1 rc1 out1 = ((s1, b1), rc1', out1') →
  open_next io skip_latest_log rest2 rc2 out2 = ((s2, b2), rc2', out2') →
  s1 = s2
  ∧ (s1 ≠ EmptyString →
     b1 = true ∧ b2 = true
     ∧ fin rc1' = fin rc2' ∧ rc_line rc1' = rc_line rc2'
     ∧ rc_date_tp rc1' = rc_date_tp rc2'
     ∧ paths rc1' !! (path_ind rc1' - 1)%nat = paths rc2' !! (path_ind rc2' - 1)%nat
     ∧ filter (fun f => good f = true) (drop (path_ind rc1') (paths rc1'))
       = filter (fun f => good f = true) (drop (path_ind rc2') (paths rc2'))).
Proof.
  intros Hf Hd1 Hd2 E1 E2.
  assert (Hopen : ∀ rest rc out s b rc' out',
            drop (path_ind rc) (paths rc) = rest →
            open_next io skip_latest_log rest rc out = ((s, b), rc', out') →
            (s = EmptyString ∧ filter (fun f => good f = true) rest = [])
            ∨ (s ≠ EmptyString ∧ b = true
               ∧ ∃ f text pending d,
                   filter (fun f => good f = true) rest
                   = f :: filter (fun f => good f = true)
                            (drop (path_ind rc') (paths rc'))
                   ∧ lf_body f = Some text ∧ date_of f = Some d
                   ∧ next_nonempty (getlines text) 0 = (Some (s, pending), rc_line rc')
                   ∧ fin rc' = Some pending ∧ rc_date_tp rc' = d
                   ∧ paths rc' !! (path_ind rc' - 1)%nat = Some f)).
  { intros rest rc out s b rc' out' Hd E.
    destruct (open_next_spec io skip_latest_log _ _ _ _ _ _ _ E)
      as (_ & [(-> & Hall & _) | (Hs & -> & _)]).
    - left. split; [done | by apply filter_good_none].
    - right. split; [done|]. split; [done|].
      apply open_next_opened in E
        as (sk & f & r' & d & text & pending & Hr & Hall & Hg & Hdt & Hb & Hn & Hfin
            & Hdate & Hpi & Hps); [|done].
      exists f, text, pending, d.
      assert (Hlook : paths rc !! (path_ind rc + length sk)%nat = Some f).
      { rewrite <- lookup_drop, Hd, Hr.
        by rewrite lookup_app_r, Nat.sub_diag by lia. }
      assert (Hrest : drop (path_ind rc') (paths rc') = r').
      { rewrite Hps, Hpi.
        replace (path_ind rc + length sk + 1)%nat
          with (path_ind rc + (length sk + 1))%nat by lia.
        rewrite <- drop_drop, Hd, Hr.
        replace (length sk + 1)%nat with (length (sk ++ [f])) by (by rewrite length_app).
        by rewrite (app_assoc sk [f] r' : sk ++ f :: r' = (sk ++ [f]) ++ r'),
          drop_app_length. }
      split; [by rewrite Hr, Hrest, filter_good_next|].
      split; [done|]. split; [done|]. split; [done|]. split; [done|]. split; [done|].
      rewrite Hps, Hpi. by replace (path_ind rc + length sk + 1 - 1)%nat
        with (path_ind rc + length sk)%nat by lia. }
  destruct (Hopen _ _ _ _ _ _ _ Hd1 E1) as [[-> G1] | (Hs1 & -> & f1 & t1 & p1 & d1 & G1)],
    (Hopen _ _ _ _ _ _ _ Hd2 E2) as [[-> G2] | (Hs2 & -> & f2 & t2 & p2 & d2 & G2)].
  - done.
  - destruct G2 as (G2 & _). by rewrite <- Hf, G1 in G2.
  - destruct G1 as (G1 & _). by rewrite Hf, G2 in G1.
  - destruct G1 as (F1 & B1 & D1 & N1 & I1 & T1 & L1),
      G2 as (F2 & B2 & D2 & N2 & I2 & T2 & L2).
    rewrite Hf, F2 in F1. injection F1 as -> Hrest.
    rewrite B1 in B2. injection B2 as ->.
    rewrite D1 in D2. injection D2 as ->.
    rewrite N1 in N2. injection N2 as -> -> Hline.
    split; [done|]. intros _.
    split; [done|]. split; [done|]. split; [congruence|]. split; [done|].
    split; [congruence|]. split; [congruence | done].
Qed.

Lemma get_next_line_sim rc1 rc2 out1 out2 s1 b1 rc1' out1' s2 b2 rc2' out2' :
  fin rc1 = fin rc2 → rc_line rc1 = rc_line rc2 →
  filter (fun f => good f = true) (drop (path_ind rc1) (paths rc1))
  = filter (fun f => good f = true) (drop (path_ind rc2) (paths rc2)) →
  get_next_line io skip_latest_log rc1 out1 = ((s1, b1), rc1', out1') →
  get_next_line io skip_latest_log rc2 out2 = ((s2, b2), rc2', out2') →
  s1 = s2
  ∧ (s1 ≠ EmptyString →
     b1 = b2
     ∧ fin rc1' = fin rc2' ∧ rc_line rc1' = rc_line rc2'
     ∧ (b1 = true →
        rc_date_tp rc1' = rc_date_tp rc2'
        ∧ paths rc1' !! (path_ind rc1' - 1)%nat = paths rc2' !! (path_ind rc2' - 1)%nat)
     ∧ filter (fun f => good f = true) (drop (path_ind rc1') (paths rc1'))
       = filter (fun f => good f = true) (drop (path_ind rc2') (paths rc2'))).
Proof.
  intros Hfin Hline Hf. unfold get_next_line. rewrite <- Hfin, <- Hline.
  assert (Hopen : ∀ r1 r2,
            paths r1 = paths rc1 → path_ind r1 = path_ind rc1 →
            paths r2 = paths rc2 → path_ind r2 = path_ind rc2 →
            open_next io skip_latest_log (drop (path_ind rc1) (paths rc1)) r1 out1
              = ((s1, b1), rc1', out1') →
            open_next io skip_latest_log (drop (path_ind rc2) (paths rc2)) r2 out2
              = ((s2, b2), rc2', out2') →
            s1 = s2
            ∧ (s1 ≠ EmptyString →
               b1 = b2
               ∧ fin rc1' = fin rc2' ∧ rc_line rc1' = rc_line rc2'
               ∧ (b1 = true →
                  rc_date_tp rc1' = rc_date_tp rc2'
                  ∧ paths rc1' !! (path_ind rc1' - 1)%nat
                    = paths rc2' !! (path_ind rc2' - 1)%nat)
               ∧ filter (fun f => good f = true) (drop (path_ind rc1') (paths rc1'))
                 = filter (fun f => good f = true) (drop (path_ind rc2') (paths rc2')))).
  { intros r1 r2 P1 I1 P2 I2 E1 E2.
    assert (D1 : drop (path_ind r1) (paths r1) = drop (path_ind rc1) (paths rc1))
      by (by rewrite P1, I1).
    assert (D2 : drop (path_ind r2) (paths r2) = drop (path_ind rc2) (paths rc2))
      by (by rewrite P2, I2).
    destruct (open_next_sim _ _ r1 r2 _ _ _ _ _ _ _ _ _ _ Hf D1 D2 E1 E2) as [Hs H].
    split; [done|]. intros Hne.
    destruct (H Hne) as (-> & -> & ? & ? & ? & ? & ?). done. }
  destruct (fin rc1) as [pending|].
  - destruct (next_nonempty pending (rc_line rc1)) as [[[l pending']|] n] eqn:Hn.
    + intros [= <- <- <- _] [= <- <- <- _]. split; [done|]. intros _.
      cbn [fin rc_line path_ind paths]. done.
    + apply Hopen; done.
  - apply Hopen; done.
Qed.

Lemma loop_sim fuel1 fuel2 st1 st2 st1' st2' :
  parse_logs_loop io skip_latest_log fuel1 st1 = Some st1' →
  parse_logs_loop io skip_latest_log fuel2 st2 = Some st2' →
  fin (ls_rc st1) = fin (ls_rc st2) →
  rc_line (ls_rc st1) = rc_line (ls_rc st2) →
  filter (fun f => good f = true) (drop (path_ind (ls_rc st1)) (paths (ls_rc st1)))
  = filter (fun f => good f = true) (drop (path_ind (ls_rc st2)) (paths (ls_rc st2))) →
  w_ctx (ls_world st1) = w_ctx (ls_world st2) →
  w_data (ls_world st1) = w_data (ls_world st2) →
  ls_clear_before st1 = ls_clear_before st2 →
  ls_last_tp st1 = ls_last_tp st2 →
  w_ctx (ls_world st1') = w_ctx (ls_world st2')
  ∧ w_data (ls_world st1') = w_data (ls_world st2').
Proof.
  revert fuel2 st1 st2.
  induction fuel1 as [|fuel1 IH]; intros fuel2 st1 st2 H1 H2; [done|].
  destruct fuel2 as [|fuel2]; [done|].
  intros Hfin Hline Hf Hctx Hdata Hcb Hlast.
  cbn [parse_logs_loop] in H1, H2.
  destruct (get_next_line io skip_latest_log (ls_rc st1) (w_out (ls_world st1)))
    as [[[s1 b1] rc1'] out1'] eqn:E1.
  destruct (get_next_line io skip_latest_log (ls_rc st2) (w_out (ls_world st2)))
    as [[[s2 b2] rc2'] out2'] eqn:E2.
  destruct (get_next_line_sim _ _ _ _ _ _ _ _ _ _ _ _ Hfin Hline Hf E1 E2) as [<- H].
  destruct s1 as [|c s].
  { injection H1 as <-. injection H2 as <-. done. }
  destruct H as (<- & Hfin' & Hline' & Hnew & Hf'); [done|].
  rewrite Hctx, Hdata, Hcb, Hlast, Hline' in H1.
  assert (Hb : b1 = true →
               rc_date_tp rc1' = rc_date_tp rc2'
               ∧ paths rc1' !! (path_ind rc1' - 1)%nat
                 = paths rc2' !! (path_ind rc2' - 1)%nat) by exact Hnew.
  assert (Hsame : ∀ x : parse_ctx_t,
            (if b1
             then {| cur_filename :=
                       match paths rc1' !! (path_ind rc1' - 1)%nat with
                       | Some f => lf_name f
                       | None => EmptyString
                       end;
                     date_tp := rc_date_tp rc1'; line := line x;
                     player_info := player_info x; server_stopped := server_stopped x |}
             else x)
            = (if b1
               then {| cur_filename :=
                         match paths rc2' !! (path_ind rc2' - 1)%nat with
                         | Some f => lf_name f
                         | None => EmptyString
                         end;
                       date_tp := rc_date_tp rc2'; line := line x;
                       player_info := player_info x;
                       server_stopped := server_stopped x |}
               else x)).
  { intros x. destruct b1; [|done]. destruct (Hb eq_refl) as [-> ->]. done. }
  rewrite (Hsame (w_ctx (ls_world st2))) in H1.
  clear Hsame.
  match type of H1 with
  | context [parse_line io true ?t ?W ?CB] =>
      match type of H2 with
      | context [parse_line io true t ?W' CB] =>
          pose proof (parse_line_same_state io true t W W' CB eq_refl eq_refl)
            as (Hr & Hc & Hd);
          destruct (parse_line io true t W CB) as [r1 w1];
          destruct (parse_line io true t W' CB) as [r2 w2]
      end
  end.
  cbn [fst snd] in Hr, Hc, Hd. subst r2.
  eapply (IH _ _ _ H1 H2); cbn [ls_rc ls_world ls_clear_before ls_last_tp]; done.
Qed.

(** X29. A path that gives no line (a name without a readable date, a
    failed decompression, a file that cannot be opened or holds no line that
    is not empty) leaves no trace in what the backfill returns: two lists of
    paths with the same files that give a line, in the same order, end in
    the same context and the same store. Only the messages and the arguments
    of the completion callback can differ. *)
Theorem files_without_lines_leave_no_trace (save_ctx : bool)
    (files1 files2 : list log_file) (now : Z) :
  filter (fun f => gives_a_line io skip_latest_log f = true) files1
  = filter (fun f => gives_a_line io skip_latest_log f = true) files2 →
  ∃ w1 r1 w2 r2,
    parse_logs io skip_latest_log save_ctx files1 now = Some (w1, r1)
    ∧ parse_logs io skip_latest_log save_ctx files2 now = Some (w2, r2)
    ∧ w_ctx w1 = w_ctx w2 ∧ w_data w1 = w_data w2.
Proof.
  intros Hf. unfold parse_logs.
  assert (Htot : ∀ files,
            is_Some (parse_logs_loop io skip_latest_log (loop_bound files)
                       {| ls_rc := {| fin := None; paths := files; path_ind := 0;
                                      rc_date_tp := 0; rc_line := 0 |};
                          ls_world := {| w_ctx := empty_ctx; w_data := ∅; w_out := [] |};
                          ls_clear_before := false; ls_last_tp := 0;
                          ls_read_files := [] |})).
  { intros files. apply parse_logs_loop_total.
    unfold loop_bound, unread. cbn [ls_rc fin path_ind paths]. rewrite drop_0. lia. }
  destruct (Htot files1) as [st1 H1], (Htot files2) as [st2 H2].
  rewrite H1, H2. cbn [mbind option_bind].
  destruct (loop_sim _ _ _ _ _ _ H1 H2) as [Hc Hd]; try done.
  destruct save_ctx.
  - by exists (ls_world st1), (ls_read_files st1), (ls_world st2), (ls_read_files st2).
  - eexists _, _, _, _. split; [reflexivity|]. split; [reflexivity|].
    assert (H : ∀ w, w = with_out (w_out w) {| w_ctx := w_ctx w; w_data := w_data w;
                                               w_out := [] |}).
    { intros [c d o]. unfold with_out. cbn. by rewrite app_nil_r. }
    rewrite (H (ls_world st1)), (H (ls_world st2)), !clear_all_players_out.
    cbn [fst snd with_out w_ctx w_data]. by rewrite Hc, Hd.
Qed.

End NoTrace.

Lemma files_without_lines_leave_no_trace_witness :
  let broken := {| Backfill.lf_name := "2024-01-01-2.log.gz"; Backfill.lf_gz := true;
                   Backfill.lf_mdate := 0; Backfill.lf_body := None |} in
  let third := {| Backfill.lf_name := "2024-01-02-1.log"; Backfill.lf_gz := false;
                  Backfill.lf_mdate := 0;
                  Backfill.lf_body := Some (chunk_of [Scenario.leave_line]) |} in
  ∃ w1 r1 w2 r2,
    Backfill.parse_logs Chrono.io true true [Scenario.first_file; broken; third] 0
      = Some (w1, r1)
    ∧ Backfill.parse_logs Chrono.io true true [Scenario.first_file; third] 0
      = Some (w2, r2)
    ∧ w_ctx w1 = w_ctx w2 ∧ w_data w1 = w_data w2.
Proof.
  apply (files_without_lines_leave_no_trace Chrono.io true true
           [Scenario.first_file;
            {| Backfill.lf_name := "2024-01-01-2.log.gz"; Backfill.lf_gz := true;
               Backfill.lf_mdate := 0; Backfill.lf_body := None |};
            {| Backfill.lf_name := "2024-01-02-1.log"; Backfill.lf_gz := false;
               Backfill.lf_mdate := 0;
               Backfill.lf_body := Some (chunk_of [Scenario.leave_line]) |}]
           [Scenario.first_file;
            {| Backfill.lf_name := "2024-01-02-1.log"; Backfill.lf_gz := false;
               Backfill.lf_mdate := 0;
               Backfill.lf_body := Some (chunk_of [Scenario.leave_line]) |}] 0).
  vm_compute. reflexivity.
Defined.

(** ** Two files of one day *)

Section Rotation.
Import Backfill.
Variables (io : chrono_io) (skip_latest_log : bool).

Lemma numbered_length pending n : (length (numbered pending n) ≤ length pending)%nat.
Proof.
  revert n. induction pending as [|s pending IH]; intros n; [done|].
  destruct s; simpl; specialize (IH (S n)); lia.
Qed.

Lemma numbered_nil pending n : numbered pending n = [] → (next_nonempty pending n).1 = None.
Proof.
  revert n. induction pending as [|s pending IH]; intros n; [done|].
  destruct s; simpl; [apply IH | done].
Qed.

Lemma numbered_cons pending n k s more :
  numbered pending n = (k, s) :: more →
  s ≠ EmptyString
  ∧ ∃ rest, next_nonempty pending n = (Some (s, rest), k) ∧ numbered rest k = more.
Proof.
  revert n. induction pending as [|l pending IH]; intros n; [done|].
  destruct l as [|c l]; simpl; [apply IH|].
  intros [= <- <- <-]. split; [done|]. by eexists.
Qed.

Lemma get_next_line_in_file rc out pending k s more :
  fin rc = Some pending → numbered pending (rc_line rc) = (k, s) :: more →
  ∃ rest,
    numbered rest k = more
    ∧ get_next_line io skip_latest_log rc out
      = ((s, false),
         {| fin := Some rest; paths := paths rc; path_ind := path_ind rc;
            rc_date_tp := rc_date_tp rc; rc_line := k |}, out).
Proof.
  intros Hfin Hnum. apply numbered_cons in Hnum as (_ & rest & Hn & Hrest).
  exists rest. split; [done|]. unfold get_next_line. by rewrite Hfin, Hn.
Qed.

Lemma get_next_line_done rc out :
  file_done rc →
  ∃ n, get_next_line io skip_latest_log rc out
       = open_next io skip_latest_log (drop (path_ind rc) (paths rc))
           {| fin := None; paths := paths rc; path_ind := path_ind rc;
              rc_date_tp := rc_date_tp rc; rc_line := n |} out.
Proof.
  unfold file_done, get_next_line. destruct rc as [[pending|] ps i d n]; simpl.
  - destruct (next_nonempty pending n) as [[x|] m]; [done|]. intros _. by exists m.
  - intros _. by exists n.
Qed.

Lemma read_lines_cons x more acc :
  read_lines io (x :: more) acc = read_lines io more (read_line io acc x).
Proof. reflexivity. Qed.

Lemma read_lines_app pre post acc :
  read_lines io (pre ++ post) acc = read_lines io post (read_lines io pre acc).
Proof. apply foldl_app. Qed.

Lemma read_line_eq k s w cb r w' :
  parse_line io true s (at_line k w) cb = (r, w') →
  read_line io (w, cb) (k, s) = (w', if read_valid_line r then false else cb).
Proof. unfold read_line. cbn [fst snd]. by intros ->. Qed.

(** The lines of the open stream are read one after the other, each with its
    number. *)
Lemma loop_in_file more : ∀ st fuel pending,
  fin (ls_rc st) = Some pending →
  numbered pending (rc_line (ls_rc st)) = more →
  ∃ rc',
    file_done rc' ∧ paths rc' = paths (ls_rc st) ∧ path_ind rc' = path_ind (ls_rc st)
    ∧ parse_logs_loop io skip_latest_log (length more + fuel) st
      = parse_logs_loop io skip_latest_log fuel
          {| ls_rc := rc';
             ls_world := (read_lines io more (ls_world st, ls_clear_before st)).1;
             ls_clear_before := (read_lines io more (ls_world st, ls_clear_before st)).2;
             ls_last_tp := ls_last_tp st;
             ls_read_files := ls_read_files st |}.
Proof.
  induction more as [|[k s] more IH]; intros st fuel pending Hfin Hnum.
  - exists (ls_rc st). split; [|split; [done|split; [done|]]].
    + unfold file_done. rewrite Hfin. by apply numbered_nil.
    + by destruct st.
  - destruct (numbered_cons _ _ _ _ _ Hnum) as (Hs & _).
    destruct s as [|c s']; [done|].
    destruct (get_next_line_in_file (ls_rc st) (w_out (ls_world st)) pending k
                (String c s') more Hfin Hnum) as (rest & Hrest & Hg).
    cbn [length Nat.add parse_logs_loop]. rewrite Hg.
    cbn [andb app].
    change {| w_ctx := _; w_data := w_data (ls_world st); w_out := w_out (ls_world st) |}
      with (at_line k (ls_world st)).
    destruct (parse_line io true (String c s') (at_line k (ls_world st))
                (ls_clear_before st)) as [r w] eqn:E.
    rewrite app_nil_r.
    edestruct (IH {| ls_rc := {| fin := Some rest; paths := paths (ls_rc st);
                                 path_ind := path_ind (ls_rc st);
                                 rc_date_tp := rc_date_tp (ls_rc st); rc_line := k |};
                     ls_world := w;
                     ls_clear_before := if read_valid_line r then false
                                        else ls_clear_before st;
                     ls_last_tp := ls_last_tp st;
                     ls_read_files := ls_read_files st |} fuel rest eq_refl Hrest)
      as (rc' & Hdone & Hp & Hi & Hloop).
    cbn [ls_rc ls_world ls_clear_before ls_last_tp ls_read_files paths path_ind]
      in Hp, Hi, Hloop.
    exists rc'. split; [done|]. split; [done|]. split; [done|].
    by rewrite Hloop, read_lines_cons, (read_line_eq _ _ _ _ _ _ E).
Qed.

Lemma drop_head {A : Type} (l : list A) (i : nat) (x : A) (rest : list A) :
  drop i l = x :: rest → l !! i = Some x.
Proof.
  intros H. rewrite <- (Nat.add_0_r i), <- lookup_drop, H. done.
Qed.

(** A file that gives a line is opened and read to its end. *)
Lemma loop_open_file st fuel f rest d text k s more :
  file_done (ls_rc st) →
  drop (path_ind (ls_rc st)) (paths (ls_rc st)) = f :: rest →
  date_of io skip_latest_log f = Some d →
  lf_body f = Some text →
  numbered (getlines text) 0 = (k, s) :: more →
  let start := (in_file (lf_name f) d (ls_world st),
                if d =? ls_last_tp st then true else ls_clear_before st) in
  ∃ rc' rf,
    file_done rc' ∧ paths rc' = paths (ls_rc st)
    ∧ path_ind rc' = S (path_ind (ls_rc st))
    ∧ parse_logs_loop io skip_latest_log (S (length more) + fuel) st
      = parse_logs_loop io skip_latest_log fuel
          {| ls_rc := rc';
             ls_world := (read_lines io ((k, s) :: more) start).1;
             ls_clear_before := (read_lines io ((k, s) :: more) start).2;
             ls_last_tp := d;
             ls_read_files := rf |}.
Proof.
  intros Hdone Hdrop Hdate Hbody Hnum start.
  destruct (numbered_cons _ _ _ _ _ Hnum) as (Hs & pending & Hn & Hrest).
  destruct s as [|c s']; [done|].
  destruct (get_next_line_done (ls_rc st) (w_out (ls_world st)) Hdone) as [n0 Hg].
  cbn [Nat.add parse_logs_loop]. rewrite Hg, Hdrop.
  cbn [open_next paths path_ind rc_date_tp].
  unfold date_of in Hdate. rewrite Hdate, Hbody, Hn.
  cbn [paths path_ind rc_date_tp rc_line andb date_tp cur_filename].
  rewrite Nat.sub_succ, Nat.sub_0_r, (drop_head _ _ _ _ Hdrop).
  change {| w_ctx := _; w_data := w_data (ls_world st); w_out := w_out (ls_world st) |}
    with (at_line k (in_file (lf_name f) d (ls_world st))).
  destruct (parse_line io true (String c s') (at_line k (in_file (lf_name f) d (ls_world st)))
              (if d =? ls_last_tp st then true else ls_clear_before st)) as [r w] eqn:E.
  match goal with
  | |- context [parse_logs_loop _ _ (length more + fuel) ?st1] =>
      edestruct (loop_in_file more st1 fuel pending eq_refl Hrest)
        as (rc' & Hdone' & Hp & Hi & Hloop)
  end.
  cbn [ls_rc ls_world ls_clear_before ls_last_tp ls_read_files paths path_ind]
    in Hp, Hi, Hloop.
  exists rc'. eexists. split; [done|]. split; [done|]. split; [done|].
  subst start. by rewrite Hloop, read_lines_cons, (read_line_eq _ _ _ _ _ _ E).
Qed.

(** After the last file the loop ends with the world as it is. *)
Lemma loop_end st fuel :
  file_done (ls_rc st) →
  drop (path_ind (ls_rc st)) (paths (ls_rc st)) = [] →
  ∃ st', parse_logs_loop io skip_latest_log (S fuel) st = Some st'
         ∧ ls_world st' = ls_world st.
Proof.
  intros Hdone Hdrop.
  destruct (get_next_line_done (ls_rc st) (w_out (ls_world st)) Hdone) as [n0 Hg].
  cbn [parse_logs_loop]. rewrite Hg, Hdrop. cbn [open_next].
  eexists. split; [reflexivity|]. cbn [ls_world]. by destruct (ls_world st).
Qed.


Lemma parse_line_unrecognized text w cb :
  recognized io text = false → parse_line io true text w cb = (mk_res false false, w).
Proof.
  unfold recognized, parse_line.
  destruct (from_stream_hms io (strip_cr text)) as [[off rest]|]; [|done].
  intros Hw. by apply parse_tagged_well_tagged.
Qed.

(** Lines that are not recognized change the line number only, and leave
    [clear_before] as it is. *)
Lemma read_lines_unrecognized pre w cb :
  forallb (fun p => negb (recognized io p.2)) pre = true →
  ∃ w', read_lines io pre (w, cb) = (w', cb) ∧ ∀ n, at_line n w' = at_line n w.
Proof.
  revert w. induction pre as [|[k s] pre IH]; intros w Hpre.
  { by exists w. }
  cbn [forallb snd] in Hpre. apply andb_prop in Hpre as [Hs Hpre].
  apply negb_true_iff in Hs.
  rewrite read_lines_cons.
  rewrite (read_line_eq k s w cb _ _ (parse_line_unrecognized s (at_line k w) cb Hs)).
  cbn [read_valid_line].
  destruct (IH (at_line k w) Hpre) as (w' & -> & Hw').
  exists w'. split; [done|]. intros n. by rewrite Hw'.
Qed.

Lemma foldl_clear_out_keeps warn file t l st m :
  m ∈ st.1.2 → m ∈ (foldl (clear_player warn file t) st l).1.2.
Proof.
  intros Hm.
  apply (foldl_clear_ind warn file t (fun st => m ∈ st.1.2)); [done|].
  intros st' e _ Hst'.
  destruct (clear_player_cases warn file t st' e) as [[-> _]|(u' & j & _ & _ & ->)]; [done|].
  simpl. destruct warn; [|done]. apply elem_of_app. by left.
Qed.

Lemma foldl_clear_warns file t l st k v u j :
  (k, v) ∈ l → uuid v = Some u → join_time v = Some j →
  WarnNeverLeft k file t ∈ (foldl (clear_player true file t) st l).1.2.
Proof.
  intros Hin Hu Hj. revert st.
  induction l as [|e l IH]; intros st; [by apply elem_of_nil in Hin|].
  cbn [foldl]. apply elem_of_cons in Hin as [<-|Hin]; [|by apply IH].
  apply foldl_clear_out_keeps.
  destruct (clear_player_cases true file t st (k, v))
    as [[_ [H|H]]|(u' & j' & Hu' & Hj' & ->)]; simpl in *; try congruence.
  apply elem_of_app. right. by apply list_elem_of_singleton.
Qed.

(** The flush of [clear_before] prints its warning for every entry that it
    closes, with the name of the file being read and the instant of the
    flush. *)
Lemma flush_warns w t name u j :
  player_info (w_ctx w) !! name = Some {| uuid := Some u; join_time := Some j |} →
  WarnNeverLeft name (cur_filename (w_ctx w)) t ∈ w_out (clear_all_players true w t).2.
Proof.
  intros Hl. rewrite clear_all_players_unfold. simpl.
  apply (foldl_clear_warns _ t _ _ name {| uuid := Some u; join_time := Some j |} u j);
    [by apply elem_of_map_to_list | done | done].
Qed.

Lemma flush_out_grows warn w t m :
  m ∈ w_out w → m ∈ w_out (clear_all_players warn w t).2.
Proof.
  intros Hm. rewrite clear_all_players_unfold. simpl. by apply foldl_clear_out_keeps.
Qed.

Lemma parse_line_out_grows b text w cb m :
  m ∈ w_out w → m ∈ w_out (parse_line io b text w cb).2.
Proof.
  intros Hm.
  assert (H : w = with_out (w_out w) {| w_ctx := w_ctx w; w_data := w_data w;
                                        w_out := [] |}).
  { destruct w as [c d o]. unfold with_out. simpl. by rewrite app_nil_r. }
  rewrite H, parse_line_out. cbn [snd with_out w_out].
  apply elem_of_app. by left.
Qed.

Lemma parse_line_keeps_session b text w cb u s :
  s ∈ sessions_of (w_data w) u → s ∈ sessions_of (w_data (parse_line io b text w cb).2) u.
Proof.
  apply (parse_line_invariant (fun data => s ∈ sessions_of data u)).
  intros data u' name j t Hs. rewrite sessions_of_close_session.
  case_decide; [|done]. apply elem_of_app. by left.
Qed.

(** What is recorded and what is printed stays so while lines are read. *)
Lemma read_lines_keeps ls : ∀ acc u s m,
  (s ∈ sessions_of (w_data acc.1) u →
   s ∈ sessions_of (w_data (read_lines io ls acc).1) u)
  ∧ (m ∈ w_out acc.1 → m ∈ w_out (read_lines io ls acc).1).
Proof.
  induction ls as [|[k l] ls IH]; intros acc u s m; [done|].
  rewrite read_lines_cons.
  destruct (IH (read_line io acc (k, l)) u s m) as [IH1 IH2].
  assert (E : (read_line io acc (k, l)).1
              = (parse_line io true l (at_line k acc.1) acc.2).2).
  { unfold read_line. cbn [fst snd]. by destruct (parse_line _ _ _ _ _). }
  rewrite E in IH1, IH2. split; intros H.
  - apply IH1. by apply parse_line_keeps_session.
  - apply IH2. by apply parse_line_out_grows.
Qed.

Lemma finish_keeps save_ctx now w u s m :
  (s ∈ sessions_of (w_data w) u → s ∈ sessions_of (w_data (finish save_ctx now w)) u)
  ∧ (m ∈ w_out w → m ∈ w_out (finish save_ctx now w)).
Proof.
  unfold finish. destruct save_ctx; [done|]. split.
  - apply flush_keeps_sessions.
  - apply flush_out_grows.
Qed.

Lemma gives_a_line_numbered f :
  gives_a_line io skip_latest_log f = true →
  ∃ d text k s more,
    date_of io skip_latest_log f = Some d ∧ lf_body f = Some text
    ∧ numbered (getlines text) 0 = (k, s) :: more.
Proof.
  unfold gives_a_line, date_of.
  destruct (if negb skip_latest_log && String.eqb (lf_name f) "latest.log"
            then Some (lf_mdate f) else from_stream_ymd io (lf_name f)) as [d|]; [|done].
  destruct (lf_body f) as [text|]; [|done].
  destruct (numbered (getlines text) 0) as [|[k s] more] eqn:E.
  { apply numbered_nil in E. by rewrite E. }
  intros _. by exists d, text, k, s, more.
Qed.

Lemma parse_logs_finish save_ctx files now st :
  parse_logs_loop io skip_latest_log (loop_bound files)
    {| ls_rc := {| fin := None; paths := files; path_ind := 0;
                   rc_date_tp := 0; rc_line := 0 |};
       ls_world := {| w_ctx := empty_ctx; w_data := ∅; w_out := [] |};
       ls_clear_before := false; ls_last_tp := 0; ls_read_files := [] |} = Some st →
  parse_logs io skip_latest_log save_ctx files now
  = Some (finish save_ctx now (ls_world st), ls_read_files st).
Proof.
  intros H. unfold parse_logs, finish. rewrite H. simpl. by destruct save_ctx.
Qed.

(** C2, amended. Backfill over two files of one day. The first file gives
    a line; the second file has the same date [d], and its first recognized
    line [l], after any lines [pre] that are not recognized, is stamped
    [off] after midnight. With [w1] the world that the first file leaves,
    the flush of [clear_before] fires on [l] at the instant [d + off], in
    the second file and at the number of [l], before [l] is otherwise
    interpreted: the result of the backfill is the result of reading [l]
    without [clear_before], and then the lines after it, in the world [w_f]
    that this flush leaves. The flush closes every entry that has an
    identity and a join instant. For a join at [joff] after midnight of that
    day the session recorded starts at [d + joff] and lasts [off - joff]: no
    day is added, so that a join at 10:00:00 closed by a line stamped
    09:00:00 lasts minus one hour. The warning for that player, with the
    name of the second file and the instant [d + off], is printed. *)
Theorem rotation_flushes_before_first_line (save_ctx : bool) (now : Z)
    (f1 f2 : log_file) (d : Z) (text2 : string) (pre post : list (nat * string))
    (n : nat) (l : string) (off : Z) (rest : string) :
  gives_a_line io skip_latest_log f1 = true →
  date_of io skip_latest_log f1 = Some d →
  date_of io skip_latest_log f2 = Some d →
  lf_body f2 = Some text2 →
  numbered (getlines text2) 0 = pre ++ (n, l) :: post →
  forallb (fun p => negb (recognized io p.2)) pre = true →
  from_stream_hms io (strip_cr l) = Some (off, rest) →
  well_tagged rest = true →
  ∃ w1 r1 w2 r2,
    parse_logs io skip_latest_log true [f1] now = Some (w1, r1)
    ∧ parse_logs io skip_latest_log save_ctx [f1; f2] now = Some (w2, r2)
    ∧ let t := d + off in
      let w_f := (clear_all_players true (at_line n (in_file (lf_name f2) d w1)) t).2 in
      w2 = finish save_ctx now
             (read_lines io post ((parse_line io true l w_f false).2, false)).1
      ∧ closes_online t w1 w_f
      ∧ ∀ name u joff,
          player_info (w_ctx w1) !! name
            = Some {| uuid := Some u; join_time := Some (d + joff) |} →
          (d + joff, off - joff) ∈ sessions_of (w_data w_f) u
          ∧ (d + joff, off - joff) ∈ sessions_of (w_data w2) u
          ∧ WarnNeverLeft name (lf_name f2) t ∈ w_out w_f
          ∧ WarnNeverLeft name (lf_name f2) t ∈ w_out w2.
Proof.
  intros Hg1 Hd1 Hd2 Hb2 Hn2 Hpre Hts Hw.
  destruct (gives_a_line_numbered f1 Hg1) as (d' & text1 & k1 & s1 & more1 & Hd1' & Hb1 & Hn1).
  assert (d' = d) as -> by congruence. clear Hd1'.
  set (w0 := {| w_ctx := empty_ctx; w_data := ∅; w_out := [] |}).
  set (start1 := (in_file (lf_name f1) d w0, if d =? 0 then true else false)).
  set (w1 := (read_lines io ((k1, s1) :: more1) start1).1).
  set (cb1 := (read_lines io ((k1, s1) :: more1) start1).2).
  assert (Hlen1 : (S (length more1) ≤ lines_in f1)%nat).
  { unfold lines_in. rewrite Hb1.
    change (S (length more1)) with (length ((k1, s1) :: more1)). rewrite <- Hn1.
    apply numbered_length. }
  assert (Hlen2 : (length (pre ++ (n, l) :: post) ≤ lines_in f2)%nat).
  { unfold lines_in. rewrite Hb2, <- Hn2. apply numbered_length. }
  (* the first file alone *)
  assert (Hrun1 : ∃ r1, parse_logs io skip_latest_log true [f1] now = Some (w1, r1)).
  { destruct (loop_open_file
                {| ls_rc := {| fin := None; paths := [f1]; path_ind := 0;
                               rc_date_tp := 0; rc_line := 0 |};
                   ls_world := w0; ls_clear_before := false; ls_last_tp := 0;
                   ls_read_files := [] |}
                (S (lines_in f1 - S (length more1))) f1 [] d text1 k1 s1 more1
                I eq_refl Hd1 Hb1 Hn1) as (rc' & rf & Hdone & Hp & Hi & Hloop).
    cbn [ls_rc ls_world ls_clear_before ls_last_tp paths path_ind] in Hp, Hi, Hloop.
    fold start1 w1 cb1 in Hloop.
    destruct (loop_end {| ls_rc := rc'; ls_world := w1; ls_clear_before := cb1;
                          ls_last_tp := d; ls_read_files := rf |}
                (lines_in f1 - S (length more1)) Hdone) as (st' & Hend & Hw').
    { cbn [ls_rc]. by rewrite Hp, Hi. }
    rewrite Hend in Hloop.
    exists (ls_read_files st').
    rewrite (parse_logs_finish true [f1] now st').
    - unfold finish. by rewrite Hw'.
    - rewrite <- Hloop. f_equal. unfold loop_bound. cbn [unread_files foldr]. lia. }
  destruct Hrun1 as [r1 Hrun1].
  (* what the second file is read into *)
  set (t := d + off).
  set (w_f := (clear_all_players true (at_line n (in_file (lf_name f2) d w1)) t).2).
  set (w_l := (parse_line io true l w_f false).2).
  assert (Hread2 : (read_lines io (pre ++ (n, l) :: post) (in_file (lf_name f2) d w1, true)).1
                   = (read_lines io post (w_l, false)).1).
  { rewrite read_lines_app, read_lines_cons.
    destruct (read_lines_unrecognized pre (in_file (lf_name f2) d w1) true Hpre)
      as (w' & -> & Hw').
    f_equal. f_equal.
    pose proof (parse_line_flushes_first io true l (at_line n (in_file (lf_name f2) d w1))
                  off rest Hts Hw) as E.
    cbn zeta in E. rewrite <- Hw' in E.
    rewrite (read_line_eq n l w' true _ _ E). rewrite Hw'. reflexivity. }
  (* both files *)
  assert (Hrun2 : ∃ r2, parse_logs io skip_latest_log save_ctx [f1; f2] now
                        = Some (finish save_ctx now (read_lines io post (w_l, false)).1, r2)).
  { set (k := (lines_in f1 - S (length more1)
               + (lines_in f2 - length (pre ++ (n, l) :: post)))%nat).
    destruct (loop_open_file
                {| ls_rc := {| fin := None; paths := [f1; f2]; path_ind := 0;
                               rc_date_tp := 0; rc_line := 0 |};
                   ls_world := w0; ls_clear_before := false; ls_last_tp := 0;
                   ls_read_files := [] |}
                (length (pre ++ (n, l) :: post) + S k) f1 [f2] d text1 k1 s1 more1
                I eq_refl Hd1 Hb1 Hn1) as (rc1 & rf1 & Hdone1 & Hp1 & Hi1 & Hloop1).
    cbn [ls_rc ls_world ls_clear_before ls_last_tp paths path_ind] in Hp1, Hi1, Hloop1.
    fold start1 w1 cb1 in Hloop1.
    destruct (pre ++ (n, l) :: post) as [|[k2 s2] more2] eqn:Epre.
    { by destruct pre. }
    destruct (loop_open_file
                {| ls_rc := rc1; ls_world := w1; ls_clear_before := cb1;
                   ls_last_tp := d; ls_read_files := rf1 |}
                (S k) f2 [] d text2 k2 s2 more2 Hdone1)
      as (rc2 & rf2 & Hdone2 & Hp2 & Hi2 & Hloop2); [| done | done | done |].
    { cbn [ls_rc]. by rewrite Hp1, Hi1. }
    cbn [ls_rc ls_world ls_clear_before ls_last_tp paths path_ind] in Hp2, Hi2, Hloop2.
    rewrite Z.eqb_refl in Hloop2.
    match type of Hloop2 with
    | _ = parse_logs_loop _ _ _ ?st2 =>
        destruct (loop_end st2 k Hdone2) as (st' & Hend & Hw')
    end.
    { cbn [ls_rc]. by rewrite Hp2, Hi2, Hp1, Hi1. }
    cbn [ls_world] in Hw'. rewrite Hread2 in Hw'.
    exists (ls_read_files st').
    rewrite (parse_logs_finish save_ctx [f1; f2] now st').
    - by rewrite Hw'.
    - rewrite <- Hend, <- Hloop2.
      change (length ((k2, s2) :: more2)) with (S (length more2)) in Hloop1.
      rewrite <- Hloop1. f_equal. unfold loop_bound. cbn [unread_files foldr].
      subst k. cbn [length] in Hlen2 |- *. lia. }
  destruct Hrun2 as [r2 Hrun2].
  exists w1, r1, (finish save_ctx now (read_lines io post (w_l, false)).1), r2.
  split; [done|]. split; [done|]. cbn zeta. fold t w_f w_l.
  split; [done|].
  assert (Hclose : closes_online t w1 w_f).
  { apply (flush_closes_online true (at_line n (in_file (lf_name f2) d w1)) t). }
  split; [done|].
  intros name u joff Hl.
  assert (Hwarn : WarnNeverLeft name (lf_name f2) t ∈ w_out w_f).
  { apply (flush_warns (at_line n (in_file (lf_name f2) d w1)) t name u (d + joff) Hl). }
  assert (Hs : (d + joff, off - joff) ∈ sessions_of (w_data w_f) u).
  { apply Hclose in Hl as [Hs _]. replace (off - joff) with (t - (d + joff)); [done|].
    subst t. lia. }
  split; [done|]. split; [|split; [done|]].
  - apply (proj1 (finish_keeps save_ctx now _ u (d + joff, off - joff) (WarnFileName ""))).
    apply (proj1 (read_lines_keeps post (w_l, false) u (d + joff, off - joff)
                    (WarnFileName ""))).
    by apply parse_line_keeps_session.
  - apply (proj2 (finish_keeps save_ctx now _ (0%N, 0%N) (0, 0) _)).
    apply (proj2 (read_lines_keeps post (w_l, false) (0%N, 0%N) (0, 0) _)).
    by apply parse_line_out_grows.
Qed.

End Rotation.

(** The amended C2 at two files of 2024-01-01. In the first, Alice joins at
    10:00:00 with her identity on file and Bob joins at 10:30:00 without.
    The second begins with a line that is not recognized; the line after it,
    stamped 09:00:00, gives the identity of Bob. *)
Lemma rotation_flushes_before_first_line_witness :
  ∃ w1 r1 w2 r2,
    Backfill.parse_logs Chrono.io false true [rotation_first_file] 0 = Some (w1, r1)
    ∧ Backfill.parse_logs Chrono.io false true
        [rotation_first_file; rotation_second_file] 0 = Some (w2, r2)
    ∧ let t := Scenario.day1 + 32400 in
      let w_f := (clear_all_players true
                    (at_line 2 (in_file (Backfill.lf_name rotation_second_file)
                                  Scenario.day1 w1)) t).2 in
      w2 = finish true 0
             (read_lines Chrono.io []
                ((parse_line Chrono.io true bob_uuid_line w_f false).2, false)).1
      ∧ closes_online t w1 w_f
      ∧ ∀ name u joff,
          player_info (w_ctx w1) !! name
            = Some {| uuid := Some u; join_time := Some (Scenario.day1 + joff) |} →
          (Scenario.day1 + joff, 32400 - joff) ∈ sessions_of (w_data w_f) u
          ∧ (Scenario.day1 + joff, 32400 - joff) ∈ sessions_of (w_data w2) u
          ∧ WarnNeverLeft name (Backfill.lf_name rotation_second_file) t ∈ w_out w_f
          ∧ WarnNeverLeft name (Backfill.lf_name rotation_second_file) t ∈ w_out w2.
Proof.
  apply (rotation_flushes_before_first_line Chrono.io false true 0
           rotation_first_file rotation_second_file Scenario.day1
           (chunk_of [trace_line; bob_uuid_line]) [(1%nat, trace_line)] [] 2
           bob_uuid_line 32400
           (" [User Authenticator #2/INFO]: UUID of player Bob is "
            +:+ "89abcdef-0123-4567-89ab-cdef01234567")).
  - vm_compute. reflexivity.
  - vm_compute. reflexivity.
  - vm_compute. reflexivity.
  - reflexivity.
  - vm_compute. reflexivity.
  - vm_compute. reflexivity.
  - vm_compute. reflexivity.
  - vm_compute. reflexivity.
Defined.

(** The same two files, run. The session of Alice lasts minus one hour and
    the warning names her. Bob, who had no identity when the flush ran, is
    not closed: the line that gives his identity is interpreted after the
    flush, so that he is still online, now with his identity, and no session
    is recorded for him. *)
Example rotation_flush_precedes_the_line :
  match Backfill.parse_logs Chrono.io false true
          [rotation_first_file; rotation_second_file] 0 with
  | Some (w, _) =>
      sessions_of (w_data w) Scenario.alice_uuid = [(Scenario.day1 + 36000, -3600)]
      ∧ w_out w = [WarnUuidNotFound "Bob" "2024-01-01-1.log" 3;
                   WarnNeverLeft "Alice" "2024-01-01-2.log" (Scenario.day1 + 32400)]
      ∧ player_info (w_ctx w) !! "Alice"
        = Some {| uuid := Some Scenario.alice_uuid; join_time := None |}
      ∧ player_info (w_ctx w) !! "Bob"
        = Some {| uuid := Some bob_uuid; join_time := Some (Scenario.day1 + 37800) |}
      ∧ sessions_of (w_data w) bob_uuid = []
  | None => False
  end.
Proof. vm_compute. repeat split. Qed.
